(** * cg-ion-upgrade: staged firmware upgrade / downgrade of an ION

    A shallow embedding of [cg-ion-upgrade.py] and the properties of its
    version model, catalog resolution, path tables, direction decision,
    staged engine and change-and-wait protocol.

    Conventions of the embedding.
    - A Python [str] is a [list ascii]: a sequence of code points below 256.
      In that range the class [\d] of [re] is exactly ['0'..'9'].
    - A Python [int] is a [Z] (unbounded).
    - A [dict] is an association list in insertion order with unique keys:
      Python iterates a dict in insertion order, and the program depends on it.
    - A compiled regular expression is a [regex] value: the syntax tree of
      the pattern text, for the fragment of [re] the program uses.
    - Code that talks to the controller runs in the monad [M]: it threads the
      state of the remote side together with the log of the calls made and
      of the lines printed, and it can raise. *)

From Stdlib Require Import List ZArith Lia Bool Ascii String Arith.
From Stdlib Require Import DecimalString Decimal.
Import ListNotations.
Open Scope Z_scope.

(* ================================================================= *)
(** ** Strings *)

Definition str := list ascii.

Notation "$ s" := (list_ascii_of_string s) (at level 1, s at level 0, format "$ s").

(** [a == b] on two strings. *)
Fixpoint str_eqb (a b : str) : bool :=
  match a, b with
  | [], [] => true
  | x :: a', y :: b' => Ascii.eqb x y && str_eqb a' b'
  | _, _ => false
  end.

(** [s.startswith(p)] *)
Fixpoint startswith (p s : str) : bool :=
  match p, s with
  | [], _ => true
  | a :: p', b :: s' => Ascii.eqb a b && startswith p' s'
  | _ :: _, [] => false
  end.

(** [p in s] on two strings: [p] occurs in [s] as a contiguous substring. *)
Fixpoint str_in (p s : str) : bool :=
  startswith p s ||
  match s with
  | [] => false
  | _ :: s' => str_in p s'
  end.

(** Python's [<] on strings: lexicographic on code points. *)
Fixpoint str_ltb (a b : str) : bool :=
  match a, b with
  | _, [] => false
  | [], _ :: _ => true
  | x :: a', y :: b' =>
      (nat_of_ascii x <? nat_of_ascii y)%nat
      || (Ascii.eqb x y && str_ltb a' b')
  end.

Definition is_digit (c : ascii) : bool :=
  ((48 <=? nat_of_ascii c) && (nat_of_ascii c <=? 57))%nat.

Definition digit_val (c : ascii) : Z := Z.of_nat (nat_of_ascii c) - 48.

(** [int(s)] on a non-empty string of decimal digits. *)
Definition int_of_digits (s : str) : Z :=
  fold_left (fun acc c => 10 * acc + digit_val c) s 0.

(** [str(n)] on an [int]. *)
Definition str_of_int (n : Z) : str :=
  list_ascii_of_string (NilZero.string_of_int (Z.to_int n)).

(** Truthiness of an optional string: [None] and [''] are falsy. *)
Definition truthy (o : option str) : bool :=
  match o with
  | None => false
  | Some [] => false
  | Some (_ :: _) => true
  end.

(** [a == b] where [a] may be [None] and [b] is a string. *)
Definition opt_str_eqb (a : option str) (b : str) : bool :=
  match a with
  | None => false
  | Some a' => str_eqb a' b
  end.

(* ================================================================= *)
(** ** Exceptions and results of pure code *)

Inductive exn : Type :=
  | AttributeError   (* attribute of [None]: [.groups()], [.keys()] *)
  | KeyError         (* [d[k]] with [k] not a key of [d] *)
  | TypeError        (* iterating [None], matching a regex against [None] *)
  | ValueError.      (* [max()] / [min()] of an empty sequence, [int()] of
                        a string that is not a number or is too long *)

Inductive result (A : Type) : Type :=
  | Ret (a : A)
  | Raise (e : exn)
  | OutOfFuel.
Arguments Ret {A} a.
Arguments Raise {A} e.
Arguments OutOfFuel {A}.

Definition rbind {A B} (r : result A) (f : A -> result B) : result B :=
  match r with
  | Ret a => f a
  | Raise e => Raise e
  | OutOfFuel => OutOfFuel
  end.

(* ================================================================= *)
(** ** [int()] on a string

    [int(s)] takes the decimal digits of [s] after stripping white space
    around it and one sign in front of it; single underscores may separate
    digits. Anything else raises [ValueError]. CPython (3.11 and later, and
    the security releases of 3.7 to 3.10) also raises [ValueError] when the
    string holds more than [sys.get_int_max_str_digits()] digits, 4300
    unless the limit was changed; leading zeros count. *)

Definition int_max_str_digits : Z := 4300.

(** [int(s)] on a non-empty string of decimal digits, as [re] gives them
    for a group [(\d+)]. *)
Definition py_int_of_digits (s : str) : result Z :=
  if Z.of_nat (List.length s) >? int_max_str_digits then Raise ValueError
  else Ret (int_of_digits s).

(** The white space that [int()] strips, among the code points below 256:
    tab, line feed, vertical tab, form feed, carriage return, space, and
    the next-line and no-break-space characters. The separators 28 to 31
    are not stripped. *)
Definition int_space (c : ascii) : bool :=
  let n := nat_of_ascii c in
  ((9 <=? n) && (n <=? 13) || (n =? 32) || (n =? 133) || (n =? 160))%nat.

Fixpoint drop_space (s : str) : str :=
  match s with
  | [] => []
  | c :: s' => if int_space c then drop_space s' else s
  end.

Definition strip_space (s : str) : str :=
  List.rev (drop_space (List.rev (drop_space s))).

(** A digit, then digits each preceded by at most one underscore. *)
Fixpoint int_literal (s : str) : bool :=
  match s with
  | [] => false
  | c :: s' =>
      is_digit c &&
      match s' with
      | [] => true
      | c' :: s'' => if Ascii.eqb c' "_" then int_literal s'' else int_literal s'
      end
  end.

(** [int(s)] on a string. *)
Definition py_int (s : str) : result Z :=
  let s := strip_space s in
  let '(negative, body) :=
    match s with
    | c :: s' =>
        if Ascii.eqb c "-" then (true, s')
        else if Ascii.eqb c "+" then (false, s')
        else (false, s)
    | [] => (false, s)
    end in
  if int_literal body then
    let ds := filter is_digit body in
    if Z.of_nat (List.length ds) >? int_max_str_digits then Raise ValueError
    else Ret (if negative then - int_of_digits ds else int_of_digits ds)
  else Raise ValueError.

(* ================================================================= *)
(** ** The fragment of [re] used by the program

    A pattern is a sequence of nodes. A node is a quantified character class
    or a capturing group around a sequence of quantified classes. This covers
    ['(\d+)\.(\d+)\.(\d+)'], ['\D'] and the path patterns such as
    ['4\.5\..*']. Quantifiers are greedy and the matcher backtracks, as
    [re] does. *)

Inductive cls : Type :=
  | CChar (c : ascii)   (* a literal character, e.g. [\.] *)
  | CDigit              (* [\d] *)
  | CNonDigit           (* [\D] *)
  | CAny.               (* [.] : anything but a newline *)

Inductive quant : Type :=
  | One                 (* no quantifier *)
  | Many0               (* [*] *)
  | Many1.              (* [+] *)

Definition atom : Type := cls * quant.

Inductive node : Type :=
  | NAtom (a : atom)
  | NGroup (body : list atom).

Definition regex := list node.

Definition cls_match (c : cls) (a : ascii) : bool :=
  match c with
  | CChar x => Ascii.eqb x a
  | CDigit => is_digit a
  | CNonDigit => negb (is_digit a)
  | CAny => negb (Ascii.eqb a "010"%char)
  end.

Section Matcher.
Context {R : Type}.

(** Greedy repetition of a class with backtracking: consume as many
    characters as possible, then give characters back one at a time until
    the continuation succeeds. *)
Fixpoint greedy (c : cls) (k : str -> option R) (s : str) : option R :=
  match s with
  | a :: s' =>
      if cls_match c a then
        match greedy c k s' with
        | Some r => Some r
        | None => k s
        end
      else k s
  | [] => k s
  end.

Fixpoint m_atoms (ats : list atom) (k : str -> option R) (s : str) : option R :=
  match ats with
  | [] => k s
  | (c, One) :: ats' =>
      match s with
      | a :: s' => if cls_match c a then m_atoms ats' k s' else None
      | [] => None
      end
  | (c, Many0) :: ats' => greedy c (m_atoms ats' k) s
  | (c, Many1) :: ats' =>
      match s with
      | a :: s' => if cls_match c a then greedy c (m_atoms ats' k) s' else None
      | [] => None
      end
  end.

(** [caps] collects the text of the groups closed so far, in order. *)
Fixpoint m_nodes (ns : list node) (caps : list str)
         (k : list str -> str -> option R) (s : str) : option R :=
  match ns with
  | [] => k caps s
  | NAtom a :: ns' => m_atoms [a] (m_nodes ns' caps k) s
  | NGroup body :: ns' =>
      m_atoms body
        (fun s' =>
           m_nodes ns'
             (caps ++ [firstn (List.length s - List.length s')%nat s]) k s')
        s
  end.
End Matcher.

(** [re.match(p, s)]: a match anchored at the start of [s]; the value is the
    [.groups()] of the match object, [None] when there is no match. *)
Definition re_match (p : regex) (s : str) : option (list str) :=
  m_nodes p [] (fun caps _ => Some caps) s.

(** [re.search(p, s)]: the match at the leftmost position that has one. *)
Fixpoint re_search (p : regex) (s : str) : option (list str) :=
  match re_match p s with
  | Some g => Some g
  | None =>
      match s with
      | [] => None
      | _ :: s' => re_search p s'
      end
  end.

(** [re.sub(p, '', s)] for a pattern [p] that is a single class: every
    character of the class is removed. *)
Definition re_sub_cls_empty (c : cls) (s : str) : str :=
  filter (fun a => negb (cls_match c a)) s.

(** ['(\d+)\.(\d+)\.(\d+)'] *)
Definition version_regex : regex :=
  [ NGroup [(CDigit, Many1)]; NAtom (CChar ".", One);
    NGroup [(CDigit, Many1)]; NAtom (CChar ".", One);
    NGroup [(CDigit, Many1)] ].

(* ================================================================= *)
(** ** Version model *)

(** [major_minor_micro(version)]: [re.search] returns [None] when the
    pattern does not occur, and [None.groups()] raises [AttributeError].
    The three [int()] run from left to right on the groups, each a run of
    digits, and raise [ValueError] on a run longer than the limit. *)
Definition major_minor_micro (version : str) : result (Z * Z * Z) :=
  match re_search version_regex version with
  | None => Raise AttributeError
  | Some [major; minor; micro] =>
      rbind (py_int_of_digits major) (fun major =>
      rbind (py_int_of_digits minor) (fun minor =>
      rbind (py_int_of_digits micro) (fun micro =>
      Ret (major, minor, micro))))
  | Some _ => Raise ValueError   (* unpacking a tuple of another length *)
  end.

(** Tuple comparison of Python: lexicographic. *)
Definition tuple_ltb (a b : Z * Z * Z) : bool :=
  let '(a1, a2, a3) := a in
  let '(b1, b2, b3) := b in
  (a1 <? b1) || ((a1 =? b1) && ((a2 <? b2) || ((a2 =? b2) && (a3 <? b3)))).

(** Longest prefix of [s] in the class [c], and what follows it. *)
Fixpoint take_cls (c : cls) (s : str) : str :=
  match s with
  | a :: s' => if cls_match c a then a :: take_cls c s' else []
  | [] => []
  end.

Fixpoint drop_cls (c : cls) (s : str) : str :=
  match s with
  | a :: s' => if cls_match c a then drop_cls c s' else s
  | [] => []
  end.

(** The anchored match of ['(\d+)\.(\d+)\.(\d+)'], computed directly: three
    maximal runs of digits separated by dots. *)
Definition version_at (s : str) : option (list str) :=
  match take_cls CDigit s, drop_cls CDigit s with
  | _ :: _, dot1 :: s2 =>
      if Ascii.eqb "." dot1 then
        match take_cls CDigit s2, drop_cls CDigit s2 with
        | _ :: _, dot2 :: s3 =>
            if Ascii.eqb "." dot2 then
              match take_cls CDigit s3 with
              | [] => None
              | _ :: _ =>
                  Some [take_cls CDigit s; take_cls CDigit s2; take_cls CDigit s3]
              end
            else None
        | _, _ => None
        end
      else None
  | _, _ => None
  end.

(** A non-empty string of decimal digits. *)
Definition digits (s : str) : Prop :=
  s <> [] /\ Forall (fun c => is_digit c = true) s.

(** [s] holds a [major.minor.micro] pattern right after the prefix [pre]. *)
Definition occurrence (pre a b c post s : str) : Prop :=
  s = pre ++ a ++ "."%char :: b ++ "."%char :: c ++ post
  /\ digits a /\ digits b /\ digits c.


(** A run of digits that [int()] accepts: no longer than the limit. *)
Definition within_int_limit (s : str) : Prop :=
  Z.of_nat (List.length s) <= int_max_str_digits.



(* ================================================================= *)
(** ** Dictionaries *)

Definition dict (V : Type) : Type := list (str * V).

(** [d.keys()], in insertion order. *)
Definition dict_keys {V} (d : dict V) : list str := map fst d.

(** [d.get(k)] *)
Fixpoint dict_get {V} (k : str) (d : dict V) : option V :=
  match d with
  | [] => None
  | (k', v) :: d' => if str_eqb k' k then Some v else dict_get k d'
  end.

(** [d[k] = v]: an existing key keeps its place, a new key goes last. *)
Fixpoint dict_set {V} (k : str) (v : V) (d : dict V) : dict V :=
  match d with
  | [] => [(k, v)]
  | (k', v') :: d' =>
      if str_eqb k' k then (k, v) :: d' else (k', v') :: dict_set k v d'
  end.

(* ================================================================= *)
(** ** The controller API

    The program reaches the controller through the [cloudgenix] SDK object
    [sdk]. Every call answers with a response that carries [cgx_status] and
    [cgx_content]. The remote side is a state of an arbitrary type [W]; each
    call may change it, and so does the passing of time ([time.sleep]). *)

#[local] Unset Elimination Schemes.
Inductive json : Type :=
  | JNull
  | JBool (b : bool)
  | JNum (n : Z)
  | JStr (s : str)
  | JArr (l : list json)
  | JObj (l : list (str * json)).
#[local] Set Elimination Schemes.

Record response (A : Type) : Type := Response {
  cgx_status : bool;
  cgx_content : A
}.
Arguments Response {A} _ _.
Arguments cgx_status {A} _.
Arguments cgx_content {A} _.

(** An entry of the image list: [image['version']] and [image['id']]. *)
Record image : Type := Image {
  image_version : str;
  image_id : str
}.

(** An entry of the element list: [element['id']] and [element['hw_id']]. *)
Record element : Type := Element {
  element_id_of : str;
  element_hw_id : str
}.

(** The element id the program passes around: the id found by
    [find_ion_by_sn], or its [False] ([None] here) when the lookup failed. *)
Definition element_ref : Type := option str.

Record SDK (W : Type) : Type := {
  (** [sdk.get.elements()]: the ["items"] of the content, when present *)
  sdk_get_elements : W -> response (option (list element)) * W;
  (** [sdk.get.elements(element_id)]: the ["software_version"] of the
      content, when present *)
  sdk_get_element : element_ref -> W -> response (option str) * W;
  (** [sdk.get.element_images()]: the ["items"] of the content, when present *)
  sdk_get_element_images : W -> response (option (list image)) * W;
  (** [sdk.get.software_state(element_id)] *)
  sdk_get_software_state : element_ref -> W -> response (dict json) * W;
  (** [sdk.put.software_state(element_id, data)] *)
  sdk_put_software_state : element_ref -> dict json -> W -> response unit * W;
  (** [time.sleep(seconds)] *)
  time_sleep : Z -> W -> W
}.
Arguments sdk_get_elements {W} _ _.
Arguments sdk_get_element {W} _ _ _.
Arguments sdk_get_element_images {W} _ _.
Arguments sdk_get_software_state {W} _ _ _.
Arguments sdk_put_software_state {W} _ _ _ _.
Arguments time_sleep {W} _ _ _.

(** Lines printed by the program. *)
Inductive message : Type :=
  | MsgErrGetState          (* Error getting software state of element *)
  | MsgExecuting            (* Executing Firmware Change *)
  | MsgErrPutState          (* Error updating software state of element *)
  | MsgWaitingUpTo (max_wait : Z)   (* Waiting for firmware change for up to .. seconds *)
  | MsgWaiting (max_wait : Z)       (* ...Waiting .. seconds *)
  | MsgSleepExpired         (* Sleep timer expired waiting for device to perform upgrade *)
  | MsgChangeCompleted (seconds : Z) (* Firmware change completed after .. seconds *)
  | MsgMaxSteps             (* Max upgrade steps reached. Aborting! *)
  | MsgAtMax                (* Currently at max version specified. Completed. *)
  | MsgExactNotFound        (* Exact version not found in image repository *)
  | MsgStep (downgrade : bool) (step : Z) (current : option str)
            (next : str) (target : option str)
                            (* Step .. Performing upgrade/DOWNGRADE from .. to .. *)
  | MsgNoNext               (* Could not find next version number in list *)
  | MsgCompleted (current : option str) (* Completed Firmware change to version .. *)
  | MsgErrListIons          (* Error getting a list of IONS *)
  | MsgSerialNotFound (serial : str) (* Could not find ION serial .. in tenant *)
  | MsgSameVersion          (* Aborting. Version numbers are the same *)
  | MsgUndetermined         (* Could not determine if this is an upgrade or downgrade *)
  | MsgActionMismatch (cli_action action : str) (* Error. Action was specified to be .. *)
  | MsgAutoAction (action : str)    (* current version number compared to target indicates .. *)
  | MsgUnknownAction.       (* Unknown Action. Must be either upgrade or downgrade *)

(** What the program does to the outside, in the order it does it. *)
Inductive event : Type :=
  | EGetElements
  | EGetElement (e : element_ref)
  | EGetImages
  | EGetSoftwareState (e : element_ref)
  | EPutSoftwareState (e : element_ref) (data : dict json)
  | ESleep (seconds : Z)
  | EPrint (m : message).

(* ================================================================= *)
(** ** The monad of the program *)

(** The remote side and the log of events, most recent first. *)
Record state (W : Type) : Type := State {
  world : W;
  log : list event
}.
Arguments State {W} _ _.
Arguments world {W} _.
Arguments log {W} _.

Definition M (W A : Type) : Type := state W -> result A * state W.

Definition ret {W A} (a : A) : M W A := fun st => (Ret a, st).

Definition bind {W A B} (m : M W A) (f : A -> M W B) : M W B :=
  fun st =>
    match m st with
    | (Ret a, st') => f a st'
    | (Raise e, st') => (Raise e, st')
    | (OutOfFuel, st') => (OutOfFuel, st')
    end.

(** A pure computation that may raise. *)
Definition lift {W A} (r : result A) : M W A := fun st => (r, st).

Definition out_of_fuel {W A} : M W A := fun st => (OutOfFuel, st).

Notation "x <- c1 ;; c2" := (bind c1 (fun x => c2))
  (at level 61, c1 at next level, right associativity).
Notation "c1 ;; c2" := (bind c1 (fun _ => c2))
  (at level 61, right associativity).

Definition print {W} (m : message) : M W unit :=
  fun st => (Ret tt, State (world st) (EPrint m :: log st)).

(** One call of the API: the remote side answers and moves on, and the call
    is logged. *)
Definition call {W A} (ev : event) (f : W -> A * W) : M W A :=
  fun st =>
    let (a, w) := f (world st) in
    (Ret a, State w (ev :: log st)).

Definition sleep {W} (sdk : SDK W) (seconds : Z) : M W unit :=
  fun st => (Ret tt, State (time_sleep sdk seconds (world st)) (ESleep seconds :: log st)).

(* ================================================================= *)
(** ** Path tables *)

(** A path table: a dict from a pattern over the current version to the
    version of the next hop, in the order of the dict literal. *)
Definition path_table : Type := list (regex * str).

Definition lit (c : ascii) : node := NAtom (CChar c, One).

(** ['M\.N\..*'] *)
Definition path_regex (major minor : ascii) : regex :=
  [lit major; lit "."; lit minor; lit "."; NAtom (CAny, Many0)].

Definition upgrade_path_regex : path_table :=
  [ (path_regex "4" "5", $"4.7.1");
    (path_regex "4" "7", $"5.0.3");
    (path_regex "5" "0", $"5.2.7");
    (path_regex "5" "1", $"5.2.7");
    (path_regex "5" "2", $"5.4.3") ].

Definition downgrade_path_regex : path_table :=
  [ (path_regex "4" "7", $"4.5.3");
    (path_regex "5" "0", $"4.7.1");
    (path_regex "5" "1", $"4.7.1");
    (path_regex "5" "2", $"5.0.3");
    (path_regex "5" "4", $"5.2.7") ].

(* ================================================================= *)
(** ** Catalog resolution (pure part) *)

(** [get_exact_major_minor_micro(version, image_dict)]: the first key, in the
    order of the dict, that contains [version]. *)
Fixpoint get_exact_in (version : str) (keys : list str) : option str :=
  match keys with
  | [] => None
  | image_version :: keys' =>
      if str_in version image_version then Some image_version
      else get_exact_in version keys'
  end.

Definition get_exact_major_minor_micro (version : str) (image_dict : dict image)
  : option str :=
  get_exact_in version (dict_keys image_dict).

(** The loop of [staged_upgrade] / [staged_downgrade] over the keys,
    [for version_num in image_dict.keys(): if max_version in version_num:
    exact_version = version_num]: there is no [break], every containing key
    overwrites [exact_version]. *)
Fixpoint exact_version_loop (max_version : str) (keys : list str)
         (exact_version : option str) : option str :=
  match keys with
  | [] => exact_version
  | version_num :: keys' =>
      exact_version_loop max_version keys'
        (if str_in max_version version_num then Some version_num
         else exact_version)
  end.

(** [max(keys, key=major_minor_micro)] and [min(keys, key=major_minor_micro)]:
    the key function runs on every element in order, and an element replaces
    the best so far only when strictly better, so that the first of several
    equal ones is kept. An empty sequence raises [ValueError]. *)
Fixpoint best_by (better : Z * Z * Z -> Z * Z * Z -> bool)
         (best : str) (kbest : Z * Z * Z) (l : list str) : result str :=
  match l with
  | [] => Ret best
  | x :: l' =>
      rbind (major_minor_micro x) (fun kx =>
        if better kx kbest then best_by better x kx l'
        else best_by better best kbest l')
  end.

Definition py_best (better : Z * Z * Z -> Z * Z * Z -> bool) (l : list str)
  : result str :=
  match l with
  | [] => Raise ValueError
  | x :: l' => rbind (major_minor_micro x) (fun kx => best_by better x kx l')
  end.

Definition py_max : list str -> result str := py_best (fun a b => tuple_ltb b a).
Definition py_min : list str -> result str := py_best (fun a b => tuple_ltb a b).

(** [image_dict.keys()] where [image_dict] may be [None]: the dict itself,
    or the [AttributeError] of [None.keys()]. *)
Definition require_dict (image_dict : option (dict image)) : result (dict image) :=
  match image_dict with
  | None => Raise AttributeError
  | Some d => Ret d
  end.

(** [a == b] on two values that may be [None]. *)
Definition opt_eqb (a b : option str) : bool :=
  match a, b with
  | None, None => true
  | Some x, Some y => str_eqb x y
  | _, _ => false
  end.

(** The loop of the staged engine over a path table:
[[
    for path in table.keys():
        if re.match(path, current_version):
            upgrade_version = get_exact_major_minor_micro(table[path], image_dict)
            upgrade_image_id = image_dict[upgrade_version]['id']
]]
    [re.match] on a [None] version raises [TypeError]; indexing the dict by a
    version that is not a key ([None] included) raises [KeyError]. There is
    no [break]. *)
Fixpoint scan_path_table (table : path_table) (current_version : option str)
         (image_dict : dict image) (acc : option str * option str)
  : result (option str * option str) :=
  match table with
  | [] => Ret acc
  | (path, hop) :: table' =>
      match current_version with
      | None => Raise TypeError
      | Some cur =>
          match re_match path cur with
          | Some _ =>
              let upgrade_version := get_exact_major_minor_micro hop image_dict in
              match upgrade_version with
              | None => Raise KeyError
              | Some v =>
                  match dict_get v image_dict with
                  | None => Raise KeyError
                  | Some img =>
                      scan_path_table table' current_version image_dict
                        (upgrade_version, Some (image_id img))
                  end
              end
          | None => scan_path_table table' current_version image_dict acc
          end
      end
  end.

(** [major_minor_micro] on a value that may be [None]: [re.search] on [None]
    raises [TypeError]. *)
Definition major_minor_micro_opt (version : option str) : result (Z * Z * Z) :=
  match version with
  | None => Raise TypeError
  | Some v => major_minor_micro v
  end.

(** The comparison of [is_upgrade_or_downgrade]: [None] stands for the
    [return None] at its end. *)
Definition compare_versions (current target : Z * Z * Z) : option str :=
  let '(current_major, current_minor, current_micro) := current in
  let '(target_major, target_minor, target_micro) := target in
  (* First compare major versions to check for upgrade or downgrade *)
  if current_major <? target_major then Some $"upgrade"
  else if current_major >? target_major then Some $"downgrade"
  (* Since major versions are equal, check minor version *)
  else if current_minor <? target_minor then Some $"upgrade"
  else if current_minor >? target_minor then Some $"downgrade"
  else
    (* Since minor versions are equal, check micro version, but remove all
       except from digits for our comparison: the code rebinds
       [current_minor] and [target_minor] here, as strings *)
    let current_minor := re_sub_cls_empty CNonDigit (str_of_int current_minor) in
    let target_minor := re_sub_cls_empty CNonDigit (str_of_int target_minor) in
    if str_ltb current_minor target_minor then Some $"upgrade"
    else if str_ltb target_minor current_minor then Some $"downgrade"
    else None.

(* ================================================================= *)
(** ** The program *)

Inductive direction : Type := Upgrade | Downgrade.

Section Program.
Context {W : Type} (sdk : SDK W).

(** Returns the elements Software Version given the Element ID *)
Definition get_element_sw_version (element_id : element_ref) : M W (option str) :=
  result <- call (EGetElement element_id) (sdk_get_element sdk element_id) ;;
  if cgx_status result then ret (cgx_content result) else ret None.

(** The loop [for image in images: image_dict[image['version']] = image] *)
Fixpoint images_to_dict (images : list image) (image_dict : dict image)
  : dict image :=
  match images with
  | [] => image_dict
  | image :: images' =>
      images_to_dict images' (dict_set (image_version image) image image_dict)
  end.

(** Returns a Dictionary containing the version number as keys with the
    element image data structure as the value *)
Definition get_images_list : M W (option (dict image)) :=
  result <- call EGetImages (sdk_get_element_images sdk) ;;
  if cgx_status result then
    match cgx_content result with
    | None => lift (Raise TypeError)      (* for image in None *)
    | Some images => ret (Some (images_to_dict images []))
    end
  else ret None.

(** Gets software_state for an element_id, edits the image to the image_id
    specified, then puts the updated software state up *)
Definition execute_upgrade (element_id : element_ref) (image_id : str) : M W bool :=
  result <- call (EGetSoftwareState element_id)
                 (sdk_get_software_state sdk element_id) ;;
  if negb (cgx_status result) then
    print MsgErrGetState ;; ret false
  else
    let software_state_data := cgx_content result in
    let software_state_data :=
      dict_set $"image_id" (JStr image_id) software_state_data in
    print MsgExecuting ;;
    result <- call (EPutSoftwareState element_id software_state_data)
                   (sdk_put_software_state sdk element_id software_state_data) ;;
    if negb (cgx_status result) then
      print MsgErrPutState ;; ret false
    else ret true.

Definition sleep_interval : Z := 10.

(** The [while] loop of [wait_for_upgade]; it returns the final [max_wait]
    and [current_version]. *)
Fixpoint wait_loop (fuel : nat) (target_version : str) (element_id : element_ref)
         (max_wait : Z) (current_version : option str)
  : M W (Z * option str) :=
  if negb (opt_str_eqb current_version target_version) && (max_wait >? 0) then
    match fuel with
    | O => out_of_fuel
    | S fuel' =>
        print (MsgWaiting max_wait) ;;
        sleep sdk sleep_interval ;;
        let max_wait := max_wait - sleep_interval in
        current_version <- get_element_sw_version element_id ;;
        wait_loop fuel' target_version element_id max_wait current_version
    end
  else ret (max_wait, current_version).

(** Waits for a period of time for a given element_id to change to a
    target_version. Every turn of the loop takes 10 off a positive
    [max_wait], so [max_wait] turns are enough. *)
Definition wait_for_upgade (target_version : str) (element_id : element_ref)
           (max_wait : Z) : M W bool :=
  print (MsgWaitingUpTo max_wait) ;;
  let orig_max_wait := max_wait in
  current_version <- get_element_sw_version element_id ;;
  r <- wait_loop (Z.to_nat max_wait) target_version element_id max_wait
                 current_version ;;
  let '(max_wait, current_version) := r in
  if negb (opt_str_eqb current_version target_version) then
    print MsgSleepExpired ;; ret false
  else
    print (MsgChangeCompleted (orig_max_wait - max_wait)) ;; ret true.

(** [staged_upgrade] and [staged_downgrade] are the same text but for: the
    table they read ([upgrade_path_regex] / [downgrade_path_regex], a
    parameter here), [max] against [min] for an absent target, the word
    printed in the step line, and the already-there line, which the downgrade
    prints at step 1 only. The value is [Some false] for [return False] and
    [None] for falling off the end. *)
Fixpoint staged_change (d : direction) (table : path_table) (fuel : nat)
         (element_id : element_ref) (max_version : option str)
         (max_wait max_steps step : Z) : M W (option bool) :=
  let step := step + 1 in
  if step >? max_steps then
    print MsgMaxSteps ;; ret (Some false)
  else
    match fuel with
    | O => out_of_fuel
    | S fuel' =>
        image_dict <- get_images_list ;;
        current_version <- get_element_sw_version element_id ;;
        image_dict <- lift (require_dict image_dict) ;;
        max_version <-
          (if truthy max_version
           then ret (match max_version with Some v => v | None => [] end)
           else lift (match d with
                      | Upgrade => py_max (dict_keys image_dict)
                      | Downgrade => py_min (dict_keys image_dict)
                      end)) ;;
        let exact_max_version := get_exact_major_minor_micro max_version image_dict in
        if opt_eqb current_version (Some max_version)
           || opt_eqb current_version exact_max_version then
          (match d with
           | Upgrade => print MsgAtMax
           | Downgrade => if step =? 1 then print MsgAtMax else ret tt
           end) ;;
          ret (Some false)
        else
          let exact_version :=
            exact_version_loop max_version (dict_keys image_dict) None in
          if negb (truthy exact_version) then
            print MsgExactNotFound ;; ret (Some false)
          else
            (* now loop through and stage until current version is exact version *)
            hop <- lift (scan_path_table table current_version image_dict (None, None)) ;;
            let '(upgrade_version, upgrade_image_id) := hop in
            if truthy upgrade_version && truthy upgrade_image_id then
              let next := match upgrade_version with Some v => v | None => [] end in
              let id := match upgrade_image_id with Some i => i | None => [] end in
              print (MsgStep (match d with Upgrade => false | Downgrade => true end)
                             step current_version next exact_max_version) ;;
              ok <- execute_upgrade element_id id ;;
              if negb ok then ret (Some false)
              else
                ok <- wait_for_upgade next element_id max_wait ;;
                if negb ok then ret (Some false)
                else
                  (* the value of the recursive call is dropped *)
                  staged_change d table fuel' element_id (Some max_version)
                                max_wait max_steps step ;;
                  current_version <- get_element_sw_version element_id ;;
                  (if step =? 1 then print (MsgCompleted current_version)
                   else ret tt) ;;
                  ret None
            else
              print MsgNoNext ;; ret (Some false)
    end.

(** Perfoms the staged upgrade. A call at [step] recurses at most
    [max_steps - step] deep. *)
Definition staged_upgrade (element_id : element_ref) (max_version : option str)
           (max_wait max_steps step : Z) : M W (option bool) :=
  staged_change Upgrade upgrade_path_regex (Z.to_nat (max_steps - step))
                element_id max_version max_wait max_steps step.

Definition staged_downgrade (element_id : element_ref) (max_version : option str)
           (max_wait max_steps step : Z) : M W (option bool) :=
  staged_change Downgrade downgrade_path_regex (Z.to_nat (max_steps - step))
                element_id max_version max_wait max_steps step.

(** The loop of [find_ion_by_sn] over the element list. *)
Fixpoint find_hw_id (ion_serial : str) (element_list : list element) : option str :=
  match element_list with
  | [] => None
  | element :: rest =>
      if str_eqb (element_hw_id element) ion_serial
      then Some (element_id_of element)
      else find_hw_id ion_serial rest
  end.

Definition find_ion_by_sn (ion_serial : str) : M W element_ref :=
  result <- call EGetElements (sdk_get_elements sdk) ;;
  if negb (cgx_status result) then
    print MsgErrListIons ;; ret None
  else
    match cgx_content result with
    | None => lift (Raise TypeError)      (* for element in None *)
    | Some element_list =>
        match find_hw_id ion_serial element_list with
        | Some id => ret (Some id)
        | None => print (MsgSerialNotFound ion_serial) ;; ret None
        end
    end.

Definition is_upgrade_or_downgrade (element_id : element_ref)
           (target_version : option str) : M W (option str) :=
  image_dict <- get_images_list ;;
  current_version <- get_element_sw_version element_id ;;
  image_dict <- lift (require_dict image_dict) ;;
  target_version <-
    (if truthy target_version
     then ret (match target_version with Some v => v | None => [] end)
     else lift (py_max (dict_keys image_dict))) ;;
  let exact_target_version := get_exact_major_minor_micro target_version image_dict in
  target <- lift (major_minor_micro_opt exact_target_version) ;;
  current <- lift (major_minor_micro_opt current_version) ;;
  match compare_versions current target with
  | Some action => ret (Some action)
  | None => print MsgSameVersion ;; ret None
  end.

(** The command line as [parse_arguments] returns it: every option is
    declared with [type=str], so the two numbers are still strings, and
    [version_target] is [None] when the option is not given. *)
Record cliargs : Type := CliArgs {
  ion_serial : str;
  action : str;
  max_steps : str;
  max_wait : str;
  version_target : option str
}.

(** The value is [Some false] for [return False] and [None] for falling off
    the end; the values of [staged_upgrade] and [staged_downgrade] are
    dropped. The two [int()] run before any call is made. *)
Definition go (CLIARGS : cliargs) : M W (option bool) :=
  let ion_serial := ion_serial CLIARGS in
  let cli_action := action CLIARGS in
  max_steps <- lift (py_int (max_steps CLIARGS)) ;;
  max_wait <- lift (py_int (max_wait CLIARGS)) ;;
  let version_target := version_target CLIARGS in
  element_id <- find_ion_by_sn ion_serial ;;
  action <- is_upgrade_or_downgrade element_id version_target ;;
  if negb (truthy action) then
    print MsgUndetermined ;; ret (Some false)
  else
    let action := match action with Some a => a | None => [] end in
    if negb (str_eqb cli_action $"auto") && negb (str_eqb cli_action action) then
      print (MsgActionMismatch cli_action action) ;; ret (Some false)
    else
      (if str_eqb cli_action $"auto" then print (MsgAutoAction action) else ret tt) ;;
      if negb (truthy element_id) then ret (Some false)
      else if str_eqb action $"upgrade" then
        staged_upgrade element_id version_target max_wait max_steps 0 ;;
        ret None
      else if str_eqb action $"downgrade" then
        staged_downgrade element_id version_target max_wait max_steps 0 ;;
        ret None
      else
        print MsgUnknownAction ;; ret (Some false).

End Program.

(* ================================================================= *)
(** ** Reading the log *)

(** A firmware change request: the write of the software state. *)
Definition is_put (e : event) : bool :=
  match e with EPutSoftwareState _ _ => true | _ => false end.

(** The read that opens every [execute_upgrade]. *)
Definition is_get_state (e : event) : bool :=
  match e with EGetSoftwareState _ => true | _ => false end.

(** The line of a wait that ran out of time. *)
Definition is_timeout (e : event) : bool :=
  match e with EPrint MsgSleepExpired => true | _ => false end.

(** The line of a wait that saw the expected version. *)
Definition is_completed (e : event) : bool :=
  match e with EPrint (MsgChangeCompleted _) => true | _ => false end.

(** Events that are neither a software-state call nor one of the two lines
    that end a wait. *)
Definition plain (e : event) : bool :=
  negb (is_put e || is_get_state e || is_timeout e || is_completed e).

Definition count (p : event -> bool) (l : list event) : nat :=
  List.length (filter p l).

(** In a log (most recent first): no software-state call was made after a
    wait timed out. *)
Fixpoint quiet_after_timeout (l : list event) : Prop :=
  match l with
  | [] => True
  | e :: l' =>
      (is_put e || is_get_state e = true -> count is_timeout l' = 0%nat)
      /\ quiet_after_timeout l'
  end.

(** [False] or [None], or an exception: never [True], never out of fuel. *)
Definition false_or_none (r : result (option bool)) : Prop :=
  r <> OutOfFuel /\ r <> Ret (Some true).

(* ================================================================= *)
(** ** Notions used by the statements *)

(** The polling of [wait_for_upgade], written from its description: a first
    read of the version, then [n] rounds of a 10-second sleep followed by a
    new read. [polls n] returns the version read last. The line printed
    before each sleep shows the budget left, [max_wait - 10 * i]. *)
Fixpoint polls {W} (sdk : SDK W) (element_id : element_ref) (max_wait : Z)
         (n : nat) : M W (option str) :=
  match n with
  | O => get_element_sw_version sdk element_id
  | S n' =>
      v <- polls sdk element_id max_wait n' ;;
      print (MsgWaiting (max_wait - 10 * Z.of_nat n')) ;;
      sleep sdk 10 ;;
      get_element_sw_version sdk element_id
  end.

(** The end of a step of [staged_change], from [execute_upgrade] on, with
    the recursive call as a parameter: the text of the source after the step
    line is printed. *)
Definition finish_hop {W} (sdk : SDK W) (element_id : element_ref)
           (next id : str) (max_wait step : Z) (rec : M W (option bool))
  : M W (option bool) :=
  ok <- execute_upgrade sdk element_id id ;;
  if negb ok then ret (Some false)
  else
    ok <- wait_for_upgade sdk next element_id max_wait ;;
    if negb ok then ret (Some false)
    else
      rec ;;
      current_version <- get_element_sw_version sdk element_id ;;
      (if step =? 1 then print (MsgCompleted current_version) else ret tt) ;;
      ret None.

(** The hop of the first entry of a table whose pattern matches the
    version, as a path table is described: first matching entry wins. *)
Fixpoint first_match_hop (table : path_table) (cur : str) : option str :=
  match table with
  | [] => None
  | (path, hop) :: table' =>
      match re_match path cur with
      | Some _ => Some hop
      | None => first_match_hop table' cur
      end
  end.

(** The hop of the last matching entry: the first one of the table read
    backwards. *)
Definition last_match_hop (table : path_table) (cur : str) : option str :=
  first_match_hop (List.rev table) cur.

(** What the path scan leaves for a hop: the first key that contains it and
    the id of that image. *)
Definition resolve_hop (hop : str) (image_dict : dict image)
  : option str * option str :=
  match get_exact_major_minor_micro hop image_dict with
  | Some v => (Some v, option_map image_id (dict_get v image_dict))
  | None => (None, None)
  end.

(** The order on versions: [version_lt a b] when [a] is strictly below [b]
    as a (major, minor, micro) triple. *)
Definition version_lt (a b : Z * Z * Z) : Prop := tuple_ltb a b = true.
Definition version_le (a b : Z * Z * Z) : Prop := tuple_ltb b a = false.

(** [k] is a key of [keys] with a version [top]; the keys before it satisfy
    [before] against [top], the keys after it satisfy [after]. *)
Definition first_with (keys : list str) (k : str)
           (before after : Z * Z * Z -> Z * Z * Z -> Prop) : Prop :=
  exists pre post top,
    keys = pre ++ k :: post /\ major_minor_micro k = Ret top /\
    (forall x, In x pre -> exists tx, major_minor_micro x = Ret tx /\ before tx top) /\
    (forall x, In x post -> exists tx, major_minor_micro x = Ret tx /\ after tx top).

(* ================================================================= *)
(** ** A simulated controller, for the examples

    One device. A successful write of the software state starts the
    installation of the image named by ["image_id"]; the device reports the
    new version after the next sleep, unless it is stuck. The image list can
    be made to fail after a number of calls. *)

Record sim : Type := Sim {
  sim_version : option str;       (* the version the device reports *)
  sim_images : list image;        (* the image list *)
  sim_software_state : dict json; (* the software-state record *)
  sim_pending : option str;       (* the version being installed *)
  sim_stuck : bool;               (* the device never finishes a change *)
  sim_put_ok : bool;              (* writes of the software state succeed *)
  sim_image_calls : nat           (* image-list calls that still succeed *)
}.

Fixpoint version_of_image_id (id : str) (images : list image) : option str :=
  match images with
  | [] => None
  | i :: images' =>
      if str_eqb (image_id i) id then Some (image_version i)
      else version_of_image_id id images'
  end.

Definition sim_put (data : dict json) (w : sim) : response unit * sim :=
  if sim_put_ok w then
    (Response true tt,
     Sim (sim_version w) (sim_images w) data
         (match dict_get $"image_id" data with
          | Some (JStr id) => version_of_image_id id (sim_images w)
          | _ => None
          end)
         (sim_stuck w) (sim_put_ok w) (sim_image_calls w))
  else (Response false tt, w).

Definition sim_sleep (w : sim) : sim :=
  match sim_pending w with
  | Some v =>
      if sim_stuck w then w
      else Sim (Some v) (sim_images w) (sim_software_state w) None
               (sim_stuck w) (sim_put_ok w) (sim_image_calls w)
  | None => w
  end.

Definition sim_get_images (w : sim) : response (option (list image)) * sim :=
  match sim_image_calls w with
  | O => (Response false None, w)
  | S n =>
      (Response true (Some (sim_images w)),
       Sim (sim_version w) (sim_images w) (sim_software_state w)
           (sim_pending w) (sim_stuck w) (sim_put_ok w) n)
  end.

Definition the_element : element := Element $"e1" $"serial-1".

Definition sim_sdk : SDK sim := {|
  sdk_get_elements := fun w => (Response true (Some [the_element]), w);
  sdk_get_element := fun _ w => (Response true (sim_version w), w);
  sdk_get_element_images := sim_get_images;
  sdk_get_software_state := fun _ w => (Response true (sim_software_state w), w);
  sdk_put_software_state := fun _ data w => sim_put data w;
  time_sleep := fun _ w => sim_sleep w
|}.

(** The image of version [v], with the id ["id-" ++ v]. *)
Definition img (v : string) : image :=
  Image (list_ascii_of_string v) (list_ascii_of_string ("id-" ++ v)%string).

(** The image list of the examples. *)
Definition catalog : list image :=
  [img "4.5.3"; img "4.7.1"; img "5.0.3"; img "5.2.7-b22"; img "5.4.3"].

(** A device at [version] with the given image list. *)
Definition device (version : string) (images : list image) : state sim :=
  State (Sim (Some (list_ascii_of_string version)) images
             [($"image_id", JStr $"id-0"); ($"scheduled_upgrade", JNull)]
             None false true 100)
        [].

(** A device at 4.5.2 whose image list answers once, then fails. *)
Definition device_one_listing : state sim :=
  State (Sim (Some $"4.5.2") catalog [] None false true 1) [].

(** A path table with two patterns that match every 4.5.x version:
    ['4\..*'] and ['4\.5\..*']. *)
Definition overlapping_table : path_table :=
  [ ([lit "4"; lit "."; NAtom (CAny, Many0)], $"4.7.1");
    (path_regex "4" "5", $"5.0.3") ].

(* ================================================================= *)
(** ** Further notions used by the statements *)

(** The distinct elements of a list, each at the place of its first
    occurrence. *)
Fixpoint first_occurrences (l : list str) : list str :=
  match l with
  | [] => []
  | x :: l' => x :: filter (fun y => negb (str_eqb y x)) (first_occurrences l')
  end.

(** The last image of a list that has the version [v]. *)
Definition last_image_with (v : str) (images : list image) : option image :=
  find (fun i => str_eqb (image_version i) v) (List.rev images).

(* ================================================================= *)
(** ** The shape of the log of a run *)

Definition is_listing (e : event) : bool :=
  match e with EGetImages => true | _ => false end.

Definition is_version_read (e : event) : bool :=
  match e with EGetElement _ => true | _ => false end.

Definition is_sleep (e : event) : bool :=
  match e with ESleep _ => true | _ => false end.

(** What the planning part of a step and its last lines do: reads of the
    image list and of the version, and the lines that [staged_upgrade] and
    [staged_downgrade] print themselves. *)
Definition reading (e : event) : bool :=
  match e with
  | EGetImages | EGetElement _ => true
  | EPrint m =>
      match m with
      | MsgMaxSteps | MsgAtMax | MsgExactNotFound | MsgStep _ _ _ _ _
      | MsgNoNext | MsgCompleted _ => true
      | _ => false
      end
  | _ => false
  end.

(** What a wait does: reads of the version, sleeps of 10 seconds and its
    own lines. *)
Definition wait_event (e : event) : bool :=
  match e with
  | EGetElement _ => true
  | ESleep s => s =? 10
  | EPrint m =>
      match m with
      | MsgSleepExpired | MsgChangeCompleted _ | MsgWaiting _ | MsgWaitingUpTo _ =>
          true
      | _ => false
      end
  | _ => false
  end.

(** [x] is what some call of [execute_upgrade] on the element, with result
    [b], adds to the log. *)
Definition exec_log {W} (sdk : SDK W) (e : element_ref) (b : bool)
           (x : list event) : Prop :=
  exists id st st',
    execute_upgrade sdk e id st = (Ret b, st') /\ log st' = x ++ log st.

(** [w] is what some call of [wait_for_upgade] on the element, with result
    [b], adds to the log. *)
Definition wait_log {W} (sdk : SDK W) (e : element_ref) (max_wait : Z) (b : bool)
           (w : list event) : Prop :=
  exists next st st',
    wait_for_upgade sdk next e max_wait st = (Ret b, st') /\ log st' = w ++ log st.

(** The planning part of a step that goes on to a change request: one read
    of the image list among reads and lines. *)
Definition planning (pre : list event) : Prop :=
  Forall (fun ev => reading ev = true) pre /\ count is_listing pre = 1%nat.

(** The logs (most recent first) of the runs of the staged engine that make
    at most [n] steps: a run ends while planning; or its change request
    fails; or its wait fails; or the hop goes through and the log of the
    steps that follow sits between the wait and the last lines. *)
Inductive engine_log {W} (sdk : SDK W) (e : element_ref) (max_wait : Z)
  : nat -> list event -> Prop :=
  | EL_end n pre :
      Forall (fun ev => reading ev = true) pre ->
      (count is_listing pre <= 1)%nat ->
      (n = 0%nat -> count is_listing pre = 0%nat) ->
      engine_log sdk e max_wait n pre
  | EL_exec_failed n pre x :
      planning pre -> exec_log sdk e false x ->
      engine_log sdk e max_wait (S n) (x ++ pre)
  | EL_wait_failed n pre x w :
      planning pre -> exec_log sdk e true x -> wait_log sdk e max_wait false w ->
      engine_log sdk e max_wait (S n) (w ++ x ++ pre)
  | EL_hop n pre x w inner post :
      planning pre -> exec_log sdk e true x -> wait_log sdk e max_wait true w ->
      engine_log sdk e max_wait n inner ->
      Forall (fun ev => reading ev = true) post ->
      count is_listing post = 0%nat ->
      engine_log sdk e max_wait (S n) (post ++ inner ++ w ++ x ++ pre).

(** In a log (most recent first): every write of the software state comes
    right after the line that announces it and a read of the software state
    of the same element, and the record written has a string under
    ["image_id"]. *)
Fixpoint read_before_write (l : list event) : Prop :=
  match l with
  | [] => True
  | EPutSoftwareState e data :: rest =>
      (exists rest', rest = EPrint MsgExecuting :: EGetSoftwareState e :: rest') /\
      (exists id, dict_get $"image_id" data = Some (JStr id)) /\
      read_before_write rest
  | _ :: rest => read_before_write rest
  end.

(** The lines with which [go] and the two functions it calls first give up:
    the element list cannot be read, the serial is not in it, the versions
    are the same, no direction, a direction other than the one asked for. *)
Definition go_refusal (e : event) : bool :=
  match e with
  | EPrint m =>
      match m with
      | MsgErrListIons | MsgSerialNotFound _ | MsgSameVersion | MsgUndetermined
      | MsgActionMismatch _ _ => true
      | _ => false
      end
  | _ => false
  end.

(** Reads and printed lines: no write, no read of the software state, no
    sleep. *)
Definition front_event (e : event) : bool :=
  match e with
  | EGetElements | EGetImages | EGetElement _ | EPrint _ => true
  | _ => false
  end.

Definition is_element_listing (e : event) : bool :=
  match e with EGetElements => true | _ => false end.

(** The line "Exact version not found in image repository". *)
Definition is_not_found (e : event) : bool :=
  match e with EPrint MsgExactNotFound => true | _ => false end.
(* ================================================================= *)
(** ** Facts about strings and the matcher *)

Lemma str_eqb_eq (a b : str) : str_eqb a b = true <-> a = b.
Proof.
  revert b. induction a as [|x a IH]; intros [|y b]; simpl;
    try (split; [discriminate | intros H; discriminate H]);
    [split; reflexivity|].
  rewrite andb_true_iff, Ascii.eqb_eq, IH. split.
  - intros [-> ->]. reflexivity.
  - intros H. inversion H. split; reflexivity.
Qed.

Lemma str_eqb_refl (a : str) : str_eqb a a = true.
Proof. now apply str_eqb_eq. Qed.

Lemma str_eqb_neq (a b : str) : str_eqb a b = false <-> a <> b.
Proof.
  rewrite <- not_true_iff_false, str_eqb_eq. reflexivity.
Qed.

Example major_minor_micro_ex1 :
  major_minor_micro $"5.2.7-b22" = Ret (5, 2, 7).
Proof. reflexivity. Qed.

Example major_minor_micro_ex2 :
  major_minor_micro $"v1.2.x13.04.5y" = Ret (13, 4, 5).
Proof. reflexivity. Qed.

Example major_minor_micro_ex3 :
  major_minor_micro $"5.2" = Raise AttributeError.
Proof. reflexivity. Qed.


Lemma take_drop_cls c s : take_cls c s ++ drop_cls c s = s.
Proof.
  induction s as [|a s IH]; simpl; [reflexivity|].
  destruct (cls_match c a); simpl; [now rewrite IH | reflexivity].
Qed.



Lemma firstn_take_cls c s :
  firstn (List.length s - List.length (drop_cls c s))%nat s = take_cls c s.
Proof.
  rewrite <- (take_drop_cls c s) at 1 3.
  rewrite List.length_app.
  replace (List.length (take_cls c s) + List.length (drop_cls c s)
           - List.length (drop_cls c s))%nat
    with (List.length (take_cls c s) + 0)%nat by lia.
  rewrite firstn_app_2. simpl. now rewrite app_nil_r.
Qed.

(** A run followed by something that cannot start inside the run: the
    greedy choice is the only one. *)
Lemma greedy_reject {R} c (k : str -> option R) s :
  (forall a s', cls_match c a = true -> k (a :: s') = None) ->
  greedy c k s = k (drop_cls c s).
Proof.
  intros Hk. induction s as [|a s IH]; simpl; [reflexivity|].
  destruct (cls_match c a) eqn:E; [|reflexivity].
  rewrite IH. destruct (k (drop_cls c s)) eqn:K; [reflexivity|].
  now apply Hk.
Qed.

(** A run followed by a continuation that always succeeds: the longest run
    is taken. *)
Lemma greedy_accept {R} c (k : str -> option R) s :
  (forall s', k s' <> None) ->
  greedy c k s = k (drop_cls c s).
Proof.
  intros Hk. induction s as [|a s IH]; simpl; [reflexivity|].
  destruct (cls_match c a) eqn:E; [|reflexivity].
  rewrite IH. destruct (k (drop_cls c s)) eqn:K; [reflexivity|].
  now apply Hk in K.
Qed.



Lemma m_digits1_reject {R} (k : str -> option R) s :
  (forall a s', is_digit a = true -> k (a :: s') = None) ->
  m_atoms [(CDigit, Many1)] k s =
  match take_cls CDigit s with
  | [] => None
  | _ :: _ => k (drop_cls CDigit s)
  end.
Proof.
  intros Hk. destruct s as [|x s]; simpl; [reflexivity|].
  destruct (is_digit x); [|reflexivity].
  now apply (greedy_reject CDigit).
Qed.

Lemma m_digits1_accept {R} (k : str -> option R) s :
  (forall s', k s' <> None) ->
  m_atoms [(CDigit, Many1)] k s =
  match take_cls CDigit s with
  | [] => None
  | _ :: _ => k (drop_cls CDigit s)
  end.
Proof.
  intros Hk. destruct s as [|x s]; simpl; [reflexivity|].
  destruct (is_digit x); [|reflexivity].
  now apply (greedy_accept CDigit).
Qed.

Lemma dot_not_digit a : is_digit a = true -> Ascii.eqb "." a = false.
Proof.
  intros H. destruct (Ascii.eqb "." a) eqn:E; [|reflexivity].
  apply Ascii.eqb_eq in E. subst a. discriminate.
Qed.

Lemma m_nodes_group {R} body ns caps (k : list str -> str -> option R) s :
  m_nodes (NGroup body :: ns) caps k s =
  m_atoms body
    (fun s' => m_nodes ns (caps ++ [firstn (List.length s - List.length s')%nat s]) k s')
    s.
Proof. reflexivity. Qed.

Lemma m_nodes_char {R} x ns caps (k : list str -> str -> option R) s :
  m_nodes (NAtom (CChar x, One) :: ns) caps k s =
  match s with
  | a :: s' => if Ascii.eqb x a then m_nodes ns caps k s' else None
  | [] => None
  end.
Proof. reflexivity. Qed.

Lemma re_match_version s : re_match version_regex s = version_at s.
Proof.
  unfold re_match, version_regex, version_at.
  rewrite m_nodes_group, m_digits1_reject.
  2:{ intros a s' Ha. now rewrite m_nodes_char, (dot_not_digit a Ha). }
  destruct (take_cls CDigit s) as [|a0 ta] eqn:Ta; [reflexivity|].
  rewrite m_nodes_char.
  destruct (drop_cls CDigit s) as [|dot1 s2] eqn:Da; [reflexivity|].
  destruct (Ascii.eqb "." dot1); [|reflexivity].
  rewrite m_nodes_group, m_digits1_reject.
  2:{ intros a s' Ha. now rewrite m_nodes_char, (dot_not_digit a Ha). }
  destruct (take_cls CDigit s2) as [|b0 tb] eqn:Tb; [reflexivity|].
  rewrite m_nodes_char.
  destruct (drop_cls CDigit s2) as [|dot2 s3] eqn:Db; [reflexivity|].
  destruct (Ascii.eqb "." dot2); [|reflexivity].
  rewrite m_nodes_group, m_digits1_accept by (intros; discriminate).
  destruct (take_cls CDigit s3) as [|c0 tc] eqn:Tc; [reflexivity|].
  cbn [m_nodes app].
  rewrite <- Da, <- Db, !firstn_take_cls, Ta, Tb, Tc. reflexivity.
Qed.

Lemma take_drop_cls_app c a rest :
  Forall (fun x => cls_match c x = true) a ->
  take_cls c (a ++ rest) = a ++ take_cls c rest /\
  drop_cls c (a ++ rest) = drop_cls c rest.
Proof.
  induction 1 as [|x a Hx Ha IH]; simpl; [split; reflexivity|].
  rewrite Hx. destruct IH as [-> ->]. split; reflexivity.
Qed.

Lemma take_drop_cls_dot a rest :
  Forall (fun x => is_digit x = true) a ->
  take_cls CDigit (a ++ "."%char :: rest) = a /\
  drop_cls CDigit (a ++ "."%char :: rest) = "."%char :: rest.
Proof.
  intros Ha. destruct (take_drop_cls_app CDigit a ("."%char :: rest) Ha) as [-> ->].
  simpl. now rewrite app_nil_r.
Qed.

Lemma version_at_of_occurrence a b c post :
  digits a -> digits b -> digits c ->
  version_at (a ++ "."%char :: b ++ "."%char :: c ++ post)
  = Some [a; b; c ++ take_cls CDigit post].
Proof.
  intros [Na Ha] [Nb Hb] [Nc Hc]. unfold version_at.
  destruct (take_drop_cls_dot a (b ++ "."%char :: c ++ post) Ha) as [-> ->].
  destruct a as [|a0 a]; [congruence|].
  rewrite Ascii.eqb_refl.
  destruct (take_drop_cls_dot b (c ++ post) Hb) as [-> ->].
  destruct b as [|b0 b]; [congruence|].
  rewrite Ascii.eqb_refl.
  destruct (take_drop_cls_app CDigit c post Hc) as [-> _].
  destruct c as [|c0 c]; [congruence|]. reflexivity.
Qed.


Lemma app_same_length_inv {A} (p p' q q' : list A) :
  p ++ q = p' ++ q' -> List.length p = List.length p' -> p = p' /\ q = q'.
Proof.
  revert p'. induction p as [|x p IH]; intros [|y p'] H L; simpl in *;
    try discriminate; [now split|].
  inversion H; subst. destruct (IH p' H2) as [-> ->]; [lia|now split].
Qed.



(* ================================================================= *)
(** ** Version parsing *)





Lemma py_int_of_digits_within s :
  within_int_limit s -> py_int_of_digits s = Ret (int_of_digits s).
Proof.
  unfold within_int_limit, py_int_of_digits. intros H.
  rewrite Z.gtb_ltb. now rewrite (proj2 (Z.ltb_ge _ _) H).
Qed.







(* ================================================================= *)
(** ** Dictionaries *)

Lemma dict_get_set_same {V} k (v : V) d : dict_get k (dict_set k v d) = Some v.
Proof.
  induction d as [|[k' v'] d IH]; simpl.
  - now rewrite str_eqb_refl.
  - destruct (str_eqb k' k) eqn:E; simpl.
    + now rewrite str_eqb_refl.
    + now rewrite E.
Qed.

Lemma dict_get_set_other {V} k k0 (v : V) d :
  k <> k0 -> dict_get k (dict_set k0 v d) = dict_get k d.
Proof.
  intros Hk. induction d as [|[k' v'] d IH]; simpl.
  - destruct (str_eqb k0 k) eqn:E; [|reflexivity].
    apply str_eqb_eq in E. congruence.
  - destruct (str_eqb k' k0) eqn:E; simpl.
    + apply str_eqb_eq in E. subst k'.
      destruct (str_eqb k0 k) eqn:E'; [|reflexivity].
      apply str_eqb_eq in E'. congruence.
    + now rewrite IH.
Qed.

(* ================================================================= *)
(** ** Counting in logs *)

Lemma count_app p a b : count p (a ++ b) = (count p a + count p b)%nat.
Proof. unfold count. now rewrite filter_app, List.length_app. Qed.

Lemma count_plain l :
  Forall (fun e => plain e = true) l ->
  count is_put l = 0%nat /\ count is_get_state l = 0%nat /\
  count is_timeout l = 0%nat /\ count is_completed l = 0%nat.
Proof.
  unfold count. induction 1 as [|e l He Hl IH]; simpl; [now repeat split|].
  unfold plain in He. apply negb_true_iff in He.
  repeat (apply orb_false_iff in He as [He ?]).
  destruct IH as (I1 & I2 & I3 & I4).
  rewrite He, H, H0, H1. now repeat split.
Qed.

Lemma quiet_app a b :
  quiet_after_timeout a -> quiet_after_timeout b ->
  ((count is_put a + count is_get_state a)%nat = 0%nat \/ count is_timeout b = 0%nat) ->
  quiet_after_timeout (a ++ b).
Proof.
  induction a as [|e a IH]; simpl; intros Ha Hb Hab; [assumption|].
  destruct Ha as [He Ha]. split.
  - intros Hc. specialize (He Hc). rewrite count_app.
    destruct Hab as [Hab|Hab]; [|lia].
    exfalso. unfold count in Hab. simpl in Hab.
    apply orb_true_iff in Hc as [Hc|Hc]; rewrite Hc in Hab; simpl in Hab; try lia.
  - apply IH; try assumption.
    destruct Hab as [Hab|Hab]; [left|now right].
    unfold count in *. simpl in Hab.
    destruct (is_put e), (is_get_state e); simpl in Hab; lia.
Qed.

Lemma quiet_no_calls l :
  (count is_put l + count is_get_state l)%nat = 0%nat -> quiet_after_timeout l.
Proof.
  induction l as [|e l IH]; simpl; [trivial|]. intros H.
  unfold count in *. simpl in H.
  destruct (is_put e) eqn:E1, (is_get_state e) eqn:E2; simpl in H; try lia.
  split; [discriminate | now apply IH].
Qed.

(* ================================================================= *)
(** ** The calls of the program, one by one *)

Section ProgramFacts.
Context {W : Type} (sdk : SDK W).

Lemma get_element_sw_version_run e st :
  exists v w,
    get_element_sw_version sdk e st = (Ret v, State w (EGetElement e :: log st)).
Proof.
  unfold get_element_sw_version, bind, call.
  destruct (sdk_get_element sdk e (world st)) as [r w].
  destruct (cgx_status r); unfold ret; eauto.
Qed.

Lemma get_images_list_run st :
  exists r w,
    get_images_list sdk st = (r, State w (EGetImages :: log st)) /\ r <> OutOfFuel.
Proof.
  unfold get_images_list, bind, call.
  destruct (sdk_get_element_images sdk (world st)) as [r w].
  destruct (cgx_status r); [destruct (cgx_content r)|]; unfold ret, lift;
    eexists; eexists; split; try reflexivity; discriminate.
Qed.

(** The two cases of [execute_upgrade], by the status of the read. *)
Lemma execute_upgrade_run (element_id : element_ref) (image_id : str)
      (st : state W) :
  let (got, w1) := sdk_get_software_state sdk element_id (world st) in
  let data := dict_set $"image_id" (JStr image_id) (cgx_content got) in
  let (ack, w2) := sdk_put_software_state sdk element_id data w1 in
  execute_upgrade sdk element_id image_id st =
    (if cgx_status got then
       if cgx_status ack then
         (Ret true,
          State w2 (EPutSoftwareState element_id data :: EPrint MsgExecuting
                    :: EGetSoftwareState element_id :: log st))
       else
         (Ret false,
          State w2 (EPrint MsgErrPutState
                    :: EPutSoftwareState element_id data :: EPrint MsgExecuting
                    :: EGetSoftwareState element_id :: log st))
     else
       (Ret false,
        State w1 (EPrint MsgErrGetState :: EGetSoftwareState element_id :: log st))).
Proof.
  destruct (sdk_get_software_state sdk element_id (world st)) as [got w1] eqn:Eg.
  cbv zeta.
  destruct (sdk_put_software_state sdk element_id
              (dict_set $"image_id" (JStr image_id) (cgx_content got)) w1)
    as [ack w2] eqn:Ep.
  unfold execute_upgrade, bind, call, print, ret. rewrite Eg.
  destruct (cgx_status got); cbn [negb world log]; [|reflexivity].
  rewrite Ep. destruct (cgx_status ack); reflexivity.
Qed.

(** What [execute_upgrade] adds to the log. *)
Lemma execute_upgrade_log e id st :
  exists b st' new,
    execute_upgrade sdk e id st = (Ret b, st') /\ log st' = new ++ log st /\
    count is_get_state new = 1%nat /\ (count is_put new <= 1)%nat /\
    (b = true -> count is_put new = 1%nat) /\
    count is_timeout new = 0%nat /\ count is_completed new = 0%nat.
Proof.
  pose proof (execute_upgrade_run e id st) as H.
  destruct (sdk_get_software_state sdk e (world st)) as [got w1].
  cbv zeta in H.
  destruct (sdk_put_software_state sdk e _ w1) as [ack w2].
  rewrite H.
  destruct (cgx_status got); [destruct (cgx_status ack)|];
    eexists; eexists;
    [ eexists [_; _; _] | eexists [_; _; _; _] | eexists [_; _] ];
    (split; [reflexivity|]); (split; [reflexivity|]);
    (repeat split; try reflexivity; try (cbv; lia); try discriminate).
Qed.


(* ----------------------------------------------------------------- *)
(** *** Waiting *)

Lemma polls_succ e mw n st0 v st :
  polls sdk e mw n st0 = (Ret v, st) ->
  polls sdk e mw (S n) st0 =
  get_element_sw_version sdk e
    (State (time_sleep sdk 10 (world st))
           (ESleep 10 :: EPrint (MsgWaiting (mw - 10 * Z.of_nat n)) :: log st)).
Proof.
  intros H. cbn [polls]. unfold bind at 1. rewrite H. reflexivity.
Qed.

Lemma polls_log e mw n st0 :
  exists v st new,
    polls sdk e mw n st0 = (Ret v, st) /\ log st = new ++ log st0 /\
    Forall (fun ev => plain ev = true) new.
Proof.
  induction n as [|n (v & st & new & Hp & Hl & Hn)].
  - cbn [polls]. destruct (get_element_sw_version_run e st0) as (v & w & ->).
    exists v, (State w (EGetElement e :: log st0)), [EGetElement e].
    repeat split. repeat constructor.
  - rewrite (polls_succ _ _ _ _ _ _ Hp).
    destruct (get_element_sw_version_run e
                (State (time_sleep sdk 10 (world st))
                       (ESleep 10 :: EPrint (MsgWaiting (mw - 10 * Z.of_nat n)) :: log st)))
      as (v' & w' & ->).
    eexists; eexists; exists (EGetElement e :: ESleep 10
                              :: EPrint (MsgWaiting (mw - 10 * Z.of_nat n)) :: new).
    split; [reflexivity|]. cbn [log]. rewrite Hl. split; [reflexivity|].
    repeat constructor. assumption.
Qed.

(** The loop, entered after [j] rounds of polling, stops after some [n >= j]
    rounds: at the first read that gives the target or finds the budget
    spent. *)
Lemma wait_loop_polls target e mw0 st0 fuel :
  forall j cur st,
    polls sdk e mw0 j st0 = (Ret cur, st) ->
    (Z.to_nat (mw0 - 10 * Z.of_nat j) <= fuel)%nat ->
    exists n v st_n,
      (j <= n)%nat /\
      polls sdk e mw0 n st0 = (Ret v, st_n) /\
      wait_loop sdk fuel target e (mw0 - 10 * Z.of_nat j) cur st
        = (Ret (mw0 - 10 * Z.of_nat n, v), st_n) /\
      (forall i, (j <= i < n)%nat ->
         exists v_i st_i, polls sdk e mw0 i st0 = (Ret v_i, st_i) /\
                          v_i <> Some target /\ 10 * Z.of_nat i < mw0) /\
      (v = Some target \/ mw0 <= 10 * Z.of_nat n).
Proof.
  induction fuel as [|fuel IH]; intros j cur st Hp Hf.
  - exists j, cur, st. cbn [wait_loop].
    replace (mw0 - 10 * Z.of_nat j >? 0) with false
      by (symmetry; rewrite Z.gtb_ltb; apply Z.ltb_ge; lia).
    rewrite andb_false_r.
    split; [lia|]. split; [assumption|]. split; [reflexivity|].
    split; [intros i Hi; lia | right; lia].
  - cbn [wait_loop].
    destruct (opt_str_eqb cur target) eqn:Eq.
    + exists j, cur, st. cbn [negb andb].
      split; [lia|]. split; [assumption|]. split; [reflexivity|].
      split; [intros i Hi; lia|].
      left. destruct cur as [c|]; [|discriminate].
      simpl in Eq. apply str_eqb_eq in Eq. now subst.
    + destruct (mw0 - 10 * Z.of_nat j >? 0) eqn:Eg.
      * cbn [negb andb].
        pose proof (polls_succ _ _ _ _ _ _ Hp) as Hs.
        destruct (get_element_sw_version_run e
                    (State (time_sleep sdk 10 (world st))
                       (ESleep 10 :: EPrint (MsgWaiting (mw0 - 10 * Z.of_nat j)) :: log st)))
          as (v' & w' & Hv).
        rewrite Hv in Hs.
        apply Z.gtb_lt in Eg.
        destruct (IH (S j) v' _ Hs) as (n & v & st_n & Hjn & Hpn & Hw & Hearlier & Hstop);
          [lia|].
        exists n, v, st_n.
        split; [lia|]. split; [assumption|]. split; [|split; [|assumption]].
        -- unfold bind at 1, print. unfold bind at 1, sleep. cbn [world log].
           unfold sleep_interval. unfold bind at 1. rewrite Hv.
           replace (mw0 - 10 * Z.of_nat j - 10) with (mw0 - 10 * Z.of_nat (S j)) by lia.
           exact Hw.
        -- intros i Hi. destruct (Nat.eq_dec i j) as [->|Hne].
           ++ exists cur, st. split; [assumption|]. split; [|lia].
              intros ->. simpl in Eq. rewrite str_eqb_refl in Eq. discriminate.
           ++ apply Hearlier. lia.
      * exists j, cur, st. cbn [negb andb].
        split; [lia|]. split; [assumption|]. split; [reflexivity|].
        split; [intros i Hi; lia|].
        right. rewrite Z.gtb_ltb in Eg. apply Z.ltb_ge in Eg. lia.
Qed.

(** [wait_for_upgade] is [polls] stopped at the first round [n] whose read
    is the expected version or finds the budget spent. *)
Lemma wait_for_upgade_polls (target : str) (e : element_ref) (max_wait : Z)
      (st : state W) :
  let st0 := State (world st) (EPrint (MsgWaitingUpTo max_wait) :: log st) in
  exists (n : nat) v st_n (b : bool),
    polls sdk e max_wait n st0 = (Ret v, st_n) /\
    (forall i, (i < n)%nat ->
       exists v_i st_i, polls sdk e max_wait i st0 = (Ret v_i, st_i) /\
                        v_i <> Some target /\ 10 * Z.of_nat i < max_wait) /\
    wait_for_upgade sdk target e max_wait st =
      (Ret b,
       State (world st_n)
             (EPrint (if b then MsgChangeCompleted (10 * Z.of_nat n)
                      else MsgSleepExpired) :: log st_n)) /\
    (b = true <-> v = Some target) /\
    (b = false -> max_wait <= 10 * Z.of_nat n).
Proof.
  intros st0.
  destruct (get_element_sw_version_run e st0) as (v0 & w0 & Hv0).
  destruct (wait_loop_polls target e max_wait st0 (Z.to_nat max_wait) 0%nat v0 _ Hv0)
    as (n & v & st_n & _ & Hpn & Hw & Hearlier & Hstop); [simpl; lia|].
  exists n, v, st_n, (opt_str_eqb v target).
  split; [assumption|]. split; [intros i Hi; apply Hearlier; lia|].
  split; [|split].
  - unfold wait_for_upgade. unfold bind at 1, print. fold st0.
    unfold bind at 1. rewrite Hv0.
    replace (max_wait - 10 * Z.of_nat 0) with max_wait in Hw by (simpl; lia).
    unfold bind at 1. rewrite Hw.
    destruct (opt_str_eqb v target); cbn [negb]; unfold bind, print, ret; cbn [world log].
    + replace (max_wait - (max_wait - 10 * Z.of_nat n)) with (10 * Z.of_nat n) by lia.
      reflexivity.
    + reflexivity.
  - destruct v as [c|]; simpl; [|split; discriminate].
    rewrite str_eqb_eq. split; congruence.
  - intros Hb. destruct Hstop as [->|]; [|assumption].
    simpl in Hb. rewrite str_eqb_refl in Hb. discriminate.
Qed.

(** What [wait_for_upgade] adds to the log. *)
Lemma wait_for_upgade_log target e mw st :
  exists (b : bool) st' new,
    wait_for_upgade sdk target e mw st = (Ret b, st') /\ log st' = new ++ log st /\
    count is_put new = 0%nat /\ count is_get_state new = 0%nat /\
    count is_timeout new = (if b then 0 else 1)%nat /\
    count is_completed new = (if b then 1 else 0)%nat /\
    (b = false -> exists new', new = EPrint MsgSleepExpired :: new').
Proof.
  destruct (wait_for_upgade_polls target e mw st) as (n & v & st_n & b & Hp & _ & Hw & _).
  destruct (polls_log e mw n (State (world st) (EPrint (MsgWaitingUpTo mw) :: log st)))
    as (v' & st' & new & Hp' & Hl & Hn).
  rewrite Hp in Hp'. inversion Hp'; subst v' st'. cbn [log] in Hl.
  exists b, (State (world st_n)
               (EPrint (if b then MsgChangeCompleted (10 * Z.of_nat n)
                        else MsgSleepExpired) :: log st_n)),
    (EPrint (if b then MsgChangeCompleted (10 * Z.of_nat n) else MsgSleepExpired)
       :: new ++ [EPrint (MsgWaitingUpTo mw)]).
  split; [assumption|].
  split; [cbn [log]; rewrite Hl, <- app_comm_cons, <- app_assoc; reflexivity|].
  assert (Hpl : Forall (fun ev => plain ev = true) (new ++ [EPrint (MsgWaitingUpTo mw)])).
  { apply Forall_app. split; [assumption | repeat constructor]. }
  destruct (count_plain _ Hpl) as (C1 & C2 & C3 & C4).
  unfold count in *. destruct b; cbn [filter is_put is_get_state is_timeout is_completed];
    cbn [List.length]; rewrite ?C1, ?C2, ?C3, ?C4; repeat split; try discriminate.
  intros _. eexists. reflexivity.
Qed.

(* ----------------------------------------------------------------- *)
(** *** A step of the staged engine *)

Lemma py_int_no_oof s : py_int s <> OutOfFuel.
Proof.
  unfold py_int.
  destruct (match strip_space s with
            | [] => _
            | c :: s' => _
            end) as [negative body].
  destruct (int_literal body); [|discriminate].
  destruct (_ >? _); discriminate.
Qed.

Lemma major_minor_micro_no_oof v : major_minor_micro v <> OutOfFuel.
Proof.
  unfold major_minor_micro, py_int_of_digits.
  destruct (re_search version_regex v) as [[|a [|b [|c [|x l]]]]|]; try discriminate.
  destruct (_ >? _); cbn [rbind]; [discriminate|].
  destruct (_ >? _); cbn [rbind]; [discriminate|].
  destruct (_ >? _); cbn [rbind]; discriminate.
Qed.

Lemma best_by_no_oof better l : forall best kbest,
  best_by better best kbest l <> OutOfFuel.
Proof.
  induction l as [|x l IH]; intros best kbest; cbn [best_by]; [discriminate|].
  pose proof (major_minor_micro_no_oof x) as Hx.
  destruct (major_minor_micro x) as [kx|e|]; cbn [rbind]; try discriminate; try congruence.
  destruct (better kx kbest); apply IH.
Qed.

Lemma py_best_no_oof better l : py_best better l <> OutOfFuel.
Proof.
  destruct l as [|x l]; cbn [py_best]; [discriminate|].
  pose proof (major_minor_micro_no_oof x) as Hx.
  destruct (major_minor_micro x) as [kx|e|]; cbn [rbind]; try discriminate; try congruence.
  apply best_by_no_oof.
Qed.

Lemma scan_path_table_no_oof table cur image_dict : forall acc,
  scan_path_table table cur image_dict acc <> OutOfFuel.
Proof.
  induction table as [|[path hop] table IH]; intros acc; cbn [scan_path_table];
    [discriminate|].
  destruct cur as [c|]; [|discriminate].
  destruct (re_match path c); [|apply IH].
  destruct (get_exact_major_minor_micro hop image_dict) as [v|]; [|discriminate].
  destruct (dict_get v image_dict); [apply IH | discriminate].
Qed.

Lemma gtb_false a b : a <= b -> (a >? b) = false.
Proof. intros H. rewrite Z.gtb_ltb. apply Z.ltb_ge. lia. Qed.

Lemma gtb_true a b : b < a -> (a >? b) = true.
Proof. intros H. rewrite Z.gtb_ltb. apply Z.ltb_lt. lia. Qed.

(** Past the budget: one line is printed and nothing is called. *)
Lemma staged_change_limit d table fuel e mv mw ms step st :
  ms < step + 1 ->
  staged_change sdk d table fuel e mv mw ms step st
  = (Ret (Some false), State (world st) (EPrint MsgMaxSteps :: log st)).
Proof.
  intros H. destruct fuel; cbn [staged_change]; rewrite gtb_true by lia; reflexivity.
Qed.

Ltac plain_end :=
  eexists; eexists; split; [reflexivity|];
  left;
  first [ eexists [_]; split; [reflexivity|]
        | eexists [_; _]; split; [reflexivity|]
        | eexists [_; _; _]; split; [reflexivity|]
        | eexists [_; _; _; _]; split; [reflexivity|] ];
  split; [repeat constructor | first [left; reflexivity | right; eexists; reflexivity]].

(** Within the budget, a step either ends before any software-state call,
    with [False] or an exception, or it prints its step line and goes on
    with [finish_hop]. *)
Lemma staged_change_step d table fuel e mv mw ms step st :
  step + 1 <= ms ->
  exists r st',
    staged_change sdk d table (S fuel) e mv mw ms step st = (r, st') /\
    ((exists pre,
         log st' = pre ++ log st /\ Forall (fun ev => plain ev = true) pre /\
         (r = Ret (Some false) \/ exists x, r = Raise x))
     \/
     (exists pre st1 next id mv',
         log st1 = pre ++ log st /\ Forall (fun ev => plain ev = true) pre /\
         (r, st') = finish_hop sdk e next id mw (step + 1)
                      (staged_change sdk d table fuel e (Some mv') mw ms (step + 1))
                      st1)).
Proof.
  intros Hs. cbn [staged_change]. rewrite gtb_false by lia.
  unfold bind at 1.
  destruct (get_images_list_run st) as (r & w & -> & Hr).
  destruct r as [imgs|x|]; [|plain_end|congruence].
  unfold bind at 1.
  destruct (get_element_sw_version_run e (State w (EGetImages :: log st)))
    as (cur & w1 & ->). cbn [log].
  unfold bind at 1, lift at 1.
  destruct imgs as [image_dict|]; cbn [require_dict]; [|plain_end].
  unfold bind at 1.
  set (pick := match d with
               | Upgrade => py_max (dict_keys image_dict)
               | Downgrade => py_min (dict_keys image_dict)
               end).
  assert (Hpick : pick <> OutOfFuel).
  { subst pick. destruct d; apply py_best_no_oof. }
  assert (Hmv : exists rv,
             (if truthy mv
              then ret (match mv with Some v => v | None => [] end)
              else lift pick)
               (State w1 (EGetElement e :: EGetImages :: log st))
             = (rv, State w1 (EGetElement e :: EGetImages :: log st))
             /\ rv <> OutOfFuel).
  { destruct (truthy mv); unfold ret, lift; eexists; split; try reflexivity;
      [discriminate | assumption]. }
  destruct Hmv as (rv & -> & Hrv).
  destruct rv as [mv'|x|]; [|plain_end|congruence].
  destruct (opt_eqb cur (Some mv') || opt_eqb cur (get_exact_major_minor_micro mv' image_dict)).
  { destruct d; [plain_end|].
    destruct (step + 1 =? 1); plain_end. }
  destruct (negb (truthy (exact_version_loop mv' (dict_keys image_dict) None)));
    [plain_end|].
  unfold bind at 1, lift at 1.
  pose proof (scan_path_table_no_oof table cur image_dict (None, None)) as Hscan.
  destruct (scan_path_table table cur image_dict (None, None)) as [[uv uid]|x|];
    [|plain_end|congruence].
  destruct (truthy uv && truthy uid); [|plain_end].
  unfold bind at 1, print at 1. cbn [world log].
  match goal with
  | |- exists r st', ?X = _ /\ _ => destruct X as [r st'] eqn:E
  end.
  exists r, st'. split; [reflexivity|].
  right.
  eexists [_; _; _], _, _, _, mv'.
  split; [|split].
  3: (symmetry; exact E).
  - reflexivity.
  - repeat constructor.
Qed.

(** The end of a step: the change request, the wait and the recursive
    call, whose value is dropped when it returns. *)
Lemma finish_hop_run e next id mw step (rec : M W (option bool)) st1 :
  exists r st' (b1 : bool) st2 new_x,
    finish_hop sdk e next id mw step rec st1 = (r, st') /\
    execute_upgrade sdk e id st1 = (Ret b1, st2) /\
    log st2 = new_x ++ log st1 /\
    count is_get_state new_x = 1%nat /\ (count is_put new_x <= 1)%nat /\
    count is_timeout new_x = 0%nat /\ count is_completed new_x = 0%nat /\
    ((b1 = false /\ r = Ret (Some false) /\ st' = st2)
     \/
     (b1 = true /\
      exists (b2 : bool) st3 new_w,
        wait_for_upgade sdk next e mw st2 = (Ret b2, st3) /\
        log st3 = new_w ++ log st2 /\
        count is_get_state new_w = 0%nat /\ count is_put new_w = 0%nat /\
        count is_timeout new_w = (if b2 then 0 else 1)%nat /\
        count is_completed new_w = (if b2 then 1 else 0)%nat /\
        ((b2 = false /\ r = Ret (Some false) /\ st' = st3 /\
          exists new', new_w = EPrint MsgSleepExpired :: new')
         \/
         (b2 = true /\
          exists rr st4,
            rec st3 = (rr, st4) /\
            match rr with
            | Ret _ =>
                r = Ret None /\
                exists post, log st' = post ++ log st4 /\
                             Forall (fun ev => plain ev = true) post
            | Raise x => r = Raise x /\ st' = st4
            | OutOfFuel => r = OutOfFuel /\ st' = st4
            end)))).
Proof.
  unfold finish_hop. unfold bind at 1.
  destruct (execute_upgrade_log e id st1)
    as (b1 & st2 & new_x & -> & Hlx & Hx1 & Hx2 & _ & Hx3 & Hx4).
  destruct b1; cbn [negb].
  2:{ eexists; eexists; exists false, st2, new_x.
      split; [reflexivity|]. repeat (split; [first [reflexivity | assumption]|]).
      left. repeat split. }
  unfold bind at 1.
  destruct (wait_for_upgade_log next e mw st2)
    as (b2 & st3 & new_w & Hwait & Hlw & Hw1 & Hw2 & Hw3 & Hw4 & Hw5).
  rewrite Hwait.
  destruct b2; cbn [negb].
  2:{ eexists; eexists; exists true, st2, new_x.
      split; [reflexivity|]. repeat (split; [first [reflexivity | assumption]|]).
      right. split; [reflexivity|]. exists false, st3, new_w.
      repeat (split; [first [reflexivity | assumption]|]).
      left. repeat split. now apply Hw5. }
  unfold bind at 1.
  destruct (rec st3) as [rr st4] eqn:Er.
  destruct rr as [v|x|].
  - unfold bind at 1.
    destruct (get_element_sw_version_run e st4) as (cur & w5 & ->).
    destruct (step =? 1); unfold bind, print, ret; cbn [world log].
    + eexists; eexists; exists true, st2, new_x.
      split; [reflexivity|]. repeat (split; [first [reflexivity | assumption]|]).
      right. split; [reflexivity|]. exists true, st3, new_w.
      repeat (split; [first [reflexivity | assumption]|]).
      right. split; [reflexivity|]. exists (Ret v), st4.
      split; [exact Er|]. split; [reflexivity|].
      eexists [_; _]. split; [reflexivity | repeat constructor].
    + eexists; eexists; exists true, st2, new_x.
      split; [reflexivity|]. repeat (split; [first [reflexivity | assumption]|]).
      right. split; [reflexivity|]. exists true, st3, new_w.
      repeat (split; [first [reflexivity | assumption]|]).
      right. split; [reflexivity|]. exists (Ret v), st4.
      split; [exact Er|]. split; [reflexivity|].
      eexists [_]. split; [reflexivity | repeat constructor].
  - eexists; eexists; exists true, st2, new_x.
    split; [reflexivity|]. repeat (split; [first [reflexivity | assumption]|]).
    right. split; [reflexivity|]. exists true, st3, new_w.
    repeat (split; [first [reflexivity | assumption]|]).
    right. split; [reflexivity|]. exists (Raise x), st4. split; [exact Er | split; reflexivity].
  - eexists; eexists; exists true, st2, new_x.
    split; [reflexivity|]. repeat (split; [first [reflexivity | assumption]|]).
    right. split; [reflexivity|]. exists true, st3, new_w.
    repeat (split; [first [reflexivity | assumption]|]).
    right. split; [reflexivity|]. exists OutOfFuel, st4. split; [exact Er | split; reflexivity].
Qed.

(* ----------------------------------------------------------------- *)
(** *** A whole run of the staged engine *)

(** With fuel for [max_steps - step] nested calls the engine never runs out
    of it. A run makes at most [max_steps - step] calls of [execute_upgrade]
    and no more change requests than that; no software-state call follows a
    timed-out wait; the value is never [True]; it is [None] only after a
    completed wait and [False] only without one. *)
Lemma staged_change_run d table fuel :
  forall e mv mw ms step st,
    (Z.to_nat (ms - step) <= fuel)%nat ->
    exists r st' new,
      staged_change sdk d table fuel e mv mw ms step st = (r, st') /\
      log st' = new ++ log st /\
      r <> OutOfFuel /\
      (count is_get_state new <= Z.to_nat (ms - step))%nat /\
      (count is_put new <= count is_get_state new)%nat /\
      quiet_after_timeout new /\
      r <> Ret (Some true) /\
      (r = Ret None -> (0 < count is_completed new)%nat) /\
      (r = Ret (Some false) -> count is_completed new = 0%nat) /\
      ((0 < count is_timeout new)%nat -> count is_completed new = 0%nat ->
       r = Ret (Some false) /\ exists new', new = EPrint MsgSleepExpired :: new').
Proof.
  induction fuel as [|fuel IH]; intros e mv mw ms step st Hf.
  - rewrite staged_change_limit by lia.
    eexists; eexists; exists [EPrint MsgMaxSteps].
    split; [reflexivity|]. split; [reflexivity|]. cbv [count filter is_get_state is_put
      is_completed is_timeout List.length quiet_after_timeout orb].
    repeat split; try discriminate; try lia.
  - destruct (Z_lt_le_dec ms (step + 1)) as [Hlim|Hlim].
    { rewrite staged_change_limit by lia.
      eexists; eexists; exists [EPrint MsgMaxSteps].
      split; [reflexivity|]. split; [reflexivity|]. cbv [count filter is_get_state is_put
        is_completed is_timeout List.length quiet_after_timeout orb].
      repeat split; try discriminate; try lia. }
    destruct (staged_change_step d table fuel e mv mw ms step st Hlim)
      as (r & st' & -> & [(pre & Hl & Hpre & Hr) | (pre & st1 & next & id & mv' & Hl & Hpre & Hrun)]).
    + exists r, st', pre. destruct (count_plain _ Hpre) as (C1 & C2 & C3 & C4).
      split; [reflexivity|]. split; [assumption|]. rewrite C1, C2, C3, C4.
      split; [destruct Hr as [->|[x ->]]; discriminate|].
      split; [lia|]. split; [lia|].
      split; [apply quiet_no_calls; lia|].
      split; [destruct Hr as [->|[x ->]]; discriminate|].
      split; [destruct Hr as [->|[x ->]]; discriminate|].
      split; [reflexivity | lia].
    + destruct (count_plain _ Hpre) as (C1 & C2 & C3 & C4).
      destruct (finish_hop_run e next id mw (step + 1)
                  (staged_change sdk d table fuel e (Some mv') mw ms (step + 1)) st1)
        as (r0 & st0 & b1 & st2 & new_x & Hfin & _ & Hlx & X1 & X2 & X3 & X4 & Hcases).
      rewrite Hfin in Hrun. inversion Hrun; subst r0 st0; clear Hrun.
      assert (Qx : quiet_after_timeout (new_x ++ pre)).
      { apply quiet_app; [|apply quiet_no_calls; lia|right; assumption].
        clear -X3. induction new_x as [|ev l IHl]; simpl; [trivial|].
        unfold count in X3. simpl in X3.
        destruct (is_timeout ev) eqn:Et; [discriminate|].
        split; [intros _; exact X3 | apply IHl; exact X3]. }
      destruct Hcases as [(_ & -> & ->) | (_ & b2 & st3 & new_w & _ & Hlw & W1 & W2 & W3 & W4 & Hcases)].
      * exists (Ret (Some false)), st2, (new_x ++ pre).
        split; [reflexivity|]. split; [now rewrite Hlx, Hl, app_assoc|].
        rewrite !count_app, C1, C2, C3, C4, X1, X3, X4.
        split; [discriminate|]. split; [lia|]. split; [lia|].
        split; [assumption|]. split; [discriminate|].
        split; [discriminate|]. split; [reflexivity | lia].
      * assert (Qw : quiet_after_timeout (new_w ++ new_x ++ pre)).
        { apply quiet_app; [apply quiet_no_calls; lia | assumption | left; lia]. }
        destruct Hcases as [(-> & -> & -> & new' & Hnew') | (-> & rr & st4 & Hrec & Hrr)];
          cbv iota in W3, W4.
        -- exists (Ret (Some false)), st3, (new_w ++ new_x ++ pre).
           split; [reflexivity|].
           split; [now rewrite Hlw, Hlx, Hl, !app_assoc|].
           rewrite !count_app, C1, C2, C4, X1, X4, W1, W2, W4.
           split; [discriminate|]. split; [lia|]. split; [lia|].
           split; [assumption|]. split; [discriminate|].
           split; [discriminate|]. split; [reflexivity|].
           intros _ _. split; [reflexivity|].
           rewrite Hnew'. eexists. reflexivity.
        -- destruct (IH e (Some mv') mw ms (step + 1) st3)
             as (r1 & st5 & new_r & Hrec' & Hlr & R1 & R2 & R3 & R4 & R5 & R6 & R7); [lia|].
           rewrite Hrec in Hrec'. inversion Hrec'; subst r1 st5; clear Hrec'.
           assert (Qr : quiet_after_timeout (new_r ++ new_w ++ new_x ++ pre)).
           { apply quiet_app; [assumption | assumption | right].
             rewrite !count_app. lia. }
           destruct rr as [v|x|]; [|destruct Hrr as [-> ->]|congruence].
           ++ destruct Hrr as (-> & post & Hlp & Hpost).
              destruct (count_plain _ Hpost) as (P1 & P2 & P3 & P4).
              exists (Ret None), st', (post ++ new_r ++ new_w ++ new_x ++ pre).
              split; [reflexivity|].
              split; [now rewrite Hlp, Hlr, Hlw, Hlx, Hl, !app_assoc|].
              rewrite !count_app, C1, C2, C4, X1, X4, W1, W2, W4, P1, P2, P4.
              split; [discriminate|]. split; [lia|]. split; [lia|].
              split; [apply quiet_app; [apply quiet_no_calls; lia | assumption | left; lia]|].
              split; [discriminate|].
              split; [intros _; lia|]. split; [discriminate | lia].
           ++ exists (Raise x), st4, (new_r ++ new_w ++ new_x ++ pre).
              split; [reflexivity|].
              split; [now rewrite Hlr, Hlw, Hlx, Hl, !app_assoc|].
              rewrite !count_app, C1, C2, C4, X1, X4, W1, W2, W4.
              split; [discriminate|]. split; [lia|]. split; [lia|].
              split; [assumption|]. split; [discriminate|].
              split; [discriminate|]. split; [discriminate | lia].
Qed.

End ProgramFacts.

(* ================================================================= *)
(** ** The change request *)

(** C8. [execute_upgrade] reads the software-state record once. When the
    read fails it prints the error, writes nothing and returns [False].
    Otherwise it writes, once, the record read with ["image_id"] set to the
    image id, every other field looking up as in the record read, and
    returns [False] exactly when that write fails. So the result is [False]
    exactly when the read fails or the write, made after a good read, fails;
    neither call is made a second time. *)
Theorem execute_upgrade_frame {W : Type} (sdk : SDK W)
        (element_id : element_ref) (image_id : str) (st : state W) :
  let (got, w1) := sdk_get_software_state sdk element_id (world st) in
  let data := dict_set $"image_id" (JStr image_id) (cgx_content got) in
  let (ack, w2) := sdk_put_software_state sdk element_id data w1 in
  (dict_get $"image_id" data = Some (JStr image_id) /\
   forall k, k <> $"image_id" -> dict_get k data = dict_get k (cgx_content got)) /\
  execute_upgrade sdk element_id image_id st =
    (if cgx_status got then
       if cgx_status ack then
         (Ret true,
          State w2 (EPutSoftwareState element_id data :: EPrint MsgExecuting
                    :: EGetSoftwareState element_id :: log st))
       else
         (Ret false,
          State w2 (EPrint MsgErrPutState
                    :: EPutSoftwareState element_id data :: EPrint MsgExecuting
                    :: EGetSoftwareState element_id :: log st))
     else
       (Ret false,
        State w1 (EPrint MsgErrGetState :: EGetSoftwareState element_id :: log st))) /\
  exists (b : bool) st' new,
    execute_upgrade sdk element_id image_id st = (Ret b, st') /\
    log st' = new ++ log st /\
    count is_get_state new = 1%nat /\
    count is_put new = (if cgx_status got then 1 else 0)%nat /\
    (b = false <->
     cgx_status got = false \/ (cgx_status got = true /\ cgx_status ack = false)).
Proof.
  pose proof (execute_upgrade_run sdk element_id image_id st) as H.
  destruct (sdk_get_software_state sdk element_id (world st)) as [got w1].
  cbv zeta in H |- *.
  destruct (sdk_put_software_state sdk element_id
              (dict_set $"image_id" (JStr image_id) (cgx_content got)) w1)
    as [ack w2].
  split; [|split; [exact H|]].
  - split; [apply dict_get_set_same | intros k Hk; now apply dict_get_set_other].
  - rewrite H.
    destruct (cgx_status got); [destruct (cgx_status ack)|];
      eexists; eexists;
      [ eexists [_; _; _] | eexists [_; _; _; _] | eexists [_; _] ];
      (split; [reflexivity|]); (split; [reflexivity|]);
      (split; [reflexivity|]); (split; [reflexivity|]);
      split; intros; try discriminate; try (now left); try (right; now split);
      intuition congruence.
Qed.

(* ================================================================= *)
(** ** The step budget *)

(** C4. A run of [staged_upgrade] or [staged_downgrade] from step 0 with
    budget [max_steps] ends (it returns or raises), calls [execute_upgrade]
    at most [max_steps] times and so issues at most [max_steps] change
    requests. A call whose step counter is already at the budget prints the
    limit line and returns [False] without calling anything. With the image
    list [catalog], a device at 4.5.2 and the target 5.2.7 need three hops
    (a budget of 5 makes three change requests); with [max_steps = 2] the
    run makes exactly two and then prints the limit line. *)
Theorem staged_engine_step_budget {W : Type} (sdk : SDK W)
        (element_id : element_ref) (max_version : option str)
        (max_wait max_steps : Z) (st : state W) :
  (forall run,
      run = staged_upgrade sdk element_id max_version max_wait max_steps 0 st \/
      run = staged_downgrade sdk element_id max_version max_wait max_steps 0 st ->
      fst run <> OutOfFuel /\
      exists new,
        log (snd run) = new ++ log st /\
        (count is_get_state new <= Z.to_nat max_steps)%nat /\
        (count is_put new <= Z.to_nat max_steps)%nat) /\
  (forall step,
      max_steps <= step ->
      staged_upgrade sdk element_id max_version max_wait max_steps step st
      = (Ret (Some false), State (world st) (EPrint MsgMaxSteps :: log st)) /\
      staged_downgrade sdk element_id max_version max_wait max_steps step st
      = (Ret (Some false), State (world st) (EPrint MsgMaxSteps :: log st))) /\
  (let run5 := staged_upgrade sim_sdk (Some $"e1") (Some $"5.2.7") 240 5 0
                              (device "4.5.2" catalog) in
   let run2 := staged_upgrade sim_sdk (Some $"e1") (Some $"5.2.7") 240 2 0
                              (device "4.5.2" catalog) in
   count is_put (log (snd run5)) = 3%nat /\
   count is_put (log (snd run2)) = 2%nat /\
   In (EPrint MsgMaxSteps) (log (snd run2)) /\
   sim_version (world (snd run2)) = Some $"5.0.3").
Proof.
  split; [|split].
  - intros run Hrun.
    assert (G : forall d table,
               run = staged_change sdk d table (Z.to_nat (max_steps - 0))
                       element_id max_version max_wait max_steps 0 st ->
               fst run <> OutOfFuel /\
               exists new,
                 log (snd run) = new ++ log st /\
                 (count is_get_state new <= Z.to_nat max_steps)%nat /\
                 (count is_put new <= Z.to_nat max_steps)%nat).
    { intros d table ->.
      destruct (staged_change_run sdk d table (Z.to_nat (max_steps - 0))
                  element_id max_version max_wait max_steps 0 st (Nat.le_refl _))
        as (r & st' & new & -> & Hl & Hr & Hg & Hp & _).
      rewrite Z.sub_0_r in Hg. cbn [fst snd].
      split; [assumption|]. exists new. repeat split; [assumption | lia | lia]. }
    destruct Hrun as [Hrun|Hrun]; eapply G; exact Hrun.
  - intros step Hstep. unfold staged_upgrade, staged_downgrade.
    rewrite !staged_change_limit by lia. split; reflexivity.
  - vm_compute. repeat split. tauto.
Qed.

(* ================================================================= *)
(** ** Waiting for the new version *)

(** C7. [wait_for_upgade] never raises. It reads the version once, then
    again after each sleep of 10 seconds, and stops at round [n], the first
    round whose read is equal, as a string, to the expected version or finds
    [10 * n >= max_wait]: at every earlier round the version read was
    another one and less than [max_wait] seconds had been slept. It returns
    [True] exactly when the last version read is the expected one, and
    [False], after printing the timeout line, otherwise; then the time slept
    has reached the budget. In a run of the staged engine no software-state
    call follows a timed-out wait, and a call whose own wait timed out
    returns [False] with the timeout line as the last thing done. *)
Theorem await_version_exact_or_timeout {W : Type} (sdk : SDK W)
        (target_version : str) (element_id : element_ref) (max_wait : Z)
        (st : state W) :
  (let st0 := State (world st) (EPrint (MsgWaitingUpTo max_wait) :: log st) in
   exists (n : nat) v st_n (b : bool),
     polls sdk element_id max_wait n st0 = (Ret v, st_n) /\
     (forall i, (i < n)%nat ->
        exists v_i st_i,
          polls sdk element_id max_wait i st0 = (Ret v_i, st_i) /\
          v_i <> Some target_version /\ 10 * Z.of_nat i < max_wait) /\
     wait_for_upgade sdk target_version element_id max_wait st =
       (Ret b,
        State (world st_n)
              (EPrint (if b then MsgChangeCompleted (10 * Z.of_nat n)
                       else MsgSleepExpired) :: log st_n)) /\
     (b = true <-> v = Some target_version) /\
     (b = false -> max_wait <= 10 * Z.of_nat n))
  /\
  (forall run max_version max_steps step,
      run = staged_upgrade sdk element_id max_version max_wait max_steps step st \/
      run = staged_downgrade sdk element_id max_version max_wait max_steps step st ->
      exists new,
        log (snd run) = new ++ log st /\
        quiet_after_timeout new /\
        ((0 < count is_timeout new)%nat -> count is_completed new = 0%nat ->
         fst run = Ret (Some false) /\
         exists new', new = EPrint MsgSleepExpired :: new')).
Proof.
  split; [apply wait_for_upgade_polls|].
  intros run max_version max_steps step Hrun.
  assert (G : forall d table,
             run = staged_change sdk d table (Z.to_nat (max_steps - step))
                     element_id max_version max_wait max_steps step st ->
             exists new,
               log (snd run) = new ++ log st /\
               quiet_after_timeout new /\
               ((0 < count is_timeout new)%nat -> count is_completed new = 0%nat ->
                fst run = Ret (Some false) /\
                exists new', new = EPrint MsgSleepExpired :: new')).
  { intros d table ->.
    destruct (staged_change_run sdk d table (Z.to_nat (max_steps - step))
                element_id max_version max_wait max_steps step st (Nat.le_refl _))
      as (r & st' & new & -> & Hl & _ & _ & _ & Hq & _ & _ & _ & Ht).
    exists new. cbn [fst snd]. repeat split; try assumption; now apply Ht. }
  destruct Hrun as [Hrun|Hrun]; eapply G; exact Hrun.
Qed.

(** A device that never finishes the change: three sleeps use up a budget
    of 25 seconds, the step fails and one change request was made. A version
    that only contains the expected one is not a match. *)
Example stuck_device_times_out :
  let stuck := State (Sim (Some $"4.5.2") catalog [] None true true 100) [] in
  let run := staged_upgrade sim_sdk (Some $"e1") (Some $"5.2.7") 25 5 0 stuck in
  fst run = Ret (Some false) /\
  count is_put (log (snd run)) = 1%nat /\
  count (fun e => match e with ESleep 10 => true | _ => false end)
        (log (snd run)) = 3%nat /\
  hd EGetImages (log (snd run)) = EPrint MsgSleepExpired /\
  fst (wait_for_upgade sim_sdk $"5.2.7" (Some $"e1") 20
         (device "5.2.7-b22" catalog)) = Ret false.
Proof. vm_compute. repeat split. Qed.

(* ================================================================= *)
(** ** What the engine returns *)

Section Values.
Context {W : Type} (sdk : SDK W).

Lemma bind_no_oof {A B} (m : M W A) (f : A -> M W B) st :
  fst (m st) <> OutOfFuel ->
  (forall a st', fst (f a st') <> OutOfFuel) ->
  fst (bind m f st) <> OutOfFuel.
Proof.
  intros Hm Hf. unfold bind. destruct (m st) as [[a|x|] st']; cbn [fst] in *;
    [apply Hf | discriminate | congruence].
Qed.

Lemma bind_false_or_none {A} (m : M W A) (f : A -> M W (option bool)) st :
  fst (m st) <> OutOfFuel ->
  (forall a st', false_or_none (fst (f a st'))) ->
  false_or_none (fst (bind m f st)).
Proof.
  intros Hm Hf. unfold bind. destruct (m st) as [[a|x|] st']; cbn [fst] in *;
    [apply Hf | split; discriminate | congruence].
Qed.

Lemma get_images_list_no_oof st : fst (get_images_list sdk st) <> OutOfFuel.
Proof. destruct (get_images_list_run sdk st) as (r & w & -> & Hr). exact Hr. Qed.

Lemma get_element_sw_version_no_oof e st :
  fst (get_element_sw_version sdk e st) <> OutOfFuel.
Proof. destruct (get_element_sw_version_run sdk e st) as (v & w & ->). discriminate. Qed.

Lemma find_ion_by_sn_no_oof serial st :
  fst (find_ion_by_sn sdk serial st) <> OutOfFuel.
Proof.
  unfold find_ion_by_sn, bind, call.
  destruct (sdk_get_elements sdk (world st)) as [r w].
  destruct (negb (cgx_status r)); [discriminate|].
  destruct (cgx_content r) as [l|]; [|discriminate].
  destruct (find_hw_id serial l); discriminate.
Qed.

Lemma is_upgrade_or_downgrade_no_oof e target st :
  fst (is_upgrade_or_downgrade sdk e target st) <> OutOfFuel.
Proof.
  unfold is_upgrade_or_downgrade.
  apply bind_no_oof; [apply get_images_list_no_oof|]. intros image_dict st1.
  apply bind_no_oof; [apply get_element_sw_version_no_oof|]. intros cur st2.
  apply bind_no_oof; [destruct image_dict; discriminate|]. intros d st3.
  apply bind_no_oof.
  { destruct (truthy target); [discriminate | apply py_best_no_oof]. }
  intros tv st4.
  apply bind_no_oof.
  { unfold lift. cbn [fst].
    destruct (get_exact_major_minor_micro tv d); cbn [major_minor_micro_opt];
      [apply major_minor_micro_no_oof | discriminate]. }
  intros t st5.
  apply bind_no_oof.
  { unfold lift. cbn [fst].
    destruct cur; cbn [major_minor_micro_opt];
      [apply major_minor_micro_no_oof | discriminate]. }
  intros c st6.
  destruct (compare_versions c t); discriminate.
Qed.

Lemma staged_change_false_or_none d table e mv mw ms step st :
  false_or_none
    (fst (staged_change sdk d table (Z.to_nat (ms - step)) e mv mw ms step st)).
Proof.
  destruct (staged_change_run sdk d table (Z.to_nat (ms - step)) e mv mw ms step st
              (Nat.le_refl _))
    as (r & st' & new & -> & _ & Hr & _ & _ & _ & Ht & _).
  split; assumption.
Qed.

Lemma go_false_or_none CLIARGS st : false_or_none (fst (go sdk CLIARGS st)).
Proof.
  unfold go.
  apply bind_false_or_none; [apply py_int_no_oof|]. intros ms st0.
  apply bind_false_or_none; [apply py_int_no_oof|]. intros mw st0'.
  apply bind_false_or_none; [apply find_ion_by_sn_no_oof|]. intros eid st1.
  apply bind_false_or_none; [apply is_upgrade_or_downgrade_no_oof|]. intros act st2.
  destruct (negb (truthy act)); [split; discriminate|].
  destruct (_ && _); [split; discriminate|].
  apply bind_false_or_none.
  { destruct (str_eqb (action CLIARGS) $"auto"); discriminate. }
  intros _ st3.
  destruct (negb (truthy eid)); [split; discriminate|].
  destruct (str_eqb _ $"upgrade").
  { apply bind_false_or_none; [apply staged_change_false_or_none|].
    intros; split; discriminate. }
  destruct (str_eqb _ $"downgrade").
  { apply bind_false_or_none; [apply staged_change_false_or_none|].
    intros; split; discriminate. }
  split; discriminate.
Qed.

End Values.

(** Three runs that end in three different ways: the budget is spent
    (limit line), the device is at the target (done line), no path entry
    matches (failure line). *)
Lemma staged_outcomes_same_value :
  let limit := staged_upgrade sim_sdk (Some $"e1") (Some $"5.2.7") 240 0 0
                              (device "4.5.2" catalog) in
  let done := staged_upgrade sim_sdk (Some $"e1") (Some $"5.2.7") 240 5 0
                             (device "5.2.7-b22" catalog) in
  let failed := staged_upgrade sim_sdk (Some $"e1") (Some $"5.2.7") 240 5 0
                               (device "9.9.9" catalog) in
  hd EGetImages (log (snd limit)) = EPrint MsgMaxSteps /\
  hd EGetImages (log (snd done)) = EPrint MsgAtMax /\
  hd EGetImages (log (snd failed)) = EPrint MsgNoNext /\
  fst limit = Ret (Some false) /\
  fst done = Ret (Some false) /\
  fst failed = Ret (Some false).
Proof. vm_compute. repeat split. Qed.

(** The first hop, 4.5.2 to 4.7.1, goes through: one change request, one
    completed wait. At step 2 the image list cannot be read,
    [get_images_list] gives [None] and [image_dict.keys()] raises: the
    top-level call does not return [None], it raises. *)
Lemma staged_upgrade_later_exception :
  let run := staged_upgrade sim_sdk (Some $"e1") (Some $"5.2.7") 240 5 0
                            device_one_listing in
  count is_put (log (snd run)) = 1%nat /\
  count is_completed (log (snd run)) = 1%nat /\
  sim_version (world (snd run)) = Some $"4.7.1" /\
  fst run = Raise AttributeError /\
  fst run <> Ret None.
Proof. vm_compute. repeat split. discriminate. Qed.

(** C10, as the code has it. When the change request and the wait of a step
    succeed and the recursive call returns a value, whatever the value, the
    step returns [None]. Over a run of [staged_upgrade] or
    [staged_downgrade] that returns a value: the value is [None] exactly
    when a wait completed, that is when the first hop went through; a
    [False] of a later step (failure, timeout or spent budget) is not seen
    in it. *)
Theorem staged_later_value_dropped {W : Type} (sdk : SDK W)
        (element_id : element_ref) (max_version : option str)
        (max_wait max_steps step : Z) (st : state W) :
  (forall next id (rec : M W (option bool)) st2 st3 st4 v,
      execute_upgrade sdk element_id id st = (Ret true, st2) ->
      wait_for_upgade sdk next element_id max_wait st2 = (Ret true, st3) ->
      rec st3 = (Ret v, st4) ->
      fst (finish_hop sdk element_id next id max_wait step rec st) = Ret None) /\
  (forall run,
      run = staged_upgrade sdk element_id max_version max_wait max_steps step st \/
      run = staged_downgrade sdk element_id max_version max_wait max_steps step st ->
      exists new,
        log (snd run) = new ++ log st /\
        forall v, fst run = Ret v ->
                  (v = None <-> (0 < count is_completed new)%nat)).
Proof.
  split.
  - intros next id rec st2 st3 st4 v He Hw Hr.
    destruct (finish_hop_run sdk element_id next id max_wait step rec st)
      as (r & st' & b1 & st2' & new_x & -> & He' & _ & _ & _ & _ & _ & Hcases).
    rewrite He in He'. inversion He'; subst b1 st2'; clear He'.
    destruct Hcases as [(Hb & _) | (_ & b2 & st3' & new_w & Hw' & _ & _ & _ & _ & _ & Hcases)];
      [discriminate|].
    rewrite Hw in Hw'. inversion Hw'; subst b2 st3'; clear Hw'.
    destruct Hcases as [(Hb & _) | (_ & rr & st4' & Hr' & Hrr)]; [discriminate|].
    rewrite Hr in Hr'. inversion Hr'; subst rr st4'; clear Hr'.
    cbn [fst]. apply Hrr.
  - intros run Hrun.
    assert (G : forall d table,
               run = staged_change sdk d table (Z.to_nat (max_steps - step))
                       element_id max_version max_wait max_steps step st ->
               exists new,
                 log (snd run) = new ++ log st /\
                 forall v, fst run = Ret v ->
                           (v = None <-> (0 < count is_completed new)%nat)).
    { intros d table ->.
      destruct (staged_change_run sdk d table (Z.to_nat (max_steps - step))
                  element_id max_version max_wait max_steps step st (Nat.le_refl _))
        as (r & st' & new & -> & Hl & _ & _ & _ & _ & Ht & Hn & Hf & _).
      exists new. cbn [fst snd]. split; [assumption|].
      intros v ->. split.
      - intros ->. now apply Hn.
      - intros Hc. destruct v as [[|]|]; [congruence| |reflexivity].
        specialize (Hf eq_refl). lia. }
    destruct Hrun as [Hrun|Hrun]; eapply G; exact Hrun.
Qed.

(* ================================================================= *)
(** ** The direction *)

Lemma str_ltb_irrefl s : str_ltb s s = false.
Proof.
  induction s as [|x s IH]; simpl; [reflexivity|].
  rewrite Nat.ltb_irrefl, Ascii.eqb_refl, IH. reflexivity.
Qed.

(** With equal majors and minors the comparison gives no direction, whatever
    the micros are: the last two tests compare the minors again. *)
Lemma compare_versions_same_minor major minor micro1 micro2 :
  compare_versions (major, minor, micro1) (major, minor, micro2) = None.
Proof.
  unfold compare_versions.
  rewrite !Z.ltb_irrefl, !gtb_false by lia.
  now rewrite str_ltb_irrefl.
Qed.

(** C1, on the code. A device at 5.2.3 and the target 5.2.7, resolved to
    the image 5.2.7-b22: the versions parse to (5, 2, 3) and (5, 2, 7), the
    micro comparison should give "upgrade", and [is_upgrade_or_downgrade]
    prints that the versions are the same and returns [None]. The same for a
    device at 5.2.9, where "downgrade" is expected. Versions that differ in
    major or minor are decided as expected. *)
Theorem is_upgrade_or_downgrade_skips_micro :
  let images := [img "5.2.7-b22"; img "4.5.3"] in
  let decide current :=
    is_upgrade_or_downgrade sim_sdk (Some $"e1") (Some $"5.2.7")
                            (device current images) in
  major_minor_micro $"5.2.3" = Ret (5, 2, 3) /\
  major_minor_micro $"5.2.7-b22" = Ret (5, 2, 7) /\
  fst (decide "5.2.3"%string) = Ret None /\
  hd EGetImages (log (snd (decide "5.2.3"%string))) = EPrint MsgSameVersion /\
  fst (decide "5.2.9"%string) = Ret None /\
  fst (decide "4.5.9"%string) = Ret (Some $"upgrade") /\
  fst (decide "5.4.1"%string) = Ret (Some $"downgrade") /\
  fst (decide "5.2.7-b22"%string) = Ret None.
Proof. vm_compute. repeat split. Qed.

(* ================================================================= *)
(** ** A hop that is not in the image list *)

(** A matching entry whose hop no key of the image list contains: the scan
    raises, whatever was found before. *)
Lemma scan_path_table_unresolved path hop table cur image_dict acc :
  re_match path cur <> None ->
  get_exact_major_minor_micro hop image_dict = None ->
  scan_path_table ((path, hop) :: table) (Some cur) image_dict acc = Raise KeyError.
Proof.
  intros Hm Hg. cbn [scan_path_table].
  destruct (re_match path cur); [|congruence]. now rewrite Hg.
Qed.

(** C3, on the code. A device at 4.5.2 matches the entry ['4\.5\..*'],
    whose hop 4.7.1 is in no key of an image list that only has 5.2.7-b22:
    [staged_upgrade] raises [KeyError] at [image_dict[upgrade_version]]
    in place of printing the no-next-version line and returning [False].
    The same for [staged_downgrade] from 5.4.1 with only 4.5.3 in the list.
    When no entry matches (a device at 9.9.9) the line is printed and
    [False] is returned. *)
Theorem staged_unresolved_hop_raises :
  let up current images :=
    staged_upgrade sim_sdk (Some $"e1") (Some $"5.2.7") 240 5 0
                   (device current images) in
  let down current images :=
    staged_downgrade sim_sdk (Some $"e1") (Some $"4.5.3") 240 5 0
                     (device current images) in
  first_match_hop upgrade_path_regex $"4.5.2" = Some $"4.7.1" /\
  get_exact_major_minor_micro $"4.7.1" (images_to_dict [img "5.2.7-b22"] []) = None /\
  fst (up "4.5.2"%string [img "5.2.7-b22"]) = Raise KeyError /\
  count is_put (log (snd (up "4.5.2"%string [img "5.2.7-b22"]))) = 0%nat /\
  fst (down "5.4.1"%string [img "4.5.3"]) = Raise KeyError /\
  fst (up "9.9.9"%string [img "5.2.7-b22"]) = Ret (Some false) /\
  hd EGetImages (log (snd (up "9.9.9"%string [img "5.2.7-b22"]))) = EPrint MsgNoNext.
Proof. vm_compute. repeat split. Qed.

(* ================================================================= *)
(** ** Catalog resolution *)

Lemma startswith_spec p s :
  startswith p s = true <-> exists post, s = p ++ post.
Proof.
  revert s. induction p as [|a p IH]; intros s; simpl.
  - split; [intros _; now exists s | reflexivity].
  - destruct s as [|b s].
    + split; [discriminate | intros [post H]; discriminate].
    + rewrite andb_true_iff, Ascii.eqb_eq, IH. split.
      * intros [-> [post ->]]. now exists post.
      * intros [post H]. inversion H; subst. split; [reflexivity | now exists post].
Qed.

(** [str_in p s] holds exactly when [p] occurs in [s]. *)
Lemma str_in_spec p s :
  str_in p s = true <-> exists pre post, s = pre ++ p ++ post.
Proof.
  induction s as [|b s IH]; cbn [str_in]; rewrite orb_true_iff, startswith_spec.
  - split.
    + intros [[post H]|H]; [|discriminate]. now exists [], post.
    + intros (pre & post & H). left.
      destruct pre; [now exists post | discriminate].
  - rewrite IH. split.
    + intros [[post H]|(pre & post & H)].
      * now exists [], post.
      * exists (b :: pre), post. simpl. now rewrite H.
    + intros (pre & post & H). destruct pre as [|c pre].
      * left. now exists post.
      * right. inversion H; subst. now exists pre, post.
Qed.

Lemma get_exact_in_app v a b :
  get_exact_in v (a ++ b) =
  match get_exact_in v a with
  | Some k => Some k
  | None => get_exact_in v b
  end.
Proof.
  induction a as [|x a IH]; simpl; [reflexivity|].
  destruct (str_in v x); [reflexivity | exact IH].
Qed.

Lemma get_exact_in_some v keys k :
  get_exact_in v keys = Some k <->
  exists pre post,
    keys = pre ++ k :: post /\ str_in v k = true /\
    forall x, In x pre -> str_in v x = false.
Proof.
  induction keys as [|y keys IH]; simpl.
  - split; [discriminate|]. intros (pre & post & H & _). destruct pre; discriminate.
  - destruct (str_in v y) eqn:E.
    + split.
      * intros H. inversion H; subst. exists [], keys. repeat split; [assumption|].
        intros x [].
      * intros (pre & post & H & Hk & Hpre). destruct pre as [|z pre].
        -- inversion H; subst. reflexivity.
        -- inversion H; subst. rewrite (Hpre z) in E by now left. discriminate.
    + rewrite IH. split.
      * intros (pre & post & -> & Hk & Hpre). exists (y :: pre), post.
        repeat split; [assumption|]. intros x [<-|Hx]; [assumption | now apply Hpre].
      * intros (pre & post & H & Hk & Hpre). destruct pre as [|z pre].
        -- inversion H; subst. congruence.
        -- inversion H; subst. exists pre, post. repeat split; [assumption|].
           intros x Hx. apply Hpre. now right.
Qed.

Lemma get_exact_in_none v keys :
  get_exact_in v keys = None <-> forall x, In x keys -> str_in v x = false.
Proof.
  induction keys as [|y keys IH]; simpl.
  - split; [intros _ x [] | reflexivity].
  - destruct (str_in v y) eqn:E.
    + split; [discriminate|]. intros H. rewrite (H y) in E by now left. discriminate.
    + rewrite IH. split.
      * intros H x [<-|Hx]; [assumption | now apply H].
      * intros H x Hx. apply H. now right.
Qed.

(** The loop without [break] keeps the last containing key: the first one
    of the keys read backwards. *)
Lemma exact_version_loop_rev v keys : forall acc,
  exact_version_loop v keys acc =
  match get_exact_in v (List.rev keys) with
  | Some k => Some k
  | None => acc
  end.
Proof.
  induction keys as [|x keys IH]; intros acc; cbn [exact_version_loop List.rev];
    [reflexivity|].
  rewrite IH, get_exact_in_app. destruct (get_exact_in v (List.rev keys)); [reflexivity|].
  simpl. destruct (str_in v x); reflexivity.
Qed.

(* ----------------------------------------------------------------- *)
(** *** [max] and [min] by version *)

Lemma tuple_ltb_lt a1 a2 a3 b1 b2 b3 :
  tuple_ltb (a1, a2, a3) (b1, b2, b3) = true <->
  a1 < b1 \/ (a1 = b1 /\ (a2 < b2 \/ (a2 = b2 /\ a3 < b3))).
Proof.
  unfold tuple_ltb.
  rewrite !orb_true_iff, !andb_true_iff, !orb_true_iff, !andb_true_iff,
    !Z.ltb_lt, !Z.eqb_eq. tauto.
Qed.

Lemma tuple_ltb_ge a1 a2 a3 b1 b2 b3 :
  tuple_ltb (a1, a2, a3) (b1, b2, b3) = false <->
  b1 < a1 \/ (a1 = b1 /\ (b2 < a2 \/ (a2 = b2 /\ b3 <= a3))).
Proof.
  rewrite <- not_true_iff_false, tuple_ltb_lt. lia.
Qed.

Lemma tuple_ltb_trans a b c :
  tuple_ltb a b = true -> tuple_ltb b c = true -> tuple_ltb a c = true.
Proof.
  destruct a as [[a1 a2] a3], b as [[b1 b2] b3], c as [[c1 c2] c3].
  rewrite !tuple_ltb_lt. lia.
Qed.

Lemma tuple_ltb_le_lt a b c :
  tuple_ltb b a = false -> tuple_ltb b c = true -> tuple_ltb a c = true.
Proof.
  destruct a as [[a1 a2] a3], b as [[b1 b2] b3], c as [[c1 c2] c3].
  rewrite tuple_ltb_ge, !tuple_ltb_lt. lia.
Qed.

Lemma tuple_ltb_lt_le a b c :
  tuple_ltb a b = true -> tuple_ltb c b = false -> tuple_ltb a c = true.
Proof.
  destruct a as [[a1 a2] a3], b as [[b1 b2] b3], c as [[c1 c2] c3].
  rewrite tuple_ltb_ge, !tuple_ltb_lt. lia.
Qed.

Section Best.
Variable better : Z * Z * Z -> Z * Z * Z -> bool.
Hypothesis better_trans :
  forall a b c, better a b = true -> better b c = true -> better a c = true.
Hypothesis better_weak :
  forall a b c, better a b = false -> better c b = true -> better c a = true.

Lemma best_by_spec l : forall best kbest k,
  best_by better best kbest l = Ret k ->
  (k = best /\
   forall x, In x l -> exists tx, major_minor_micro x = Ret tx /\ better tx kbest = false)
  \/
  (exists pre post top,
      l = pre ++ k :: post /\ major_minor_micro k = Ret top /\
      better top kbest = true /\
      (forall x, In x pre ->
         exists tx, major_minor_micro x = Ret tx /\ better top tx = true) /\
      (forall x, In x post ->
         exists tx, major_minor_micro x = Ret tx /\ better tx top = false)).
Proof.
  induction l as [|x l IH]; intros best kbest k; cbn [best_by].
  - intros H. inversion H; subst. left. split; [reflexivity | intros x []].
  - destruct (major_minor_micro x) as [kx|e|] eqn:Ex; cbn [rbind]; try discriminate.
    destruct (better kx kbest) eqn:Eb; intros H; apply IH in H.
    + right. destruct H as [[-> Hl] | (pre & post & top & -> & Hk & Hb & Hpre & Hpost)].
      * exists [], l, kx. repeat split; try assumption. intros y [].
      * exists (x :: pre), post, top. repeat split; try assumption.
        -- now apply (better_trans _ kx).
        -- intros y [<-|Hy]; [exists kx; now split | now apply Hpre].
    + destruct H as [[-> Hl] | (pre & post & top & -> & Hk & Hb & Hpre & Hpost)].
      * left. split; [reflexivity|].
        intros y [<-|Hy]; [exists kx; now split | now apply Hl].
      * right. exists (x :: pre), post, top. repeat split; try assumption.
        intros y [<-|Hy]; [|now apply Hpre].
        exists kx. split; [assumption|]. now apply (better_weak _ kbest).
Qed.

Lemma py_best_spec l k :
  py_best better l = Ret k ->
  exists pre post top,
    l = pre ++ k :: post /\ major_minor_micro k = Ret top /\
    (forall x, In x pre ->
       exists tx, major_minor_micro x = Ret tx /\ better top tx = true) /\
    (forall x, In x post ->
       exists tx, major_minor_micro x = Ret tx /\ better tx top = false).
Proof.
  destruct l as [|x l]; cbn [py_best]; [discriminate|].
  destruct (major_minor_micro x) as [kx|e|] eqn:Ex; cbn [rbind]; try discriminate.
  intros H. apply best_by_spec in H.
  destruct H as [[-> Hl] | (pre & post & top & -> & Hk & Hb & Hpre & Hpost)].
  - exists [], l, kx. repeat split; try assumption. intros y [].
  - exists (x :: pre), post, top. repeat split; try assumption.
    intros y [<-|Hy]; [exists kx; now split | now apply Hpre].
Qed.

Lemma best_by_total l : forall best kbest,
  (forall x, In x l -> exists tx, major_minor_micro x = Ret tx) ->
  exists k, best_by better best kbest l = Ret k.
Proof.
  induction l as [|x l IH]; intros best kbest Hl; cbn [best_by]; [eauto|].
  destruct (Hl x (or_introl eq_refl)) as [tx ->]. cbn [rbind].
  destruct (better tx kbest); apply IH; intros y Hy; apply Hl; now right.
Qed.

Lemma py_best_total l :
  l <> [] -> (forall x, In x l -> exists tx, major_minor_micro x = Ret tx) ->
  exists k, py_best better l = Ret k.
Proof.
  destruct l as [|x l]; [congruence|]. intros _ Hl. cbn [py_best].
  destruct (Hl x (or_introl eq_refl)) as [tx ->]. cbn [rbind].
  apply best_by_total. intros y Hy. apply Hl. now right.
Qed.

End Best.

(** Two builds of 5.2.7 in the image list: the function takes the first
    key that contains the target, the loop of the engine ends on the last.
    And an image list where the key of the highest version is contained in
    an earlier key of a lower version: for an absent target the engine takes
    [max] of the keys, 15.2.7, and resolves it to that earlier key, whose
    version (4, 15, 2) is not the highest. *)
Lemma resolve_exact_not_first_not_max :
  (let keys := [$"5.2.7-b22"; $"5.2.7-b30"] in
   get_exact_in $"5.2.7" keys = Some $"5.2.7-b22" /\
   exact_version_loop $"5.2.7" keys None = Some $"5.2.7-b30") /\
  (let keys := [$"4.15.2.7"; $"15.2.7"] in
   py_max keys = Ret $"15.2.7" /\
   get_exact_in $"15.2.7" keys = Some $"4.15.2.7" /\
   major_minor_micro $"4.15.2.7" = Ret (4, 15, 2) /\
   major_minor_micro $"15.2.7" = Ret (15, 2, 7)).
Proof. vm_compute. repeat split. Qed.

(** The facts on the catalog resolution. [get_exact_major_minor_micro]
    returns the first key, in the order of the dict, that contains the
    version as a substring, and [None] when no key contains it. The loop of
    the engine over the keys ends on the last such key. [max] and [min] of
    the keys by version are the first key of highest (lowest) version, and
    exist when the list is not empty and every key parses. *)
Lemma catalog_resolution_facts (version : str) (image_dict : dict image)
        (keys : list str) :
  (forall k,
      get_exact_major_minor_micro version image_dict = Some k <->
      exists pre post,
        dict_keys image_dict = pre ++ k :: post /\ str_in version k = true /\
        forall x, In x pre -> str_in version x = false) /\
  (get_exact_major_minor_micro version image_dict = None <->
   forall x, In x (dict_keys image_dict) -> str_in version x = false) /\
  (forall k, str_in version k = true <-> exists pre post, k = pre ++ version ++ post) /\
  exact_version_loop version keys None = get_exact_in version (List.rev keys) /\
  (forall k, py_max keys = Ret k -> first_with keys k version_lt version_le) /\
  (forall k, py_min keys = Ret k ->
             first_with keys k (fun tx top => version_lt top tx)
                        (fun tx top => version_le top tx)) /\
  (keys <> [] ->
   (forall x, In x keys -> exists tx, major_minor_micro x = Ret tx) ->
   exists kmax kmin, py_max keys = Ret kmax /\ py_min keys = Ret kmin) /\
  get_exact_in $"5.2.7" [$"5.2.7-b22"; $"4.5.3"] = Some $"5.2.7-b22".
Proof.
  split; [intros k; apply get_exact_in_some|].
  split; [apply get_exact_in_none|].
  split; [intros k; apply str_in_spec|].
  split; [rewrite exact_version_loop_rev; now destruct (get_exact_in _ _)|].
  split.
  { intros k H. apply py_best_spec in H; [exact H| |].
    - intros a b c Hab Hbc. exact (tuple_ltb_trans c b a Hbc Hab).
    - intros a b c Hab Hcb. exact (tuple_ltb_le_lt a b c Hab Hcb). }
  split.
  { intros k H. apply py_best_spec in H; [exact H| |].
    - intros a b c Hab Hbc. exact (tuple_ltb_trans a b c Hab Hbc).
    - intros a b c Hab Hcb. exact (tuple_ltb_lt_le c b a Hcb Hab). }
  split; [|reflexivity].
  intros Hne Hall.
  destruct (py_best_total (fun a b => tuple_ltb b a) keys Hne Hall) as [kmax Hmax].
  destruct (py_best_total (fun a b => tuple_ltb a b) keys Hne Hall) as [kmin Hmin].
  exists kmax, kmin. split; assumption.
Qed.

(* ================================================================= *)
(** ** The path scan *)

Lemma first_match_hop_app a b cur :
  first_match_hop (a ++ b) cur =
  match first_match_hop a cur with
  | Some hop => Some hop
  | None => first_match_hop b cur
  end.
Proof.
  induction a as [|[p h] a IH]; simpl; [reflexivity|].
  destruct (re_match p cur); [reflexivity | exact IH].
Qed.

Lemma get_exact_in_is_key v keys k : get_exact_in v keys = Some k -> In k keys.
Proof.
  intros H. apply get_exact_in_some in H as (pre & post & -> & _).
  apply in_or_app. right. now left.
Qed.

Lemma dict_get_key {V} k (d : dict V) :
  In k (dict_keys d) -> exists v, dict_get k d = Some v.
Proof.
  induction d as [|[k' v'] d IH]; simpl; [intros []|].
  destruct (str_eqb k' k) eqn:E; [eauto|].
  intros [H|H]; [|now apply IH].
  apply str_eqb_neq in E. congruence.
Qed.

(** The scan, when it returns, holds the resolved hop of the last matching
    entry, or what it started with when no entry matches. *)
Lemma scan_path_table_rev table cur image_dict : forall acc res,
  scan_path_table table (Some cur) image_dict acc = Ret res ->
  res = match last_match_hop table cur with
        | Some hop => resolve_hop hop image_dict
        | None => acc
        end
  /\ (forall hop, last_match_hop table cur = Some hop ->
                  get_exact_major_minor_micro hop image_dict <> None).
Proof.
  unfold last_match_hop.
  induction table as [|[p h] table IH]; intros acc res; cbn [scan_path_table List.rev].
  - intros H. inversion H; subst. split; [reflexivity | discriminate].
  - rewrite first_match_hop_app. cbn [first_match_hop].
    destruct (re_match p cur) as [g|] eqn:Em.
    + destruct (get_exact_major_minor_micro h image_dict) as [v|] eqn:Eg; [|discriminate].
      destruct (dict_get v image_dict) as [im|] eqn:Ed; [|discriminate].
      intros H. apply IH in H as [-> Hres].
      destruct (first_match_hop (List.rev table) cur) as [hop|].
      * split; [reflexivity | assumption].
      * split.
        -- unfold resolve_hop. now rewrite Eg, Ed.
        -- intros hop Hhop. inversion Hhop; subst. congruence.
    + intros H. apply IH in H as [-> Hres].
      destruct (first_match_hop (List.rev table) cur) as [hop|].
      * split; [reflexivity | assumption].
      * split; [reflexivity | discriminate].
Qed.

Lemma scan_path_table_total table cur image_dict : forall acc,
  (forall path hop, In (path, hop) table -> re_match path cur <> None ->
                    get_exact_major_minor_micro hop image_dict <> None) ->
  exists res, scan_path_table table (Some cur) image_dict acc = Ret res.
Proof.
  induction table as [|[p h] table IH]; intros acc Hall; cbn [scan_path_table]; [eauto|].
  assert (Hrest : forall path hop, In (path, hop) table -> re_match path cur <> None ->
                                   get_exact_major_minor_micro hop image_dict <> None).
  { intros path hop Hin. apply Hall. now right. }
  destruct (re_match p cur) as [g|] eqn:Em; [|now apply IH].
  specialize (Hall p h (or_introl eq_refl)). rewrite Em in Hall.
  destruct (get_exact_major_minor_micro h image_dict) as [v|] eqn:Eg;
    [|exfalso; apply Hall; [discriminate | reflexivity]].
  destruct (dict_get_key v image_dict (get_exact_in_is_key _ _ _ Eg)) as [im ->].
  now apply IH.
Qed.

(* ----------------------------------------------------------------- *)
(** *** The two tables of the program *)

Lemma greedy_any_some {R} (r : R) s : greedy CAny (fun _ => Some r) s = Some r.
Proof. rewrite greedy_accept; [reflexivity | discriminate]. Qed.

(** ['M\.N\..*'] matches the versions that start with [M.N.] *)
Lemma re_match_path_regex major minor cur :
  re_match (path_regex major minor) cur =
  if startswith [major; "."%char; minor; "."%char] cur then Some [] else None.
Proof.
  unfold re_match, path_regex, lit. cbn [m_nodes m_atoms cls_match startswith].
  destruct cur as [|c1 cur]; [reflexivity|].
  destruct (Ascii.eqb major c1); [|reflexivity]. cbn [andb].
  destruct cur as [|c2 cur]; [reflexivity|].
  destruct (Ascii.eqb "." c2); [|reflexivity]. cbn [andb].
  destruct cur as [|c3 cur]; [reflexivity|].
  destruct (Ascii.eqb minor c3); [|reflexivity]. cbn [andb].
  destruct cur as [|c4 cur]; [reflexivity|].
  destruct (Ascii.eqb "." c4); [|reflexivity]. cbn [andb].
  apply greedy_any_some.
Qed.

Lemma startswith_same_length p q s :
  List.length p = List.length q ->
  startswith p s = true -> startswith q s = true -> p = q.
Proof.
  intros L Hp Hq. apply startswith_spec in Hp as [post1 H1], Hq as [post2 H2].
  rewrite H1 in H2. now destruct (app_same_length_inv _ _ _ _ H2 L).
Qed.

Ltac two_prefixes :=
  match goal with
  | H1 : startswith ?p ?s = true, H2 : startswith ?q ?s = true |- _ =>
      let E := fresh in
      assert (E : p = q) by (apply (startswith_same_length p q s); [reflexivity | exact H1 | exact H2]);
      discriminate E
  end.

(** No two patterns of [upgrade_path_regex], nor of [downgrade_path_regex],
    match the same version: the first matching entry is the last one. *)
Lemma program_tables_one_match cur :
  first_match_hop upgrade_path_regex cur = last_match_hop upgrade_path_regex cur /\
  first_match_hop downgrade_path_regex cur = last_match_hop downgrade_path_regex cur.
Proof.
  unfold last_match_hop, upgrade_path_regex, downgrade_path_regex.
  cbv [List.rev Datatypes.app]. cbn [first_match_hop].
  rewrite !re_match_path_regex.
  destruct (startswith ["4"; "."; "5"; "."]%char cur) eqn:E45;
  destruct (startswith ["4"; "."; "7"; "."]%char cur) eqn:E47;
  destruct (startswith ["5"; "."; "0"; "."]%char cur) eqn:E50;
  destruct (startswith ["5"; "."; "1"; "."]%char cur) eqn:E51;
  destruct (startswith ["5"; "."; "2"; "."]%char cur) eqn:E52;
  destruct (startswith ["5"; "."; "4"; "."]%char cur) eqn:E54;
  try two_prefixes; split; reflexivity.
Qed.

Lemma first_match_hop_some table cur hop :
  first_match_hop table cur = Some hop <->
  exists pre path post,
    table = pre ++ (path, hop) :: post /\ re_match path cur <> None /\
    forall p h, In (p, h) pre -> re_match p cur = None.
Proof.
  induction table as [|[p0 h0] table IH]; cbn [first_match_hop].
  - split; [discriminate|]. intros (pre & path & post & H & _). destruct pre; discriminate.
  - destruct (re_match p0 cur) as [g|] eqn:E.
    + split.
      * intros H. inversion H; subst. exists [], p0, table.
        repeat split; [congruence|]. intros p h [].
      * intros (pre & path & post & H & Hm & Hpre). destruct pre as [|[p1 h1] pre].
        -- inversion H; subst. reflexivity.
        -- inversion H; subst. rewrite (Hpre p1 h1) in E by now left. discriminate.
    + rewrite IH. split.
      * intros (pre & path & post & -> & Hm & Hpre).
        exists ((p0, h0) :: pre), path, post. repeat split; [assumption|].
        intros p h [Hin|Hin]; [inversion Hin; subst; assumption | now apply (Hpre p h)].
      * intros (pre & path & post & H & Hm & Hpre). destruct pre as [|[p1 h1] pre].
        -- inversion H; subst. congruence.
        -- inversion H; subst. exists pre, path, post. repeat split; [assumption|].
           intros p h Hin. apply (Hpre p h). now right.
Qed.

Lemma first_match_hop_none table cur :
  first_match_hop table cur = None <->
  forall p h, In (p, h) table -> re_match p cur = None.
Proof.
  induction table as [|[p0 h0] table IH]; cbn [first_match_hop].
  - split; [intros _ p h [] | reflexivity].
  - destruct (re_match p0 cur) as [g|] eqn:E.
    + split; [discriminate|]. intros H. rewrite (H p0 h0) in E by now left. discriminate.
    + rewrite IH. split.
      * intros H p h [Hin|Hin]; [inversion Hin; subst; assumption | now apply (H p h)].
      * intros H p h Hin. apply (H p h). now right.
Qed.

(** [last_match_hop] is the hop of the entry after which no entry matches. *)
Lemma last_match_hop_some table cur hop :
  last_match_hop table cur = Some hop <->
  exists pre path post,
    table = pre ++ (path, hop) :: post /\ re_match path cur <> None /\
    forall p h, In (p, h) post -> re_match p cur = None.
Proof.
  unfold last_match_hop. rewrite first_match_hop_some. split.
  - intros (pre & path & post & H & Hm & Hpre).
    exists (List.rev post), path, (List.rev pre).
    split; [|split; [assumption|]].
    + rewrite <- (rev_involutive table), H, rev_app_distr. cbn [List.rev].
      now rewrite <- app_assoc.
    + intros p h Hin. apply (Hpre p h). now apply in_rev.
  - intros (pre & path & post & H & Hm & Hpost).
    exists (List.rev post), path, (List.rev pre).
    split; [|split; [assumption|]].
    + rewrite H, rev_app_distr. cbn [List.rev]. now rewrite <- app_assoc.
    + intros p h Hin. apply (Hpost p h). now apply in_rev.
Qed.

(** A table with two patterns that match 4.5.2: the first matching entry
    says 4.7.1, the scan ends on the hop of the second one, 5.0.3, and that
    is the image the engine installs. *)
Lemma scan_path_table_second_entry_used :
  let image_dict := images_to_dict catalog [] in
  let run := staged_change sim_sdk Upgrade overlapping_table 1 (Some $"e1")
                           (Some $"5.2.7") 240 1 0 (device "4.5.2" catalog) in
  first_match_hop overlapping_table $"4.5.2" = Some $"4.7.1" /\
  last_match_hop overlapping_table $"4.5.2" = Some $"5.0.3" /\
  scan_path_table overlapping_table (Some $"4.5.2") image_dict (None, None)
  = Ret (Some $"5.0.3", Some $"id-5.0.3") /\
  scan_path_table overlapping_table (Some $"4.5.2") image_dict (None, None)
  <> Ret (resolve_hop $"4.7.1" image_dict) /\
  sim_version (world (snd run)) = Some $"5.0.3".
Proof. vm_compute. repeat split. discriminate. Qed.

(** C2, as the code has it. The scan of a path table has no [break]: when it
    returns, it holds the hop of the LAST entry whose pattern matches the
    current version, resolved against the image list, and nothing when no
    entry matches. It returns when the hop of every matching entry is
    contained in some key of the image list. In the two tables of the
    program no two patterns match the same version, so there the last
    matching entry is also the first. *)
Theorem path_scan_last_match (table : path_table) (cur : str)
        (image_dict : dict image) :
  (forall uv uid,
      scan_path_table table (Some cur) image_dict (None, None) = Ret (uv, uid) ->
      match last_match_hop table cur with
      | Some hop => (uv, uid) = resolve_hop hop image_dict /\ uv <> None
      | None => uv = None /\ uid = None
      end) /\
  ((forall path hop, In (path, hop) table -> re_match path cur <> None ->
                     get_exact_major_minor_micro hop image_dict <> None) ->
   exists uv uid,
     scan_path_table table (Some cur) image_dict (None, None) = Ret (uv, uid)) /\
  (forall hop,
      last_match_hop table cur = Some hop <->
      exists pre path post,
        table = pre ++ (path, hop) :: post /\ re_match path cur <> None /\
        forall p h, In (p, h) post -> re_match p cur = None) /\
  (last_match_hop table cur = None <->
   forall p h, In (p, h) table -> re_match p cur = None) /\
  first_match_hop upgrade_path_regex cur = last_match_hop upgrade_path_regex cur /\
  first_match_hop downgrade_path_regex cur = last_match_hop downgrade_path_regex cur.
Proof.
  split; [|split; [|split; [|split]]].
  - intros uv uid H. apply scan_path_table_rev in H as [H Hres].
    destruct (last_match_hop table cur) as [hop|].
    + split; [assumption|]. specialize (Hres hop eq_refl).
      unfold resolve_hop in H.
      destruct (get_exact_major_minor_micro hop image_dict); [|congruence].
      inversion H; subst. discriminate.
    + inversion H; subst. split; reflexivity.
  - intros Hall. destruct (scan_path_table_total table cur image_dict (None, None) Hall)
      as [[uv uid] H]. now exists uv, uid.
  - intros hop. apply last_match_hop_some.
  - unfold last_match_hop. rewrite first_match_hop_none. split.
    + intros H p h Hin. apply (H p h). now apply -> in_rev.
    + intros H p h Hin. apply (H p h). now apply in_rev.
  - apply program_tables_one_match.
Qed.

(* ================================================================= *)
(** ** The theorems at concrete inputs *)


(** A change request on the simulated device: the other field of the
    record is written back as read. *)
Lemma execute_upgrade_frame_witness :
  $"scheduled_upgrade" <> $"image_id" /\
  dict_get $"scheduled_upgrade"
           (dict_set $"image_id" (JStr $"id-4.7.1")
                     [($"image_id", JStr $"id-0"); ($"scheduled_upgrade", JNull)])
  = Some JNull /\
  fst (execute_upgrade sim_sdk (Some $"e1") $"id-4.7.1" (device "4.5.2" catalog))
  = Ret true.
Proof.
  pose proof (execute_upgrade_frame sim_sdk (Some $"e1") $"id-4.7.1"
                                    (device "4.5.2" catalog)) as H.
  cbv beta iota zeta delta [sim_sdk sdk_get_software_state sdk_put_software_state
    device world sim_software_state sim_put sim_put_ok cgx_content cgx_status] in H.
  destruct H as ([_ H2] & H3 & _).
  assert (N : $"scheduled_upgrade" <> $"image_id") by discriminate.
  split; [exact N|]. split.
  - exact (H2 $"scheduled_upgrade" N).
  - exact (f_equal fst H3).
Defined.

(** The three-hop path with a budget of two steps. *)
Lemma staged_engine_step_budget_witness :
  let run := staged_upgrade sim_sdk (Some $"e1") (Some $"5.2.7") 240 2 0
                            (device "4.5.2" catalog) in
  2 <= 2 /\
  fst run <> OutOfFuel /\
  (exists new, log (snd run) = new ++ [] /\
               (count is_get_state new <= 2)%nat /\ (count is_put new <= 2)%nat) /\
  staged_upgrade sim_sdk (Some $"e1") (Some $"5.2.7") 240 2 2 (device "4.5.2" catalog)
  = (Ret (Some false),
     State (world (device "4.5.2" catalog)) [EPrint MsgMaxSteps]).
Proof.
  intros run.
  destruct (staged_engine_step_budget sim_sdk (Some $"e1") (Some $"5.2.7") 240 2
                                      (device "4.5.2" catalog)) as (H1 & H2 & _).
  assert (L : 2 <= 2) by lia.
  split; [exact L|].
  destruct (H1 run (or_introl eq_refl)) as [Hf Hn].
  split; [exact Hf|]. split; [exact Hn|].
  exact (proj1 (H2 2 L)).
Defined.

(** A stuck device: the first wait times out and the run stops there. *)
Lemma await_version_exact_or_timeout_witness :
  let st := State (Sim (Some $"4.5.2") catalog [] None true true 100) [] in
  let run := staged_upgrade sim_sdk (Some $"e1") (Some $"5.2.7") 25 5 0 st in
  exists new,
    log (snd run) = new ++ [] /\ quiet_after_timeout new /\
    fst run = Ret (Some false) /\
    exists new', new = EPrint MsgSleepExpired :: new'.
Proof.
  intros st run.
  destruct (proj2 (await_version_exact_or_timeout sim_sdk $"5.2.7" (Some $"e1") 25 st)
                  run (Some $"5.2.7") 5 0 (or_introl eq_refl))
    as (new & Hl & Hq & Ht).
  exists new. split; [exact Hl|]. split; [exact Hq|].
  apply Ht.
  - assert (E : new = log (snd run)) by (rewrite Hl; now rewrite app_nil_r).
    rewrite E. vm_compute. lia.
  - assert (E : new = log (snd run)) by (rewrite Hl; now rewrite app_nil_r).
    rewrite E. vm_compute. reflexivity.
Defined.

(** One hop done, the limit at step 2: the [False] of step 2 is dropped. *)
Lemma staged_later_value_dropped_witness :
  let st := device "4.5.2" catalog in
  let run := staged_upgrade sim_sdk (Some $"e1") (Some $"5.2.7") 240 1 0 st in
  (exists st2 st3 st4,
      execute_upgrade sim_sdk (Some $"e1") $"id-4.7.1" st = (Ret true, st2) /\
      wait_for_upgade sim_sdk $"4.7.1" (Some $"e1") 240 st2 = (Ret true, st3) /\
      ret (W := sim) (Some false) st3 = (Ret (Some false), st4) /\
      fst (finish_hop sim_sdk (Some $"e1") $"4.7.1" $"id-4.7.1" 240 0
                      (ret (Some false)) st) = Ret None) /\
  In (EPrint MsgMaxSteps) (log (snd run)) /\
  fst run = Ret None /\
  exists new, log (snd run) = new ++ [] /\ (0 < count is_completed new)%nat.
Proof.
  intros st run.
  destruct (staged_later_value_dropped sim_sdk (Some $"e1") (Some $"5.2.7") 240 1 0 st)
    as [H1 H2].
  split.
  - destruct (execute_upgrade sim_sdk (Some $"e1") $"id-4.7.1" st) as [r2 st2] eqn:E2.
    assert (R2 : r2 = Ret true) by (apply (f_equal fst) in E2; vm_compute in E2; congruence).
    subst r2.
    destruct (wait_for_upgade sim_sdk $"4.7.1" (Some $"e1") 240 st2) as [r3 st3] eqn:E3.
    assert (R3 : r3 = Ret true).
    { assert (S2 : st2 = snd (execute_upgrade sim_sdk (Some $"e1") $"id-4.7.1" st))
        by now rewrite E2.
      apply (f_equal fst) in E3. rewrite S2 in E3. vm_compute in E3. congruence. }
    subst r3.
    exists st2, st3, st3. split; [reflexivity|]. split; [exact E3|].
    split; [reflexivity|].
    exact (H1 $"4.7.1" $"id-4.7.1" (ret (Some false)) st2 st3 st3 (Some false)
              E2 E3 eq_refl).
  - split; [vm_compute; tauto|].
    assert (E : fst run = Ret None) by (vm_compute; reflexivity).
    split; [exact E|].
    destruct (H2 run (or_introl eq_refl)) as (new & Hl & Hv).
    exists new. split; [exact Hl|]. now apply (Hv None E).
Defined.

(** A device at 4.5.2 against the upgrade table and against a table with
    two matching entries. *)
Lemma path_scan_last_match_witness :
  let image_dict := images_to_dict catalog [] in
  scan_path_table upgrade_path_regex (Some $"4.5.2") image_dict (None, None)
  = Ret (Some $"4.7.1", Some $"id-4.7.1") /\
  (Some $"4.7.1", Some $"id-4.7.1") = resolve_hop $"4.7.1" image_dict /\
  exists uv uid,
    scan_path_table overlapping_table (Some $"4.5.2") image_dict (None, None)
    = Ret (uv, uid).
Proof.
  intros image_dict.
  assert (E : scan_path_table upgrade_path_regex (Some $"4.5.2") image_dict (None, None)
              = Ret (Some $"4.7.1", Some $"id-4.7.1")) by reflexivity.
  split; [exact E|].
  destruct (path_scan_last_match upgrade_path_regex $"4.5.2" image_dict) as (H1 & _).
  specialize (H1 _ _ E).
  assert (L : last_match_hop upgrade_path_regex $"4.5.2" = Some $"4.7.1") by reflexivity.
  rewrite L in H1. split; [exact (proj1 H1)|].
  destruct (path_scan_last_match overlapping_table $"4.5.2" image_dict) as (_ & H2 & _).
  apply H2. intros path hop [Hin|[Hin|[]]] _; inversion Hin; subst; discriminate.
Defined.

(* ================================================================= *)
(** ** The image dictionary *)

Lemma dict_keys_set {V} k (v : V) d :
  dict_keys (dict_set k v d) =
  if existsb (fun k' => str_eqb k' k) (dict_keys d) then dict_keys d
  else dict_keys d ++ [k].
Proof.
  induction d as [|[k' v'] d IH]; simpl; [reflexivity|].
  destruct (str_eqb k' k) eqn:E; simpl.
  - apply str_eqb_eq in E. now subst.
  - rewrite IH. now destruct (existsb _ (dict_keys d)).
Qed.

Lemma dict_get_not_key {V} k (d : dict V) :
  existsb (fun k' => str_eqb k' k) (dict_keys d) = false -> dict_get k d = None.
Proof.
  induction d as [|[k' v'] d IH]; simpl; [reflexivity|].
  destruct (str_eqb k' k); simpl; [discriminate | exact IH].
Qed.

Lemma filter_filter_comm {A} (p q : A -> bool) l :
  filter p (filter q l) = filter q (filter p l).
Proof.
  induction l as [|x l IH]; simpl; [reflexivity|].
  destruct (p x) eqn:Ep, (q x) eqn:Eq; simpl; rewrite ?Ep, ?Eq, IH; reflexivity.
Qed.

Lemma filter_drop_excluded (p : str -> bool) x l :
  p x = false ->
  filter p (filter (fun y => negb (str_eqb y x)) l) = filter p l.
Proof.
  intros Hx. induction l as [|y l IH]; simpl; [reflexivity|].
  destruct (str_eqb y x) eqn:E; simpl.
  - apply str_eqb_eq in E. subst y. now rewrite Hx.
  - now rewrite IH.
Qed.

Lemma first_occurrences_filter (p : str -> bool) l :
  first_occurrences (filter p l) = filter p (first_occurrences l).
Proof.
  induction l as [|x l IH]; simpl; [reflexivity|].
  destruct (p x) eqn:Ex; simpl.
  - now rewrite IH, filter_filter_comm.
  - now rewrite IH, filter_drop_excluded.
Qed.

Lemma filter_andb {A} (p q : A -> bool) l :
  filter (fun x => p x && q x) l = filter q (filter p l).
Proof.
  induction l as [|x l IH]; simpl; [reflexivity|].
  destruct (p x); simpl; [destruct (q x)|]; now rewrite IH.
Qed.

Lemma existsb_app_one (k v : str) K :
  existsb (fun k' => str_eqb k' k) (K ++ [v]) =
  existsb (fun k' => str_eqb k' k) K || str_eqb v k.
Proof. rewrite existsb_app. simpl. now rewrite orb_false_r. Qed.

Lemma images_to_dict_keys images : forall acc,
  dict_keys (images_to_dict images acc) =
  dict_keys acc ++
  first_occurrences
    (filter (fun v => negb (existsb (fun k' => str_eqb k' v) (dict_keys acc)))
            (map image_version images)).
Proof.
  induction images as [|i images IH]; intros acc; cbn [images_to_dict map filter].
  - simpl. now rewrite app_nil_r.
  - rewrite IH, dict_keys_set.
    destruct (existsb (fun k' => str_eqb k' (image_version i)) (dict_keys acc)) eqn:E;
      cbn [negb].
    + reflexivity.
    + cbn [first_occurrences]. rewrite <- app_assoc. cbn [app]. do 2 f_equal.
      rewrite <- first_occurrences_filter, filter_filter_comm.
      rewrite (filter_ext
                 (fun v => negb (existsb (fun k' => str_eqb k' v)
                                         (dict_keys acc ++ [image_version i])))
                 (fun v => negb (str_eqb v (image_version i))
                           && negb (existsb (fun k' => str_eqb k' v) (dict_keys acc)))).
      2:{ intros v. rewrite existsb_app_one, negb_orb.
          rewrite andb_comm. f_equal. f_equal.
          destruct (str_eqb (image_version i) v) eqn:E1, (str_eqb v (image_version i)) eqn:E2;
            try reflexivity.
          - apply str_eqb_eq in E1. subst v. now rewrite str_eqb_refl in E2.
          - apply str_eqb_eq in E2. subst v. now rewrite str_eqb_refl in E1. }
      apply (f_equal (cons (image_version i))). f_equal. apply filter_andb.
Qed.

Lemma find_app_one {A} (p : A -> bool) l x :
  find p (l ++ [x]) =
  match find p l with
  | Some y => Some y
  | None => if p x then Some x else None
  end.
Proof.
  induction l as [|y l IH]; simpl; [reflexivity|].
  destruct (p y); [reflexivity | exact IH].
Qed.

Lemma images_to_dict_get v images : forall acc,
  dict_get v (images_to_dict images acc) =
  match last_image_with v images with
  | Some i => Some i
  | None => dict_get v acc
  end.
Proof.
  unfold last_image_with.
  induction images as [|i images IH]; intros acc; cbn [images_to_dict List.rev];
    [reflexivity|].
  rewrite IH, find_app_one.
  destruct (find _ (List.rev images)); [reflexivity|].
  destruct (str_eqb (image_version i) v) eqn:E.
  - apply str_eqb_eq in E. subst v. apply dict_get_set_same.
  - apply dict_get_set_other. apply str_eqb_neq in E. congruence.
Qed.

Lemma filter_all {A} (p : A -> bool) l :
  (forall x, p x = true) -> filter p l = l.
Proof.
  intros Hp. induction l as [|x l IH]; simpl; [reflexivity|]. now rewrite Hp, IH.
Qed.

Lemma first_occurrences_in x l : In x (first_occurrences l) <-> In x l.
Proof.
  induction l as [|y l IH]; simpl; [reflexivity|].
  rewrite filter_In, IH, negb_true_iff, str_eqb_neq.
  destruct (list_eq_dec ascii_dec y x) as [->|N]; [tauto|].
  split; [tauto|]. intros [H|H]; [congruence|]. right. split; [assumption | congruence].
Qed.

Lemma first_occurrences_nodup l : NoDup (first_occurrences l).
Proof.
  induction l as [|y l IH]; simpl; constructor.
  - rewrite filter_In, negb_true_iff, str_eqb_neq. tauto.
  - now apply NoDup_filter.
Qed.

(** X1. The dictionary that [get_images_list] builds from the image list:
    when the call fails the result is [None]; when the answer has no
    ["items"] the loop over [None] raises [TypeError]; otherwise the keys are
    the versions of the images, each once, in the order of their first
    appearance, and a version looks up the LAST image that carries it (a
    later image of the same version replaces the earlier one without moving
    the key). One call is made and nothing is printed. *)
Theorem get_images_list_dict {W : Type} (sdk : SDK W) (st : state W) :
  let (r, w) := sdk_get_element_images sdk (world st) in
  let st' := State w (EGetImages :: log st) in
  match cgx_status r, cgx_content r with
  | false, _ => get_images_list sdk st = (Ret None, st')
  | true, None => get_images_list sdk st = (Raise TypeError, st')
  | true, Some images =>
      exists d,
        get_images_list sdk st = (Ret (Some d), st') /\
        dict_keys d = first_occurrences (map image_version images) /\
        NoDup (dict_keys d) /\
        (forall v, dict_get v d = last_image_with v images) /\
        (forall v i, dict_get v d = Some i -> image_version i = v /\ In i images)
  end.
Proof.
  unfold get_images_list, bind, call.
  destruct (sdk_get_element_images sdk (world st)) as [r w]. cbv zeta.
  destruct (cgx_status r); [|reflexivity].
  destruct (cgx_content r) as [images|]; [|reflexivity].
  exists (images_to_dict images []). split; [reflexivity|].
  assert (K : dict_keys (images_to_dict images [])
              = first_occurrences (map image_version images)).
  { rewrite images_to_dict_keys. cbn [dict_keys map app existsb negb].
    now rewrite filter_all. }
  assert (G : forall v, dict_get v (images_to_dict images []) = last_image_with v images).
  { intros v. rewrite images_to_dict_get. now destruct (last_image_with v images). }
  split; [exact K|]. split; [rewrite K; apply first_occurrences_nodup|].
  split; [exact G|].
  intros v i Hi. rewrite G in Hi. unfold last_image_with in Hi.
  apply find_some in Hi as [Hin Hv]. apply str_eqb_eq in Hv.
  split; [assumption | now apply in_rev].
Qed.

(** An image list with two builds of 5.2.7 under one version string. *)
Lemma get_images_list_dict_witness :
  let images := [Image $"5.2.7" $"a"; Image $"4.5.3" $"b"; Image $"5.2.7" $"c"] in
  exists d,
    fst (get_images_list sim_sdk (device "4.5.2" images)) = Ret (Some d) /\
    dict_keys d = [$"5.2.7"; $"4.5.3"] /\
    dict_get $"5.2.7" d = Some (Image $"5.2.7" $"c") /\
    In (Image $"5.2.7" $"c") images.
Proof.
  intros images.
  pose proof (get_images_list_dict sim_sdk (device "4.5.2" images)) as H.
  cbv beta iota zeta delta [sim_sdk sdk_get_element_images sim_get_images
    sim_image_calls device world cgx_status cgx_content sim_images] in H.
  destruct H as (d & Hrun & Hk & _ & Hget & Hin).
  exists d. split; [exact (f_equal fst Hrun)|]. split; [exact Hk|].
  assert (E : dict_get $"5.2.7" d = Some (Image $"5.2.7" $"c"))
    by (rewrite Hget; reflexivity).
  split; [exact E | exact (proj2 (Hin _ _ E))].
Defined.

(* ================================================================= *)
(** ** Finding the device *)

Lemma find_hw_id_some serial l id :
  find_hw_id serial l = Some id <->
  exists pre el post,
    l = pre ++ el :: post /\ element_hw_id el = serial /\ element_id_of el = id /\
    forall x, In x pre -> element_hw_id x <> serial.
Proof.
  induction l as [|y l IH]; cbn [find_hw_id].
  - split; [discriminate|]. intros (pre & el & post & H & _). destruct pre; discriminate.
  - destruct (str_eqb (element_hw_id y) serial) eqn:E.
    + apply str_eqb_eq in E. split.
      * intros H. inversion H; subst. exists [], y, l. repeat split. intros x [].
      * intros (pre & el & post & H & Hs & Hid & Hpre). destruct pre as [|z pre].
        -- inversion H; subst. reflexivity.
        -- inversion H; subst. exfalso. apply (Hpre z); [now left | reflexivity].
    + apply str_eqb_neq in E. rewrite IH. split.
      * intros (pre & el & post & -> & Hs & Hid & Hpre).
        exists (y :: pre), el, post. repeat split; try assumption.
        intros x [<-|Hx]; [assumption | now apply Hpre].
      * intros (pre & el & post & H & Hs & Hid & Hpre). destruct pre as [|z pre].
        -- inversion H; subst. congruence.
        -- inversion H; subst. exists pre, el, post. repeat split; try assumption.
           intros x Hx. apply Hpre. now right.
Qed.

Lemma find_hw_id_none serial l :
  find_hw_id serial l = None <-> forall x, In x l -> element_hw_id x <> serial.
Proof.
  induction l as [|y l IH]; cbn [find_hw_id].
  - split; [intros _ x [] | reflexivity].
  - destruct (str_eqb (element_hw_id y) serial) eqn:E.
    + apply str_eqb_eq in E. split; [discriminate|].
      intros H. exfalso. apply (H y); [now left | assumption].
    + apply str_eqb_neq in E. rewrite IH. split.
      * intros H x [<-|Hx]; [assumption | now apply H].
      * intros H x Hx. apply H. now right.
Qed.

(** X2. [find_ion_by_sn] makes one call. When it fails the error line is
    printed and the result is [False]; when the answer has no ["items"] the
    loop raises [TypeError]. Otherwise the result is the id of the FIRST
    element of the list whose [hw_id] is the serial, with nothing printed;
    when no element has the serial the not-found line is printed and the
    result is [False]. *)
Theorem find_ion_by_sn_first {W : Type} (sdk : SDK W) (ion_serial : str)
        (st : state W) :
  let (r, w) := sdk_get_elements sdk (world st) in
  match cgx_status r, cgx_content r with
  | false, _ =>
      find_ion_by_sn sdk ion_serial st
      = (Ret None, State w (EPrint MsgErrListIons :: EGetElements :: log st))
  | true, None =>
      find_ion_by_sn sdk ion_serial st
      = (Raise TypeError, State w (EGetElements :: log st))
  | true, Some element_list =>
      (forall id,
          find_ion_by_sn sdk ion_serial st
          = (Ret (Some id), State w (EGetElements :: log st)) <->
          exists pre el post,
            element_list = pre ++ el :: post /\ element_hw_id el = ion_serial /\
            element_id_of el = id /\
            forall x, In x pre -> element_hw_id x <> ion_serial) /\
      (find_ion_by_sn sdk ion_serial st
       = (Ret None,
          State w (EPrint (MsgSerialNotFound ion_serial) :: EGetElements :: log st)) <->
       forall x, In x element_list -> element_hw_id x <> ion_serial)
  end.
Proof.
  unfold find_ion_by_sn, bind, call, print, ret, lift.
  destruct (sdk_get_elements sdk (world st)) as [r w].
  destruct (cgx_status r); cbn [negb world log]; [|reflexivity].
  destruct (cgx_content r) as [l|]; [|reflexivity].
  split.
  - intros id. rewrite <- find_hw_id_some.
    destruct (find_hw_id ion_serial l) as [id'|]; split; intros H;
      inversion H; subst; reflexivity.
  - rewrite <- find_hw_id_none.
    destruct (find_hw_id ion_serial l) as [id'|]; split; intros H;
      inversion H; subst; reflexivity.
Qed.

(** Two elements with the same serial: the id of the first is returned. *)
Lemma find_ion_by_sn_first_witness :
  let elements := [Element $"e0" $"other"; Element $"e1" $"sn"; Element $"e2" $"sn"] in
  let sdk := Build_SDK sim (fun w => (Response true (Some elements), w))
                       (sdk_get_element sim_sdk) (sdk_get_element_images sim_sdk)
                       (sdk_get_software_state sim_sdk)
                       (sdk_put_software_state sim_sdk) (time_sleep sim_sdk) in
  fst (find_ion_by_sn sdk $"sn" (device "4.5.2" catalog)) = Ret (Some $"e1") /\
  fst (find_ion_by_sn sdk $"none" (device "4.5.2" catalog)) = Ret None.
Proof.
  intros elements sdk.
  pose proof (find_ion_by_sn_first sdk $"sn" (device "4.5.2" catalog)) as H1.
  pose proof (find_ion_by_sn_first sdk $"none" (device "4.5.2" catalog)) as H2.
  cbv beta iota zeta delta [sdk sdk_get_elements cgx_status cgx_content] in H1, H2.
  destruct H1 as [H1 _]. destruct H2 as [_ H2].
  split.
  - assert (E : exists pre el post,
                 elements = pre ++ el :: post /\ element_hw_id el = $"sn" /\
                 element_id_of el = $"e1" /\
                 forall x, In x pre -> element_hw_id x <> $"sn").
    { exists [Element $"e0" $"other"], (Element $"e1" $"sn"), [Element $"e2" $"sn"].
      split; [reflexivity|]. split; [reflexivity|]. split; [reflexivity|].
      intros x [<-|[]]. discriminate. }
    apply (proj2 (H1 _)) in E. exact (f_equal fst E).
  - assert (E : forall x, In x elements -> element_hw_id x <> $"none")
      by (intros x [<-|[<-|[<-|[]]]]; discriminate).
    apply (proj2 H2) in E. exact (f_equal fst E).
Defined.

(* ================================================================= *)
(** ** What the direction depends on *)

Lemma compare_versions_eq c1 c2 c3 t1 t2 t3 :
  compare_versions (c1, c2, c3) (t1, t2, t3) =
  if c1 <? t1 then Some $"upgrade"
  else if t1 <? c1 then Some $"downgrade"
  else if c2 <? t2 then Some $"upgrade"
  else if t2 <? c2 then Some $"downgrade"
  else None.
Proof.
  unfold compare_versions. rewrite !Z.gtb_ltb.
  destruct (c1 <? t1); [reflexivity|].
  destruct (t1 <? c1); [reflexivity|].
  destruct (Z.ltb_spec c2 t2); [reflexivity|].
  destruct (Z.ltb_spec t2 c2); [reflexivity|].
  assert (c2 = t2) by lia. subst. now rewrite str_ltb_irrefl.
Qed.

(** X3. The comparison of [is_upgrade_or_downgrade] is the lexicographic
    comparison of (major, minor): it says "upgrade" exactly when the current
    pair is below the target pair, "downgrade" exactly when it is above, and
    nothing exactly when the two pairs are equal. The micro components are
    never looked at, and swapping current and target swaps "upgrade" and
    "downgrade". *)
Theorem compare_versions_major_minor (c1 c2 c3 t1 t2 t3 : Z) :
  (compare_versions (c1, c2, c3) (t1, t2, t3) = Some $"upgrade" <->
   c1 < t1 \/ (c1 = t1 /\ c2 < t2)) /\
  (compare_versions (c1, c2, c3) (t1, t2, t3) = Some $"downgrade" <->
   t1 < c1 \/ (c1 = t1 /\ t2 < c2)) /\
  (compare_versions (c1, c2, c3) (t1, t2, t3) = None <-> c1 = t1 /\ c2 = t2) /\
  (compare_versions (c1, c2, c3) (t1, t2, t3) = Some $"upgrade" <->
   compare_versions (t1, t2, t3) (c1, c2, c3) = Some $"downgrade") /\
  (forall c3' t3',
      compare_versions (c1, c2, c3') (t1, t2, t3')
      = compare_versions (c1, c2, c3) (t1, t2, t3)).
Proof.
  rewrite !compare_versions_eq.
  repeat split; try (intros; now rewrite !compare_versions_eq);
    destruct (Z.ltb_spec c1 t1), (Z.ltb_spec t1 c1), (Z.ltb_spec c2 t2),
      (Z.ltb_spec t2 c2); intros; try discriminate; try lia; try reflexivity;
    try (exfalso; lia).
Qed.

(* ================================================================= *)
(** ** The patterns and the hops of the tables *)

(** X4. A pattern ['M\.N\..*'] of the path tables, matched with [re.match],
    accepts exactly the versions that start with [M.N.]: the match is
    anchored at the start and [.*] accepts whatever follows. *)
Theorem path_pattern_matches_prefix (major minor : ascii) (version : str) :
  re_match (path_regex major minor) version <> None <->
  exists rest, version = major :: "."%char :: minor :: "."%char :: rest.
Proof.
  rewrite re_match_path_regex.
  destruct (startswith [major; "."%char; minor; "."%char] version) eqn:E.
  - apply startswith_spec in E as [rest ->]. split; [|discriminate].
    intros _. now exists rest.
  - split; [congruence|]. intros [rest ->].
    cbn [startswith] in E. rewrite !Ascii.eqb_refl in E. discriminate.
Qed.

Lemma major_minor_micro_at_start v g :
  version_at v = Some g ->
  major_minor_micro v =
  match g with
  | [major; minor; micro] =>
      rbind (py_int_of_digits major) (fun major =>
      rbind (py_int_of_digits minor) (fun minor =>
      rbind (py_int_of_digits micro) (fun micro =>
      Ret (major, minor, micro))))
  | _ => Raise ValueError
  end.
Proof.
  intros H. unfold major_minor_micro.
  destruct v as [|x v]; cbn [re_search]; rewrite re_match_version, H; reflexivity.
Qed.

Lemma take_cls_length c s : (List.length (take_cls c s) <= List.length s)%nat.
Proof.
  rewrite <- (take_drop_cls c s) at 2. rewrite List.length_app. lia.
Qed.

(** A version that starts with [M.N.] and then a digit, and is no longer
    than the limit of [int()], parses to (M, N, micro). *)
Lemma major_minor_micro_prefix M N rest a b c post :
  is_digit M = true -> is_digit N = true ->
  occurrence [] a b c post (M :: "."%char :: N :: "."%char :: rest) ->
  within_int_limit (M :: "."%char :: N :: "."%char :: rest) ->
  exists micro,
    major_minor_micro (M :: "."%char :: N :: "."%char :: rest)
    = Ret (digit_val M, digit_val N, micro).
Proof.
  intros HM HN (Hv & Da & Db & Dc) Lv. rewrite app_nil_l in Hv.
  assert (Lc : within_int_limit (c ++ take_cls CDigit post)).
  { unfold within_int_limit in *. rewrite Hv in Lv.
    pose proof (take_cls_length CDigit post) as T.
    repeat (rewrite ?List.length_app in *; cbn [List.length] in * ). lia. }
  pose proof (version_at_of_occurrence a b c post Da Db Dc) as V.
  rewrite <- Hv in V.
  rewrite (major_minor_micro_at_start _ _ V).
  assert (Ea : a = [M]).
  { pose proof (take_drop_cls_dot a (b ++ "."%char :: c ++ post) (proj2 Da)) as [T _].
    rewrite <- Hv in T. cbn [take_cls cls_match] in T. rewrite HM in T.
    cbn [is_digit] in T. now rewrite <- T. }
  subst a. cbn [app] in Hv. inversion Hv as [Hv'].
  assert (Eb : b = [N]).
  { pose proof (take_drop_cls_dot b (c ++ post) (proj2 Db)) as [T _].
    rewrite <- Hv' in T. cbn [take_cls cls_match] in T. rewrite HN in T.
    cbn [is_digit] in T. now rewrite <- T. }
  subst b. eexists.
  rewrite (py_int_of_digits_within [M]) by (cbv; discriminate). cbn [rbind].
  rewrite (py_int_of_digits_within [N]) by (cbv; discriminate). cbn [rbind].
  rewrite (py_int_of_digits_within _ Lc). cbn [rbind].
  unfold int_of_digits at 1 2. cbn [fold_left].
  rewrite !Z.mul_0_r, !Z.add_0_l. reflexivity.
Qed.

Ltac table_case Hocc :=
  match goal with
  | H : startswith _ ?v = true |- _ =>
      apply startswith_spec in H as [? ->]; cbn [Datatypes.app] in Hocc |- *;
      let P := fresh in
      pose proof (fun hm hn => major_minor_micro_prefix _ _ _ _ _ _ _ hm hn Hocc) as P;
      match goal with
      | L : within_int_limit _ |- _ => destruct (P eq_refl eq_refl L) as [? ->]
      end;
      eexists; eexists; split; [reflexivity|]; split; reflexivity
  end.

(** X5. The two tables point the way their names say. For a version that
    starts with its [major.minor.micro] number and is no longer than the
    limit of [int()]: the hop that
    [upgrade_path_regex] gives for it is a version that
    [is_upgrade_or_downgrade]'s comparison calls an "upgrade" from it, and
    the hop that [downgrade_path_regex] gives is a "downgrade". *)
Theorem path_tables_point_the_right_way (v a b c post hop : str) :
  occurrence [] a b c post v -> within_int_limit v ->
  (first_match_hop upgrade_path_regex v = Some hop ->
   exists t th,
     major_minor_micro v = Ret t /\ major_minor_micro hop = Ret th /\
     compare_versions t th = Some $"upgrade") /\
  (first_match_hop downgrade_path_regex v = Some hop ->
   exists t th,
     major_minor_micro v = Ret t /\ major_minor_micro hop = Ret th /\
     compare_versions t th = Some $"downgrade").
Proof.
  intros Hocc Lc. unfold upgrade_path_regex, downgrade_path_regex.
  cbn [first_match_hop]. rewrite !re_match_path_regex.
  split.
  - destruct (startswith ["4"; "."; "5"; "."]%char v) eqn:E45;
      [intros H; inversion H; subst hop; table_case Hocc|].
    destruct (startswith ["4"; "."; "7"; "."]%char v) eqn:E47;
      [intros H; inversion H; subst hop; table_case Hocc|].
    destruct (startswith ["5"; "."; "0"; "."]%char v) eqn:E50;
      [intros H; inversion H; subst hop; table_case Hocc|].
    destruct (startswith ["5"; "."; "1"; "."]%char v) eqn:E51;
      [intros H; inversion H; subst hop; table_case Hocc|].
    destruct (startswith ["5"; "."; "2"; "."]%char v) eqn:E52;
      [intros H; inversion H; subst hop; table_case Hocc|].
    discriminate.
  - destruct (startswith ["4"; "."; "7"; "."]%char v) eqn:E47;
      [intros H; inversion H; subst hop; table_case Hocc|].
    destruct (startswith ["5"; "."; "0"; "."]%char v) eqn:E50;
      [intros H; inversion H; subst hop; table_case Hocc|].
    destruct (startswith ["5"; "."; "1"; "."]%char v) eqn:E51;
      [intros H; inversion H; subst hop; table_case Hocc|].
    destruct (startswith ["5"; "."; "2"; "."]%char v) eqn:E52;
      [intros H; inversion H; subst hop; table_case Hocc|].
    destruct (startswith ["5"; "."; "4"; "."]%char v) eqn:E54;
      [intros H; inversion H; subst hop; table_case Hocc|].
    discriminate.
Qed.

(** The version 5.0.3-b7: up to 5.2.7, down to 4.7.1. *)
Lemma path_tables_point_the_right_way_witness :
  occurrence [] $"5" $"0" $"3" $"-b7" $"5.0.3-b7" /\
  within_int_limit $"5.0.3-b7" /\
  (exists t th,
      major_minor_micro $"5.0.3-b7" = Ret t /\ major_minor_micro $"5.2.7" = Ret th /\
      compare_versions t th = Some $"upgrade") /\
  (exists t th,
      major_minor_micro $"5.0.3-b7" = Ret t /\ major_minor_micro $"4.7.1" = Ret th /\
      compare_versions t th = Some $"downgrade").
Proof.
  assert (H : occurrence [] $"5" $"0" $"3" $"-b7" $"5.0.3-b7").
  { repeat split; try discriminate; repeat constructor. }
  assert (L : within_int_limit $"5.0.3-b7") by (cbv; discriminate).
  split; [exact H|]. split; [exact L|]. split.
  - exact (proj1 (path_tables_point_the_right_way _ _ _ _ _ $"5.2.7" H L) eq_refl).
  - exact (proj2 (path_tables_point_the_right_way _ _ _ _ _ $"4.7.1" H L) eq_refl).
Defined.

(* ================================================================= *)
(** ** An absent target always resolves *)

Lemma startswith_refl s : startswith s s = true.
Proof. apply startswith_spec. exists []. now rewrite app_nil_r. Qed.

Lemma str_in_refl s : str_in s s = true.
Proof. destruct s; cbn [str_in]; now rewrite startswith_refl. Qed.

Lemma best_by_in better l : forall best kbest k,
  best_by better best kbest l = Ret k -> k = best \/ In k l.
Proof.
  induction l as [|x l IH]; intros best kbest k; cbn [best_by].
  - intros H. inversion H. now left.
  - destruct (major_minor_micro x) as [kx|e|]; cbn [rbind]; try discriminate.
    destruct (better kx kbest); intros H; apply IH in H as [->|H]; auto.
    + right. now left.
    + right. now right.
    + right. now right.
Qed.

Lemma py_best_in better l k : py_best better l = Ret k -> In k l.
Proof.
  destruct l as [|x l]; cbn [py_best]; [discriminate|].
  destruct (major_minor_micro x) as [kx|e|]; cbn [rbind]; try discriminate.
  intros H. apply best_by_in in H as [->|H]; [now left | now right].
Qed.

Lemma get_exact_in_found v keys k :
  In k keys -> str_in v k = true ->
  exists k', get_exact_in v keys = Some k' /\ str_in v k' = true.
Proof.
  intros Hin Hk. destruct (get_exact_in v keys) as [k'|] eqn:E.
  - exists k'. split; [reflexivity|].
    apply get_exact_in_some in E as (pre & post & _ & H & _). exact H.
  - rewrite get_exact_in_none in E. rewrite (E k Hin) in Hk. discriminate.
Qed.

(** The key that [max] or [min] picks is a key of the list, and both
    resolutions that follow find a key for it: the first-match search of
    [get_exact_major_minor_micro] and the loop of the engine each end on a
    key that contains it. *)
Lemma py_best_resolves (keys : list str) (k : str) :
  py_max keys = Ret k \/ py_min keys = Ret k ->
  In k keys /\
  (exists k1, get_exact_in k keys = Some k1 /\ str_in k k1 = true) /\
  (exists k2, exact_version_loop k keys None = Some k2 /\ str_in k k2 = true).
Proof.
  intros H.
  assert (Hin : In k keys) by (destruct H as [H|H]; exact (py_best_in _ _ _ H)).
  split; [exact Hin|]. split.
  - apply (get_exact_in_found k keys k Hin (str_in_refl k)).
  - rewrite exact_version_loop_rev.
    destruct (get_exact_in_found k (List.rev keys) k (proj1 (in_rev _ _) Hin)
                (str_in_refl k)) as (k2 & -> & Hk2).
    now exists k2.
Qed.

(* ================================================================= *)
(** ** The shape of the log of a run *)

Section RunShape.
Context {W : Type} (sdk : SDK W).

Ltac reading_end :=
  eexists; eexists; split; [reflexivity|];
  left;
  first [ eexists [_]; split; [reflexivity|]
        | eexists [_; _]; split; [reflexivity|]
        | eexists [_; _; _]; split; [reflexivity|]
        | eexists [_; _; _; _]; split; [reflexivity|] ];
  split; [split; [repeat constructor | reflexivity]
         | first [left; reflexivity | right; eexists; reflexivity]].

(** Within the budget, a step reads the image list once and then either
    ends, with [False] or an exception, before any other kind of call, or
    goes on with [finish_hop]. *)
Lemma staged_change_step_events d table fuel e mv mw ms step st :
  step + 1 <= ms ->
  exists r st',
    staged_change sdk d table (S fuel) e mv mw ms step st = (r, st') /\
    ((exists pre,
         log st' = pre ++ log st /\ planning pre /\
         (r = Ret (Some false) \/ exists x, r = Raise x))
     \/
     (exists pre st1 next id mv',
         log st1 = pre ++ log st /\ planning pre /\
         (r, st') = finish_hop sdk e next id mw (step + 1)
                      (staged_change sdk d table fuel e (Some mv') mw ms (step + 1))
                      st1)).
Proof.
  intros Hs. cbn [staged_change]. rewrite gtb_false by lia.
  unfold bind at 1.
  destruct (get_images_list_run sdk st) as (r & w & -> & Hr).
  destruct r as [imgs|x|]; [|reading_end|congruence].
  unfold bind at 1.
  destruct (get_element_sw_version_run sdk e (State w (EGetImages :: log st)))
    as (cur & w1 & ->). cbn [log].
  unfold bind at 1, lift at 1.
  destruct imgs as [image_dict|]; cbn [require_dict]; [|reading_end].
  unfold bind at 1.
  set (pick := match d with
               | Upgrade => py_max (dict_keys image_dict)
               | Downgrade => py_min (dict_keys image_dict)
               end).
  assert (Hpick : pick <> OutOfFuel).
  { subst pick. destruct d; apply py_best_no_oof. }
  assert (Hmv : exists rv,
             (if truthy mv
              then ret (match mv with Some v => v | None => [] end)
              else lift pick)
               (State w1 (EGetElement e :: EGetImages :: log st))
             = (rv, State w1 (EGetElement e :: EGetImages :: log st))
             /\ rv <> OutOfFuel).
  { destruct (truthy mv); unfold ret, lift; eexists; split; try reflexivity;
      [discriminate | assumption]. }
  destruct Hmv as (rv & -> & Hrv).
  destruct rv as [mv'|x|]; [|reading_end|congruence].
  destruct (opt_eqb cur (Some mv') || opt_eqb cur (get_exact_major_minor_micro mv' image_dict)).
  { destruct d; [reading_end|].
    destruct (step + 1 =? 1); reading_end. }
  destruct (negb (truthy (exact_version_loop mv' (dict_keys image_dict) None)));
    [reading_end|].
  unfold bind at 1, lift at 1.
  pose proof (scan_path_table_no_oof table cur image_dict (None, None)) as Hscan.
  destruct (scan_path_table table cur image_dict (None, None)) as [[uv uid]|x|];
    [|reading_end|congruence].
  destruct (truthy uv && truthy uid); [|reading_end].
  unfold bind at 1, print at 1. cbn [world log].
  match goal with
  | |- exists r st', ?X = _ /\ _ => destruct X as [r st'] eqn:E
  end.
  exists r, st'. split; [reflexivity|].
  right.
  eexists [_; _; _], _, _, _, mv'.
  split; [|split].
  3: (symmetry; exact E).
  - reflexivity.
  - split; [repeat constructor | reflexivity].
Qed.

(** The last lines of a step whose hop went through. *)
Lemma finish_hop_post e next id mw step (rec : M W (option bool)) st1 st2 st3 st4 v :
  execute_upgrade sdk e id st1 = (Ret true, st2) ->
  wait_for_upgade sdk next e mw st2 = (Ret true, st3) ->
  rec st3 = (Ret v, st4) ->
  exists st' post,
    finish_hop sdk e next id mw step rec st1 = (Ret None, st') /\
    log st' = post ++ log st4 /\
    Forall (fun ev => reading ev = true) post /\ count is_listing post = 0%nat.
Proof.
  intros He Hw Hr. unfold finish_hop.
  unfold bind at 1. rewrite He. cbn [negb].
  unfold bind at 1. rewrite Hw. cbn [negb].
  unfold bind at 1. rewrite Hr.
  unfold bind at 1.
  destruct (get_element_sw_version_run sdk e st4) as (cur & w5 & ->).
  destruct (step =? 1); unfold bind, print, ret; cbn [world log].
  - eexists; eexists [_; _]. split; [reflexivity|]. split; [reflexivity|].
    split; [repeat constructor | reflexivity].
  - eexists; eexists [_]. split; [reflexivity|]. split; [reflexivity|].
    split; [repeat constructor | reflexivity].
Qed.

Lemma app_assoc4 {A} (a b c d : list A) :
  a ++ b ++ c ++ d = (a ++ b ++ c) ++ d.
Proof. now rewrite !app_assoc. Qed.

(** The log of every run has the shape of [engine_log]. *)
Lemma staged_change_engine_log d table fuel :
  forall e mv mw ms step st,
    (Z.to_nat (ms - step) <= fuel)%nat ->
    exists r st' new,
      staged_change sdk d table fuel e mv mw ms step st = (r, st') /\
      log st' = new ++ log st /\
      engine_log sdk e mw (Z.to_nat (ms - step)) new.
Proof.
  induction fuel as [|fuel IH]; intros e mv mw ms step st Hf.
  - rewrite staged_change_limit by lia.
    eexists; eexists; exists [EPrint MsgMaxSteps].
    split; [reflexivity|]. split; [reflexivity|].
    apply EL_end; [repeat constructor | cbv; lia | reflexivity].
  - destruct (Z_lt_le_dec ms (step + 1)) as [Hlim|Hlim].
    { rewrite staged_change_limit by lia.
      eexists; eexists; exists [EPrint MsgMaxSteps].
      split; [reflexivity|]. split; [reflexivity|].
      apply EL_end; [repeat constructor | cbv; lia | reflexivity]. }
    assert (Hn : Z.to_nat (ms - step) = S (Z.to_nat (ms - (step + 1)))) by lia.
    destruct (staged_change_step_events d table fuel e mv mw ms step st Hlim)
      as (r & st' & -> & [(pre & Hl & Hpre & Hr) | (pre & st1 & next & id & mv' & Hl & Hpre & Hrun)]).
    + exists r, st', pre. split; [reflexivity|]. split; [assumption|].
      destruct Hpre as [Hp1 Hp2].
      apply EL_end; [assumption | lia | lia].
    + destruct (finish_hop_run sdk e next id mw (step + 1)
                  (staged_change sdk d table fuel e (Some mv') mw ms (step + 1)) st1)
        as (r0 & st0 & b1 & st2 & new_x & Hfin & Hexec & Hlx & _ & _ & _ & _ & Hcases).
      rewrite Hfin in Hrun. inversion Hrun; subst r0 st0; clear Hrun.
      rewrite Hn.
      destruct Hcases as [(-> & -> & ->) | (-> & b2 & st3 & new_w & Hwait & Hlw & _ & _ & _ & _ & Hcases)].
      * exists (Ret (Some false)), st2, (new_x ++ pre).
        split; [reflexivity|]. split; [now rewrite Hlx, Hl, app_assoc|].
        apply EL_exec_failed; [assumption|]. now exists id, st1, st2.
      * assert (Hx : exec_log sdk e true new_x) by now exists id, st1, st2.
        destruct Hcases as [(-> & -> & -> & _) | (-> & rr & st4 & Hrec & Hrr)].
        -- exists (Ret (Some false)), st3, (new_w ++ new_x ++ pre).
           split; [reflexivity|].
           split; [now rewrite Hlw, Hlx, Hl, !app_assoc|].
           apply EL_wait_failed; [assumption | assumption|].
           now exists next, st2, st3.
        -- assert (Hw : wait_log sdk e mw true new_w) by now exists next, st2, st3.
           destruct (IH e (Some mv') mw ms (step + 1) st3)
             as (r1 & st5 & inner & Hrec' & Hli & Hinner); [lia|].
           rewrite Hrec in Hrec'. inversion Hrec'; subst r1 st5; clear Hrec'.
           destruct rr as [v|x|].
           ++ destruct (finish_hop_post e next id mw (step + 1) _ st1 st2 st3 st4 v
                          Hexec Hwait Hrec) as (st'' & post & Hfin' & Hlp & Hp1 & Hp2).
              rewrite Hfin in Hfin'. inversion Hfin'; subst st''; clear Hfin'.
              eexists; exists st', (post ++ inner ++ new_w ++ new_x ++ pre).
              split; [reflexivity|].
              split; [now rewrite Hlp, Hli, Hlw, Hlx, Hl, !app_assoc|].
              now apply EL_hop.
           ++ destruct Hrr as [-> ->].
              exists (Raise x), st4, ([] ++ inner ++ new_w ++ new_x ++ pre).
              split; [reflexivity|].
              split; [cbn [Datatypes.app]; now rewrite Hli, Hlw, Hlx, Hl, !app_assoc|].
              apply EL_hop; try assumption; [constructor | reflexivity].
           ++ destruct Hrr as [-> ->].
              exists OutOfFuel, st4, ([] ++ inner ++ new_w ++ new_x ++ pre).
              split; [reflexivity|].
              split; [cbn [Datatypes.app]; now rewrite Hli, Hlw, Hlx, Hl, !app_assoc|].
              apply EL_hop; try assumption; [constructor | reflexivity].
Qed.

End RunShape.

(* ----------------------------------------------------------------- *)
(** *** The pieces of a log *)

Lemma count_reading l :
  Forall (fun ev => reading ev = true) l ->
  count is_put l = 0%nat /\ count is_get_state l = 0%nat /\
  count is_sleep l = 0%nat /\ read_before_write l.
Proof.
  unfold count. induction 1 as [|ev l Hev Hl (I1 & I2 & I3 & I4)]; simpl;
    [now repeat split|].
  destruct ev; try discriminate; simpl; now repeat split.
Qed.

Lemma count_wait_events l :
  Forall (fun ev => wait_event ev = true) l ->
  count is_put l = 0%nat /\ count is_get_state l = 0%nat /\
  count is_listing l = 0%nat /\ read_before_write l /\
  Forall (fun ev => is_sleep ev = true -> ev = ESleep 10) l.
Proof.
  unfold count. induction 1 as [|ev l Hev Hl (I1 & I2 & I3 & I4 & I5)]; simpl;
    [now repeat split|].
  destruct ev; try discriminate; simpl; repeat split; try assumption;
    constructor; try assumption; try discriminate.
  intros _. simpl in Hev. apply Z.eqb_eq in Hev. now subst.
Qed.

Lemma read_before_write_app a b :
  read_before_write a -> read_before_write b -> read_before_write (a ++ b).
Proof.
  induction a as [|ev a IH]; intros Ha Hb; [exact Hb|].
  destruct ev; cbn [Datatypes.app read_before_write] in *; try (now apply IH).
  destruct Ha as ((rest' & ->) & Hid & Ha). split; [|split; [exact Hid|now apply IH]].
  exists (rest' ++ b). reflexivity.
Qed.

Section Pieces.
Context {W : Type} (sdk : SDK W).

(** The three logs of [execute_upgrade]. *)
Lemma exec_log_shape e b x :
  exec_log sdk e b x ->
  exists id d,
    let data := dict_set $"image_id" (JStr id) d in
    (b = true /\
     x = [EPutSoftwareState e data; EPrint MsgExecuting; EGetSoftwareState e])
    \/ (b = false /\
        x = [EPrint MsgErrPutState; EPutSoftwareState e data; EPrint MsgExecuting;
             EGetSoftwareState e])
    \/ (b = false /\ x = [EPrint MsgErrGetState; EGetSoftwareState e]).
Proof.
  intros (id & st & st' & Hrun & Hl).
  pose proof (execute_upgrade_run sdk e id st) as H.
  destruct (sdk_get_software_state sdk e (world st)) as [got w1]. cbv zeta in H.
  destruct (sdk_put_software_state sdk e _ w1) as [ack w2].
  rewrite Hrun in H. exists id, (cgx_content got). cbv zeta.
  destruct (cgx_status got); [destruct (cgx_status ack)|];
    inversion H; subst b st'; cbn [log] in Hl.
  - left. split; [reflexivity|].
    apply (app_inv_tail (log st)). rewrite <- Hl. reflexivity.
  - right. left. split; [reflexivity|].
    apply (app_inv_tail (log st)). rewrite <- Hl. reflexivity.
  - right. right. split; [reflexivity|].
    apply (app_inv_tail (log st)). rewrite <- Hl. reflexivity.
Qed.

Lemma exec_log_counts e b x :
  exec_log sdk e b x ->
  count is_get_state x = 1%nat /\ (count is_put x <= 1)%nat /\
  count is_sleep x = 0%nat /\ count is_listing x = 0%nat /\ read_before_write x.
Proof.
  intros H. apply exec_log_shape in H as (id & d & H). cbv zeta in H.
  destruct H as [[_ ->]|[[_ ->]|[_ ->]]]; cbv [count filter is_get_state is_put
    is_sleep is_listing List.length]; cbn [read_before_write];
    repeat split; try lia; try (eexists; reflexivity);
    try (exists id; apply dict_get_set_same).
Qed.

(** [polls n] adds [n] sleeps of 10 seconds and [n + 1] reads of the
    version. *)
Lemma polls_shape e mw n st0 :
  exists v st new,
    polls sdk e mw n st0 = (Ret v, st) /\ log st = new ++ log st0 /\
    Forall (fun ev => wait_event ev = true) new /\
    count is_sleep new = n /\ count is_version_read new = S n.
Proof.
  induction n as [|n (v & st & new & Hp & Hl & Hn & Hs & Hr)].
  - cbn [polls]. destruct (get_element_sw_version_run sdk e st0) as (v & w & ->).
    exists v, (State w (EGetElement e :: log st0)), [EGetElement e].
    repeat split. repeat constructor.
  - rewrite (polls_succ sdk _ _ _ _ _ _ Hp).
    destruct (get_element_sw_version_run sdk e
                (State (time_sleep sdk 10 (world st))
                       (ESleep 10 :: EPrint (MsgWaiting (mw - 10 * Z.of_nat n)) :: log st)))
      as (v' & w' & ->).
    eexists; eexists; exists (EGetElement e :: ESleep 10
                              :: EPrint (MsgWaiting (mw - 10 * Z.of_nat n)) :: new).
    split; [reflexivity|]. cbn [log]. rewrite Hl. split; [reflexivity|].
    split; [repeat constructor; assumption|].
    unfold count in *. cbn [filter is_sleep is_version_read List.length].
    now rewrite Hs, Hr.
Qed.

(** What a wait adds to the log: [n] sleeps, all of 10 seconds, and [n + 1]
    reads, where [n] is 0 or [10 * n < max_wait + 10]. *)
Lemma wait_log_counts e mw b w :
  wait_log sdk e mw b w ->
  exists n : nat,
    count is_sleep w = n /\ count is_version_read w = S n /\
    (n = 0%nat \/ 10 * Z.of_nat n < mw + 10) /\
    Forall (fun ev => wait_event ev = true) w.
Proof.
  intros (next & st & st' & Hrun & Hl).
  destruct (wait_for_upgade_polls sdk next e mw st)
    as (n & v & st_n & b' & Hp & Hearlier & Hw & _ & _).
  rewrite Hrun in Hw. inversion Hw; subst b' st'; clear Hw. cbn [log] in Hl.
  destruct (polls_shape e mw n (State (world st) (EPrint (MsgWaitingUpTo mw) :: log st)))
    as (v' & st2 & new & Hp' & Hl' & Hn & Hs & Hr).
  rewrite Hp in Hp'. inversion Hp'; subst v' st2; clear Hp'. cbn [log] in Hl'.
  assert (Ew : w = EPrint (if b then MsgChangeCompleted (10 * Z.of_nat n)
                           else MsgSleepExpired)
                     :: new ++ [EPrint (MsgWaitingUpTo mw)]).
  { apply (app_inv_tail (log st)). rewrite <- Hl, Hl'.
    rewrite <- app_comm_cons, <- app_assoc. reflexivity. }
  exists n. subst w. unfold count in *.
  assert (F : forall p, p (EPrint (MsgWaitingUpTo mw)) = false ->
                        List.length (filter p (new ++ [EPrint (MsgWaitingUpTo mw)]))
                        = List.length (filter p new)).
  { intros p Hpf. rewrite filter_app, List.length_app. cbn [filter]. rewrite Hpf.
    simpl. lia. }
  split; [|split; [|split]].
  - destruct b; cbn [filter is_sleep]; rewrite F by reflexivity; assumption.
  - destruct b; cbn [filter is_version_read]; rewrite F by reflexivity; assumption.
  - destruct n as [|n']; [now left | right].
    destruct (Hearlier n' (Nat.lt_succ_diag_r n')) as (_ & _ & _ & _ & Hlt). lia.
  - constructor; [now destruct b|].
    apply Forall_app. split; [assumption | repeat constructor].
Qed.

End Pieces.

Lemma reading_no_sleep l :
  Forall (fun ev => reading ev = true) l ->
  Forall (fun ev => is_sleep ev = true -> ev = ESleep 10) l.
Proof.
  induction 1 as [|ev l Hev Hl IH]; constructor; [|assumption].
  destruct ev; try discriminate.
Qed.

Lemma exec_log_no_sleep {W} (sdk : SDK W) e b x :
  exec_log sdk e b x ->
  Forall (fun ev => is_sleep ev = true -> ev = ESleep 10) x.
Proof.
  intros H. apply exec_log_shape in H as (id & d & H). cbv zeta in H.
  destruct H as [[_ ->]|[[_ ->]|[_ ->]]]; repeat constructor; discriminate.
Qed.

(** What every log of the engine satisfies. *)
Lemma engine_log_facts {W} (sdk : SDK W) e mw n new :
  engine_log sdk e mw n new ->
  read_before_write new /\
  (count is_put new <= count is_get_state new)%nat /\
  (count is_get_state new <= count is_listing new)%nat /\
  (count is_listing new <= n)%nat /\
  Forall (fun ev => is_sleep ev = true -> ev = ESleep 10) new /\
  10 * Z.of_nat (count is_sleep new) <= Z.of_nat n * Z.max 0 (mw + 9).
Proof.
  induction 1 as [n pre Hpre Hl Hz
                 | n pre x [Hpre Hl] Hx
                 | n pre x w [Hpre Hl] Hx Hw
                 | n pre x w inner post [Hpre Hl] Hx Hw Hinner IH Hpost Hlp].
  - destruct (count_reading _ Hpre) as (C1 & C2 & C3 & C4).
    rewrite C1, C2, C3.
    split; [assumption|]. split; [lia|]. split; [lia|].
    split; [destruct n; [rewrite Hz by reflexivity; lia | lia]|].
    split; [now apply reading_no_sleep | nia].
  - destruct (count_reading _ Hpre) as (C1 & C2 & C3 & C4).
    destruct (exec_log_counts sdk _ _ _ Hx) as (X1 & X2 & X3 & X4 & X5).
    rewrite !count_app, C1, C2, C3, X1, X3, X4, Hl.
    split; [now apply read_before_write_app|].
    split; [lia|]. split; [lia|]. split; [lia|].
    split; [|nia].
    apply Forall_app.
    split; [now apply (exec_log_no_sleep sdk e false) | now apply reading_no_sleep].
  - destruct (count_reading _ Hpre) as (C1 & C2 & C3 & C4).
    destruct (exec_log_counts sdk _ _ _ Hx) as (X1 & X2 & X3 & X4 & X5).
    destruct (wait_log_counts sdk _ _ _ _ Hw) as (k & W1 & W2 & W3 & W4).
    destruct (count_wait_events _ W4) as (V1 & V2 & V3 & V4 & V5).
    rewrite !count_app, C1, C2, C3, X1, X3, X4, Hl, W1, V1, V2, V3.
    split; [apply read_before_write_app; [assumption | now apply read_before_write_app]|].
    split; [lia|]. split; [lia|]. split; [lia|].
    split; [|destruct W3 as [->|W3]; nia].
    apply Forall_app. split; [assumption|]. apply Forall_app.
    split; [now apply (exec_log_no_sleep sdk e true) | now apply reading_no_sleep].
  - destruct IH as (I1 & I2 & I3 & I4 & I5 & I6).
    destruct (count_reading _ Hpre) as (C1 & C2 & C3 & C4).
    destruct (count_reading _ Hpost) as (P1 & P2 & P3 & P4).
    destruct (exec_log_counts sdk _ _ _ Hx) as (X1 & X2 & X3 & X4 & X5).
    destruct (wait_log_counts sdk _ _ _ _ Hw) as (k & W1 & W2 & W3 & W4).
    destruct (count_wait_events _ W4) as (V1 & V2 & V3 & V4 & V5).
    rewrite !count_app, C1, C2, C3, X1, X3, X4, Hl, W1, V1, V2, V3, P1, P2, P3, Hlp.
    split; [repeat (apply read_before_write_app; [assumption|]); assumption|].
    split; [lia|]. split; [lia|]. split; [lia|].
    split; [|destruct W3 as [->|W3]; nia].
    repeat (apply Forall_app; split);
      try assumption; try (now apply reading_no_sleep);
      now apply (exec_log_no_sleep sdk e true).
Qed.

(* ================================================================= *)
(** ** Bounds on waiting *)

(** X7. A call of [wait_for_upgade] returns after [n] sleeps, each of 10
    seconds, and [n + 1] reads of the version, where either [n = 0] or the
    budget is positive and [10 * n < max_wait + 10]: it sleeps less than 10
    seconds beyond the budget, and not at all when the budget is zero or
    negative. It makes no other call. *)
Theorem wait_for_upgade_bounded {W : Type} (sdk : SDK W) (target_version : str)
        (element_id : element_ref) (max_wait : Z) (st : state W) :
  exists (b : bool) st' w (n : nat),
    wait_for_upgade sdk target_version element_id max_wait st = (Ret b, st') /\
    log st' = w ++ log st /\
    count is_sleep w = n /\ count is_version_read w = S n /\
    Forall (fun ev => is_sleep ev = true -> ev = ESleep 10) w /\
    (n = 0%nat \/ (0 < max_wait /\ 10 * Z.of_nat n < max_wait + 10)) /\
    count is_put w = 0%nat /\ count is_get_state w = 0%nat /\
    count is_listing w = 0%nat.
Proof.
  destruct (wait_for_upgade_log sdk target_version element_id max_wait st)
    as (b & st' & w & Hrun & Hl & _).
  assert (Hw : wait_log sdk element_id max_wait b w)
    by now exists target_version, st, st'.
  destruct (wait_log_counts sdk _ _ _ _ Hw) as (n & W1 & W2 & W3 & W4).
  destruct (count_wait_events _ W4) as (V1 & V2 & V3 & V4 & V5).
  exists b, st', w, n. repeat split; try assumption.
  destruct n as [|n']; [now left | right]. destruct W3 as [W3|W3]; lia.
Qed.

(** X8. Over a run of [staged_upgrade] or [staged_downgrade] called at
    [step], every sleep is of 10 seconds and the time slept is at most
    [(max_steps - step) * (max_wait + 9)] seconds, each factor counted as 0
    when it is negative. *)
Theorem staged_sleep_bounded {W : Type} (sdk : SDK W)
        (element_id : element_ref) (max_version : option str)
        (max_wait max_steps step : Z) (st : state W) :
  (exists r st' new,
      staged_upgrade sdk element_id max_version max_wait max_steps step st = (r, st') /\
      log st' = new ++ log st /\
      Forall (fun ev => is_sleep ev = true -> ev = ESleep 10) new /\
      10 * Z.of_nat (count is_sleep new)
      <= Z.max 0 (max_steps - step) * Z.max 0 (max_wait + 9)) /\
  (exists r st' new,
      staged_downgrade sdk element_id max_version max_wait max_steps step st = (r, st') /\
      log st' = new ++ log st /\
      Forall (fun ev => is_sleep ev = true -> ev = ESleep 10) new /\
      10 * Z.of_nat (count is_sleep new)
      <= Z.max 0 (max_steps - step) * Z.max 0 (max_wait + 9)).
Proof.
  assert (G : forall d table,
             exists r st' new,
               staged_change sdk d table (Z.to_nat (max_steps - step)) element_id
                             max_version max_wait max_steps step st = (r, st') /\
               log st' = new ++ log st /\
               Forall (fun ev => is_sleep ev = true -> ev = ESleep 10) new /\
               10 * Z.of_nat (count is_sleep new)
               <= Z.max 0 (max_steps - step) * Z.max 0 (max_wait + 9)).
  { intros d table.
    destruct (staged_change_engine_log sdk d table (Z.to_nat (max_steps - step))
                element_id max_version max_wait max_steps step st (Nat.le_refl _))
      as (r & st' & new & Hrun & Hl & Hshape).
    destruct (engine_log_facts sdk _ _ _ _ Hshape) as (_ & _ & _ & _ & F5 & F6).
    exists r, st', new. repeat split; try assumption.
    replace (Z.of_nat (Z.to_nat (max_steps - step))) with (Z.max 0 (max_steps - step))
      in F6 by lia.
    exact F6. }
  split; apply G.
Qed.

(* ================================================================= *)
(** ** Order of the calls in a run *)

(** X9. In a run of [staged_upgrade] or [staged_downgrade], every write of
    the software state comes right after the "Executing Firmware Change"
    line and a read of the software state of the same element, and the
    record written has a string under ["image_id"]; and there are at most as
    many writes as reads of the software state. *)
Theorem staged_read_before_write {W : Type} (sdk : SDK W)
        (element_id : element_ref) (max_version : option str)
        (max_wait max_steps step : Z) (st : state W) :
  (exists r st' new,
      staged_upgrade sdk element_id max_version max_wait max_steps step st = (r, st') /\
      log st' = new ++ log st /\
      read_before_write new /\
      (count is_put new <= count is_get_state new)%nat) /\
  (exists r st' new,
      staged_downgrade sdk element_id max_version max_wait max_steps step st = (r, st') /\
      log st' = new ++ log st /\
      read_before_write new /\
      (count is_put new <= count is_get_state new)%nat).
Proof.
  assert (G : forall d table,
             exists r st' new,
               staged_change sdk d table (Z.to_nat (max_steps - step)) element_id
                             max_version max_wait max_steps step st = (r, st') /\
               log st' = new ++ log st /\
               read_before_write new /\
               (count is_put new <= count is_get_state new)%nat).
  { intros d table.
    destruct (staged_change_engine_log sdk d table (Z.to_nat (max_steps - step))
                element_id max_version max_wait max_steps step st (Nat.le_refl _))
      as (r & st' & new & Hrun & Hl & Hshape).
    destruct (engine_log_facts sdk _ _ _ _ Hshape) as (F1 & F2 & _).
    exists r, st', new. repeat split; assumption. }
  split; apply G.
Qed.

(** X10. In a run of [staged_upgrade] or [staged_downgrade] called at
    [step], the image list is read afresh for every step: there are at
    least as many reads of the image list as calls of [execute_upgrade], and
    at most [max_steps - step] of them. *)
Theorem staged_lists_images_every_step {W : Type} (sdk : SDK W)
        (element_id : element_ref) (max_version : option str)
        (max_wait max_steps step : Z) (st : state W) :
  (exists r st' new,
      staged_upgrade sdk element_id max_version max_wait max_steps step st = (r, st') /\
      log st' = new ++ log st /\
      (count is_get_state new <= count is_listing new)%nat /\
      (count is_listing new <= Z.to_nat (max_steps - step))%nat) /\
  (exists r st' new,
      staged_downgrade sdk element_id max_version max_wait max_steps step st = (r, st') /\
      log st' = new ++ log st /\
      (count is_get_state new <= count is_listing new)%nat /\
      (count is_listing new <= Z.to_nat (max_steps - step))%nat).
Proof.
  assert (G : forall d table,
             exists r st' new,
               staged_change sdk d table (Z.to_nat (max_steps - step)) element_id
                             max_version max_wait max_steps step st = (r, st') /\
               log st' = new ++ log st /\
               (count is_get_state new <= count is_listing new)%nat /\
               (count is_listing new <= Z.to_nat (max_steps - step))%nat).
  { intros d table.
    destruct (staged_change_engine_log sdk d table (Z.to_nat (max_steps - step))
                element_id max_version max_wait max_steps step st (Nat.le_refl _))
      as (r & st' & new & Hrun & Hl & Hshape).
    destruct (engine_log_facts sdk _ _ _ _ Hshape) as (_ & _ & F3 & F4 & _).
    exists r, st', new. repeat split; assumption. }
  split; apply G.
Qed.

(* ================================================================= *)
(** ** The caller [go] *)

Lemma compare_versions_values c t a :
  compare_versions c t = Some a -> a = $"upgrade" \/ a = $"downgrade".
Proof.
  destruct c as [[c1 c2] c3], t as [[t1 t2] t3]. rewrite compare_versions_eq.
  destruct (c1 <? t1); [intros H; inversion H; now left|].
  destruct (t1 <? c1); [intros H; inversion H; now right|].
  destruct (c2 <? t2); [intros H; inversion H; now left|].
  destruct (t2 <? c2); [intros H; inversion H; now right | discriminate].
Qed.

Lemma major_minor_micro_opt_no_oof v : major_minor_micro_opt v <> OutOfFuel.
Proof. destruct v; [apply major_minor_micro_no_oof | discriminate]. Qed.

Section Caller.
Context {W : Type} (sdk : SDK W).

Lemma find_ion_by_sn_log serial st :
  exists r st' new,
    find_ion_by_sn sdk serial st = (r, st') /\ log st' = new ++ log st /\
    Forall (fun ev => front_event ev = true) new /\
    count is_element_listing new = 1%nat /\
    r <> OutOfFuel /\
    (forall id, r = Ret (Some id) -> count go_refusal new = 0%nat) /\
    (r = Ret None -> (0 < count go_refusal new)%nat).
Proof.
  unfold find_ion_by_sn, bind, call, print, ret, lift.
  destruct (sdk_get_elements sdk (world st)) as [r w].
  destruct (negb (cgx_status r)); cbn [world log].
  { eexists; eexists; exists [EPrint MsgErrListIons; EGetElements].
    repeat split; try discriminate; repeat constructor. }
  destruct (cgx_content r) as [l|].
  2:{ eexists; eexists; exists [EGetElements].
      repeat split; try discriminate; repeat constructor. }
  destruct (find_hw_id serial l) as [id|].
  - eexists; eexists; exists [EGetElements].
    repeat split; try discriminate; repeat constructor.
  - eexists; eexists; exists [EPrint (MsgSerialNotFound serial); EGetElements].
    repeat split; try discriminate; repeat constructor.
Qed.

Ltac decided l :=
  eexists; eexists; exists l;
  split; [reflexivity|]; split; [reflexivity|];
  split; [repeat constructor|]; split; [reflexivity|];
  split; [first [discriminate | assumption]|];
  split; [intros ? ?; discriminate | intros ?; discriminate].

Lemma is_upgrade_or_downgrade_log e target st :
  exists r st' new,
    is_upgrade_or_downgrade sdk e target st = (r, st') /\ log st' = new ++ log st /\
    Forall (fun ev => front_event ev = true) new /\
    count is_element_listing new = 0%nat /\
    r <> OutOfFuel /\
    (forall a, r = Ret (Some a) ->
               count go_refusal new = 0%nat /\ (a = $"upgrade" \/ a = $"downgrade")) /\
    (r = Ret None -> (0 < count go_refusal new)%nat).
Proof.
  unfold is_upgrade_or_downgrade. unfold bind at 1.
  destruct (get_images_list_run sdk st) as (r & w & -> & Hr).
  destruct r as [imgs|x|]; [|decided [EGetImages]|congruence].
  unfold bind at 1.
  destruct (get_element_sw_version_run sdk e (State w (EGetImages :: log st)))
    as (cur & w1 & ->). cbn [log].
  unfold bind at 1, lift at 1.
  destruct imgs as [image_dict|]; cbn [require_dict];
    [|decided [EGetElement e; EGetImages]].
  unfold bind at 1.
  pose proof (py_best_no_oof (fun a b => tuple_ltb b a) (dict_keys image_dict)) as Hpick.
  fold py_max in Hpick.
  assert (Hmv : exists rv,
             (if truthy target
              then ret (match target with Some v => v | None => [] end)
              else lift (py_max (dict_keys image_dict)))
               (State w1 (EGetElement e :: EGetImages :: log st))
             = (rv, State w1 (EGetElement e :: EGetImages :: log st))
             /\ rv <> OutOfFuel).
  { destruct (truthy target); unfold ret, lift; eexists; split; try reflexivity;
      [discriminate | assumption]. }
  destruct Hmv as (rv & -> & Hrv).
  destruct rv as [tv|x|]; [|decided [EGetElement e; EGetImages]|congruence].
  unfold bind at 1, lift at 1.
  pose proof (major_minor_micro_opt_no_oof (get_exact_major_minor_micro tv image_dict)) as Ht.
  destruct (major_minor_micro_opt (get_exact_major_minor_micro tv image_dict)) as [t|x|];
    [|decided [EGetElement e; EGetImages]|congruence].
  unfold bind at 1, lift at 1.
  pose proof (major_minor_micro_opt_no_oof cur) as Hc.
  destruct (major_minor_micro_opt cur) as [c|x|];
    [|decided [EGetElement e; EGetImages]|congruence].
  destruct (compare_versions c t) as [a|] eqn:Ecmp.
  - eexists; eexists; exists [EGetElement e; EGetImages].
    split; [reflexivity|]. split; [reflexivity|].
    split; [repeat constructor|]. split; [reflexivity|].
    split; [discriminate|]. split; [|discriminate].
    intros a' H. inversion H; subst a'. split; [reflexivity|].
    exact (compare_versions_values _ _ _ Ecmp).
  - unfold bind, print, ret. cbn [world log].
    eexists; eexists; exists [EPrint MsgSameVersion; EGetElement e; EGetImages].
    split; [reflexivity|]. split; [reflexivity|].
    split; [repeat constructor|]. split; [reflexivity|].
    split; [discriminate|]. split; [intros a H; discriminate|].
    intros _. cbv. lia.
Qed.

End Caller.

Lemma count_front_events l :
  Forall (fun ev => front_event ev = true) l ->
  count is_put l = 0%nat /\ count is_get_state l = 0%nat /\ count is_sleep l = 0%nat.
Proof.
  unfold count. induction 1 as [|ev l Hev Hl (I1 & I2 & I3)]; simpl; [now repeat split|].
  destruct ev; try discriminate; simpl; now repeat split.
Qed.

Lemma reading_quiet l :
  Forall (fun ev => reading ev = true) l ->
  count go_refusal l = 0%nat /\ count is_element_listing l = 0%nat.
Proof.
  unfold count. induction 1 as [|ev l Hev Hl (I1 & I2)]; simpl; [now split|].
  destruct ev as [| | | | | |m]; try discriminate; simpl; try (now split).
  destruct m; try discriminate; simpl; now split.
Qed.

Lemma wait_events_quiet l :
  Forall (fun ev => wait_event ev = true) l ->
  count go_refusal l = 0%nat /\ count is_element_listing l = 0%nat.
Proof.
  unfold count. induction 1 as [|ev l Hev Hl (I1 & I2)]; simpl; [now split|].
  destruct ev as [| | | | | |m]; try discriminate; simpl; try (now split).
  destruct m; try discriminate; simpl; now split.
Qed.

(** The engine prints none of the lines of [go] and never reads the list of
    elements. *)
Lemma engine_log_quiet {W} (sdk : SDK W) e mw n new :
  engine_log sdk e mw n new ->
  count go_refusal new = 0%nat /\ count is_element_listing new = 0%nat.
Proof.
  assert (X : forall b x, exec_log sdk e b x ->
                          count go_refusal x = 0%nat /\
                          count is_element_listing x = 0%nat).
  { intros b x H. apply exec_log_shape in H as (id & d & H). cbv zeta in H.
    destruct H as [[_ ->]|[[_ ->]|[_ ->]]]; split; reflexivity. }
  assert (Wq : forall b w, wait_log sdk e mw b w ->
                           count go_refusal w = 0%nat /\
                           count is_element_listing w = 0%nat).
  { intros b w H. destruct (wait_log_counts sdk _ _ _ _ H) as (k & _ & _ & _ & H4).
    now apply wait_events_quiet. }
  induction 1 as [n pre Hpre Hl Hz
                 | n pre x [Hpre Hl] Hx
                 | n pre x w [Hpre Hl] Hx Hw
                 | n pre x w inner post [Hpre Hl] Hx Hw Hinner [I1 I2] Hpost Hlp].
  - now apply reading_quiet.
  - destruct (reading_quiet _ Hpre) as [C1 C2]. destruct (X _ _ Hx) as [X1 X2].
    rewrite !count_app, C1, C2, X1, X2. now split.
  - destruct (reading_quiet _ Hpre) as [C1 C2]. destruct (X _ _ Hx) as [X1 X2].
    destruct (Wq _ _ Hw) as [W1 W2].
    rewrite !count_app, C1, C2, X1, X2, W1, W2. now split.
  - destruct (reading_quiet _ Hpre) as [C1 C2]. destruct (X _ _ Hx) as [X1 X2].
    destruct (Wq _ _ Hw) as [W1 W2]. destruct (reading_quiet _ Hpost) as [P1 P2].
    rewrite !count_app, C1, C2, X1, X2, W1, W2, P1, P2, I1, I2. now split.
Qed.

Lemma py_int_raises s x : py_int s = Raise x -> x = ValueError.
Proof.
  unfold py_int.
  destruct (match strip_space s with
            | [] => _
            | c :: s' => _
            end) as [negative body].
  destruct (int_literal body); [|congruence].
  destruct (_ >? _); congruence.
Qed.

Section CallerRuns.
Context {W : Type} (sdk : SDK W).

(** A run of [go] either stops before the engine, having only read and
    printed, or its log is the log of one run of the engine on top of reads
    and lines that hold no refusal. *)
Lemma go_run CLIARGS st :
  exists r st' new,
    go sdk CLIARGS st = (r, st') /\ log st' = new ++ log st /\
    r <> OutOfFuel /\
    match py_int (max_steps CLIARGS), py_int (max_wait CLIARGS) with
    | Ret ms, Ret mw =>
        (Forall (fun ev => front_event ev = true) new /\
         count is_element_listing new = 1%nat /\ r <> Ret None)
        \/
        (exists eng front eid,
            new = eng ++ front /\
            engine_log sdk eid mw (Z.to_nat ms) eng /\
            Forall (fun ev => front_event ev = true) front /\
            count is_element_listing front = 1%nat /\
            count go_refusal front = 0%nat)
    | _, _ => r = Raise ValueError /\ new = [] /\ st' = st
    end.
Proof.
  unfold go. cbv zeta. unfold bind at 1, lift at 1.
  destruct (py_int (max_steps CLIARGS)) as [ms|x|] eqn:Ems;
    [| |now apply py_int_no_oof in Ems].
  2:{ apply py_int_raises in Ems as ->.
      exists (Raise ValueError), st, []. repeat split; discriminate. }
  unfold bind at 1, lift at 1.
  destruct (py_int (max_wait CLIARGS)) as [mw|x|] eqn:Emw;
    [| |now apply py_int_no_oof in Emw].
  2:{ apply py_int_raises in Emw as ->.
      exists (Raise ValueError), st, []. repeat split; discriminate. }
  unfold bind at 1.
  destruct (find_ion_by_sn_log sdk (ion_serial CLIARGS) st)
    as (r1 & st1 & new1 & -> & Hl1 & Hf1 & He1 & Ho1 & Hs1 & Hn1).
  destruct r1 as [eid|x|]; [| |congruence].
  2:{ exists (Raise x), st1, new1. split; [reflexivity|]. split; [assumption|].
      split; [discriminate|]. left. repeat split; try assumption. discriminate. }
  unfold bind at 1.
  destruct (is_upgrade_or_downgrade_log sdk eid (version_target CLIARGS) st1)
    as (r2 & st2 & new2 & -> & Hl2 & Hf2 & He2 & Ho2 & Hs2 & Hn2).
  assert (Hl12 : log st2 = (new2 ++ new1) ++ log st)
    by now rewrite Hl2, Hl1, app_assoc.
  assert (Hf12 : Forall (fun ev => front_event ev = true) (new2 ++ new1))
    by (apply Forall_app; now split).
  assert (He12 : count is_element_listing (new2 ++ new1) = 1%nat)
    by (rewrite count_app; lia).
  destruct r2 as [act|x|]; [| |congruence].
  2:{ exists (Raise x), st2, (new2 ++ new1). split; [reflexivity|].
      split; [assumption|]. split; [discriminate|].
      left. repeat split; try assumption. discriminate. }
  destruct act as [a|].
  2:{ cbn [truthy negb]. unfold bind, print, ret. cbn [world log].
      eexists; eexists; exists (EPrint MsgUndetermined :: new2 ++ new1).
      split; [reflexivity|]. split; [now rewrite Hl12|].
      split; [discriminate|]. left.
      split; [constructor; [reflexivity | assumption]|].
      split; [exact He12 | discriminate]. }
  destruct (Hs2 a eq_refl) as [Hq2 Ha].
  assert (Ta : truthy (Some a) = true) by (destruct Ha as [->| ->]; reflexivity).
  rewrite Ta. cbn [negb].
  destruct (negb (str_eqb (action CLIARGS) $"auto")
            && negb (str_eqb (action CLIARGS) a)).
  { unfold bind, print, ret. cbn [world log].
    eexists; eexists; exists (EPrint (MsgActionMismatch (action CLIARGS) a) :: new2 ++ new1).
    split; [reflexivity|]. split; [now rewrite Hl12|].
    split; [discriminate|]. left.
    split; [constructor; [reflexivity | assumption]|].
    split; [exact He12 | discriminate]. }
  unfold bind at 1.
  assert (Hauto : exists st3 front,
             (if str_eqb (action CLIARGS) $"auto"
              then print (MsgAutoAction a) else ret tt) st2 = (Ret tt, st3) /\
             log st3 = front ++ log st /\
             Forall (fun ev => front_event ev = true) front /\
             count is_element_listing front = 1%nat /\
             count go_refusal front =
             (count go_refusal new2 + count go_refusal new1)%nat).
  { destruct (str_eqb (action CLIARGS) $"auto"); unfold print, ret.
    - eexists; exists (EPrint (MsgAutoAction a) :: new2 ++ new1).
      split; [reflexivity|]. cbn [log]. split; [now rewrite Hl12|].
      split; [constructor; [reflexivity | assumption]|].
      split; [exact He12|]. unfold count. cbn [filter go_refusal].
      fold (count go_refusal (new2 ++ new1)). now rewrite count_app.
    - exists st2, (new2 ++ new1). repeat split; try assumption.
      now rewrite count_app. }
  destruct Hauto as (st3 & front & -> & Hl3 & Hf3 & He3 & Hq3).
  destruct eid as [id|]; cbn [truthy negb].
  2:{ exists (Ret (Some false)), st3, front. split; [reflexivity|].
      split; [assumption|]. split; [discriminate|].
      left. repeat split; try assumption. discriminate. }
  destruct id as [|c id]; cbn [negb].
  { exists (Ret (Some false)), st3, front. split; [reflexivity|].
    split; [assumption|]. split; [discriminate|].
    left. repeat split; try assumption. discriminate. }
  assert (Hq : count go_refusal front = 0%nat).
  { rewrite Hq3, Hq2, (Hs1 _ eq_refl). reflexivity. }
  assert (G : forall d table,
             exists r st' new,
               (staged_change sdk d table (Z.to_nat (ms - 0))
                              (Some (c :: id)) (version_target CLIARGS)
                              mw ms 0 ;; ret (None : option bool)) st3
               = (r, st') /\
               log st' = new ++ log st /\ r <> OutOfFuel /\
               exists eng front0 eid,
                 new = eng ++ front0 /\
                 engine_log sdk eid mw (Z.to_nat ms) eng /\
                 Forall (fun ev => front_event ev = true) front0 /\
                 count is_element_listing front0 = 1%nat /\
                 count go_refusal front0 = 0%nat).
  { intros d table.
    destruct (staged_change_engine_log sdk d table (Z.to_nat (ms - 0))
                (Some (c :: id)) (version_target CLIARGS) mw
                ms 0 st3 (Nat.le_refl _))
      as (r & st' & eng & Hrun & Hle & Hshape).
    pose proof (staged_change_false_or_none sdk d table (Some (c :: id))
                  (version_target CLIARGS) mw ms 0 st3)
      as [Hoof _].
    rewrite Hrun in Hoof. cbn [fst] in Hoof.
    rewrite Z.sub_0_r in Hshape.
    unfold bind. rewrite Hrun.
    destruct r as [v|x|]; [| |congruence].
    - exists (Ret None), st', (eng ++ front). split; [reflexivity|].
      split; [now rewrite Hle, Hl3, app_assoc|]. split; [discriminate|].
      exists eng, front, (Some (c :: id)). repeat split; assumption.
    - exists (Raise x), st', (eng ++ front). split; [reflexivity|].
      split; [now rewrite Hle, Hl3, app_assoc|]. split; [discriminate|].
      exists eng, front, (Some (c :: id)). repeat split; assumption. }
  destruct Ha as [-> | ->].
  - change (str_eqb $"upgrade" $"upgrade") with true. cbv iota.
    destruct (G Upgrade upgrade_path_regex) as (r & st' & new & Hrun & Hl & Ho & Hb).
    exists r, st', new. split; [exact Hrun|]. split; [assumption|].
    split; [assumption|]. right. exact Hb.
  - change (str_eqb $"downgrade" $"upgrade") with false.
    change (str_eqb $"downgrade" $"downgrade") with true. cbv iota.
    destruct (G Downgrade downgrade_path_regex) as (r & st' & new & Hrun & Hl & Ho & Hb).
    exists r, st', new. split; [exact Hrun|]. split; [assumption|].
    split; [assumption|]. right. exact Hb.
Qed.

End CallerRuns.

Lemma front_read_before_write l :
  Forall (fun ev => front_event ev = true) l -> read_before_write l.
Proof.
  induction 1 as [|ev l Hev Hl IH]; [exact I|].
  destruct ev; try discriminate; exact IH.
Qed.

(** X11. [go] first runs [int()] on its two numeric arguments, which
    [parse_arguments] leaves as strings: when one of them is refused the
    call raises [ValueError] before any call is made or line printed.
    Otherwise the run ends and reads the list of elements exactly once.
    When a run prints one of the refusal lines of [go] (the list of
    elements could not be read, the serial number was not found, the
    versions are the same, the action could not be determined, the action
    asked for is not the one found), it changes nothing: it reads no
    software state, writes none, does not sleep, and does not end with the
    value [None] of a call that reached the engine. *)
Theorem go_refusal_changes_nothing {W : Type} (sdk : SDK W)
        (CLIARGS : cliargs) (st : state W) :
  exists r st' new,
    go sdk CLIARGS st = (r, st') /\ log st' = new ++ log st /\
    r <> OutOfFuel /\
    match py_int (max_steps CLIARGS), py_int (max_wait CLIARGS) with
    | Ret _, Ret _ => count is_element_listing new = 1%nat
    | _, _ => r = Raise ValueError /\ new = [] /\ st' = st
    end /\
    ((0 < count go_refusal new)%nat ->
     count is_put new = 0%nat /\ count is_get_state new = 0%nat /\
     count is_sleep new = 0%nat /\ r <> Ret None).
Proof.
  destruct (go_run sdk CLIARGS st) as (r & st' & new & Hrun & Hl & Ho & Hcase).
  exists r, st', new. split; [exact Hrun|]. split; [exact Hl|]. split; [exact Ho|].
  assert (Hbad : r = Raise ValueError /\ new = [] /\ st' = st ->
                 (0 < count go_refusal new)%nat ->
                 count is_put new = 0%nat /\ count is_get_state new = 0%nat /\
                 count is_sleep new = 0%nat /\ r <> Ret None).
  { intros (-> & -> & _) H. cbv in H. lia. }
  destruct (py_int (max_steps CLIARGS)) as [ms|x|];
    [|split; [exact Hcase | exact (Hbad Hcase)]..].
  destruct (py_int (max_wait CLIARGS)) as [mw|x|];
    [|split; [exact Hcase | exact (Hbad Hcase)]..].
  destruct Hcase as [(Hf & He & Hr) | (eng & front & eid & -> & Heng & Hf & He & Hq)].
  - split; [exact He|]. intros _.
    destruct (count_front_events _ Hf) as (C1 & C2 & C3).
    repeat split; assumption.
  - destruct (engine_log_quiet sdk _ _ _ _ Heng) as [Q1 Q2].
    rewrite !count_app, Q1, Q2, He, Hq. split; [reflexivity|].
    intros H. exfalso. revert H. apply Nat.lt_irrefl.
Qed.

(** X12. In a run of [go], the software state is read at most [max_steps]
    times and written no more often than it is read, every write comes
    right after the "Executing Firmware Change" line and a read of the
    software state of the same element, every sleep is of 10 seconds, and
    the time slept is at most [max_steps * (max_wait + 9)] seconds, each
    factor counted as 0 when it is negative; [max_steps] and [max_wait]
    are the numbers that [int()] reads from the two arguments, and when it
    refuses one of them nothing is called at all. *)
Theorem go_change_budget {W : Type} (sdk : SDK W)
        (CLIARGS : cliargs) (st : state W) :
  exists r st' new,
    go sdk CLIARGS st = (r, st') /\ log st' = new ++ log st /\
    read_before_write new /\
    (count is_put new <= count is_get_state new)%nat /\
    Forall (fun ev => is_sleep ev = true -> ev = ESleep 10) new /\
    match py_int (max_steps CLIARGS), py_int (max_wait CLIARGS) with
    | Ret max_steps, Ret max_wait =>
        (count is_get_state new <= Z.to_nat max_steps)%nat /\
        10 * Z.of_nat (count is_sleep new)
        <= Z.max 0 max_steps * Z.max 0 (max_wait + 9)
    | _, _ => new = []
    end.
Proof.
  destruct (go_run sdk CLIARGS st) as (r & st' & new & Hrun & Hl & Ho & Hcase).
  exists r, st', new. split; [exact Hrun|]. split; [exact Hl|].
  assert (Hbad : r = Raise ValueError /\ new = [] /\ st' = st ->
                 read_before_write new /\
                 (count is_put new <= count is_get_state new)%nat /\
                 Forall (fun ev => is_sleep ev = true -> ev = ESleep 10) new /\
                 new = []).
  { intros (_ & -> & _). split; [exact I|]. split; [apply Nat.le_refl|].
    split; [constructor | reflexivity]. }
  destruct (py_int (max_steps CLIARGS)) as [ms|x|]; [|exact (Hbad Hcase)..].
  destruct (py_int (max_wait CLIARGS)) as [mw|x|]; [|exact (Hbad Hcase)..].
  destruct Hcase as [(Hf & He & Hr) | (eng & front & eid & -> & Heng & Hf & He & Hq)].
  - destruct (count_front_events _ Hf) as (C1 & C2 & C3).
    rewrite C1, C2, C3.
    split; [now apply front_read_before_write|].
    split; [lia|]. split; [|split; [lia | nia]].
    eapply Forall_impl; [|exact Hf].
    intros ev Hev Hs. destruct ev; discriminate.
  - destruct (count_front_events _ Hf) as (C1 & C2 & C3).
    destruct (engine_log_facts sdk _ _ _ _ Heng) as (F1 & F2 & F3 & F4 & F5 & F6).
    rewrite !count_app, C1, C2, C3, !Nat.add_0_r.
    split; [apply read_before_write_app;
            [exact F1 | now apply front_read_before_write]|].
    split; [exact F2|]. split; [|split; [lia|]].
    + apply Forall_app. split; [exact F5|].
      eapply Forall_impl; [|exact Hf].
      intros ev Hev Hs. destruct ev; discriminate.
    + replace (Z.max 0 ms) with (Z.of_nat (Z.to_nat ms)) by lia.
      exact F6.
Qed.

(* ================================================================= *)
(** ** Outcomes of [is_upgrade_or_downgrade] *)

Lemma no_key_contains images t :
  (forall i, In i images -> str_in t (image_version i) = false) ->
  get_exact_major_minor_micro t (images_to_dict images []) = None.
Proof.
  intros H. unfold get_exact_major_minor_micro. apply get_exact_in_none.
  intros x Hx. rewrite images_to_dict_keys in Hx. cbn [dict_keys map Datatypes.app] in Hx.
  apply first_occurrences_in, filter_In in Hx as [Hx _].
  apply in_map_iff in Hx as (i & <- & Hi). now apply H.
Qed.

(** X13. [is_upgrade_or_downgrade] lists the images and then reads the
    version of the device, whatever the first call answers. A failed image
    listing ends in the [AttributeError] of [None.keys()]; a listing without
    items in the [TypeError] of iterating [None], before the device is read;
    a target that no listed version contains in the [TypeError] of searching
    [None]; a device version that cannot be read always in an exception.
    When the function returns, both calls succeeded, the value is
    ["upgrade"], ["downgrade"] or [None], and the same-version line is
    printed exactly with [None]. *)
Theorem is_upgrade_or_downgrade_outcomes {W : Type} (sdk : SDK W)
        (element_id : element_ref) (target_version : option str) (st : state W) :
  let (listed, w1) := sdk_get_element_images sdk (world st) in
  let (got, w2) := sdk_get_element sdk element_id w1 in
  let run := is_upgrade_or_downgrade sdk element_id target_version st in
  let front := EGetElement element_id :: EGetImages :: log st in
  (cgx_status listed = false -> run = (Raise AttributeError, State w2 front)) /\
  (cgx_status listed = true -> cgx_content listed = None ->
   run = (Raise TypeError, State w1 (EGetImages :: log st))) /\
  (forall images t,
      cgx_status listed = true -> cgx_content listed = Some images ->
      target_version = Some t -> t <> [] ->
      (forall i, In i images -> str_in t (image_version i) = false) ->
      run = (Raise TypeError, State w2 front)) /\
  (forall images,
      cgx_status listed = true -> cgx_content listed = Some images ->
      cgx_status got = false \/ cgx_content got = None ->
      exists x, run = (Raise x, State w2 front)) /\
  (forall v st',
      run = (Ret v, st') ->
      cgx_status listed = true /\ cgx_status got = true /\ world st' = w2 /\
      (((v = Some $"upgrade" \/ v = Some $"downgrade") /\ log st' = front) \/
       (v = None /\ log st' = EPrint MsgSameVersion :: front))).
Proof.
  destruct (sdk_get_element_images sdk (world st)) as [listed w1] eqn:E1.
  destruct (sdk_get_element sdk element_id w1) as [got w2] eqn:E2.
  cbv zeta.
  remember (is_upgrade_or_downgrade sdk element_id target_version st) as run eqn:R.
  unfold is_upgrade_or_downgrade, get_images_list, get_element_sw_version in R.
  unfold bind, call in R. cbn [world log] in R. rewrite E1 in R.
  destruct (cgx_status listed) eqn:S1.
  2:{ unfold ret in R. cbn [world log] in R. rewrite E2 in R.
      assert (R' : run = (Raise AttributeError,
                          State w2 (EGetElement element_id :: EGetImages :: log st))).
      { rewrite R. destruct (cgx_status got); reflexivity. }
      clear R. subst run.
      split; [reflexivity|]. split; [discriminate|].
      split; [discriminate|]. split; [discriminate|]. discriminate. }
  destruct (cgx_content listed) as [images|] eqn:C1.
  2:{ unfold lift in R. subst run.
      split; [discriminate|]. split; [reflexivity|].
      split; [discriminate|]. split; [discriminate|]. discriminate. }
  unfold ret in R at 1. cbn [world log] in R. rewrite E2 in R.
  set (cur := if cgx_status got then cgx_content got else None).
  assert (Hc : forall s : state W,
             (if cgx_status got then ret (cgx_content got) else ret None) s
             = (Ret cur, s)).
  { intros s. unfold cur. destruct (cgx_status got); reflexivity. }
  rewrite Hc in R. clear Hc.
  unfold lift in R. cbn [require_dict] in R.
  split; [discriminate|]. split; [discriminate|].
  assert (T3 : forall images0 t,
             Some images = Some images0 -> target_version = Some t -> t <> [] ->
             (forall i, In i images0 -> str_in t (image_version i) = false) ->
             truthy target_version = true /\
             major_minor_micro_opt
               (get_exact_major_minor_micro
                  (match target_version with Some v => v | None => [] end)
                  (images_to_dict images [])) = Raise TypeError).
  { intros images0 t Hi -> Hne Hno. injection Hi as <-.
    split; [destruct t; [congruence | reflexivity]|].
    now rewrite (no_key_contains _ _ Hno). }
  assert (T4 : cgx_status got = false \/ cgx_content got = None ->
               major_minor_micro_opt cur = Raise TypeError).
  { intros Hgot. unfold cur. destruct Hgot as [-> | ->]; [reflexivity|].
    destruct (cgx_status got); reflexivity. }
  assert (T5 : forall c, major_minor_micro_opt cur = Ret c -> cgx_status got = true).
  { intros c. unfold cur. destruct (cgx_status got); [reflexivity | discriminate]. }
  clearbody cur.
  destruct (truthy target_version) eqn:T.
  - unfold ret in R at 1.
    destruct (major_minor_micro_opt
                (get_exact_major_minor_micro
                   (match target_version with Some v => v | None => [] end)
                   (images_to_dict images []))) as [tg|x|] eqn:G;
      [| |now apply major_minor_micro_opt_no_oof in G].
    + destruct (major_minor_micro_opt cur) as [c|x|] eqn:Cu;
        [| |now apply major_minor_micro_opt_no_oof in Cu].
      * pose proof (T5 c eq_refl) as S2.
        destruct (compare_versions c tg) as [a|] eqn:Cv;
          unfold ret, print in R; cbn [world log] in R; subst run.
        -- split; [intros images0 t _ Hi Ht Hne Hno;
                   destruct (T3 images0 t Hi Ht Hne Hno) as [_ D]; discriminate D|].
           split; [intros images0 _ _ Hgot; discriminate (T4 Hgot)|].
           intros v st' H. injection H as <- <-.
           split; [reflexivity|]. split; [exact S2|]. split; [reflexivity|].
           left. split; [|reflexivity].
           destruct (compare_versions_values _ _ _ Cv) as [-> | ->]; [now left | now right].
        -- split; [intros images0 t _ Hi Ht Hne Hno;
                   destruct (T3 images0 t Hi Ht Hne Hno) as [_ D]; discriminate D|].
           split; [intros images0 _ _ Hgot; discriminate (T4 Hgot)|].
           intros v st' H. injection H as <- <-.
           split; [reflexivity|]. split; [exact S2|]. split; [reflexivity|].
           right. split; reflexivity.
      * subst run.
        split; [intros images0 t _ Hi Ht Hne Hno;
                destruct (T3 images0 t Hi Ht Hne Hno) as [_ D]; discriminate D|].
        split; [intros images0 _ _ Hgot; eexists; reflexivity | discriminate].
    + subst run.
      split; [intros images0 t _ Hi Ht Hne Hno;
              destruct (T3 images0 t Hi Ht Hne Hno) as [_ D];
              injection D as ->; reflexivity|].
      split; [intros images0 _ _ Hgot; eexists; reflexivity | discriminate].
  - destruct (py_max (dict_keys (images_to_dict images []))) as [t0|x|] eqn:P;
      [| |now apply py_best_no_oof in P].
    + destruct (major_minor_micro_opt
                  (get_exact_major_minor_micro t0 (images_to_dict images [])))
        as [tg|x|] eqn:G; [| |now apply major_minor_micro_opt_no_oof in G].
      * destruct (major_minor_micro_opt cur) as [c|x|] eqn:Cu;
          [| |now apply major_minor_micro_opt_no_oof in Cu].
        -- pose proof (T5 c eq_refl) as S2.
           destruct (compare_versions c tg) as [a|] eqn:Cv;
             unfold ret, print in R; cbn [world log] in R; subst run.
           ++ split; [intros images0 t _ Hi Ht Hne Hno;
                      destruct (T3 images0 t Hi Ht Hne Hno) as [D _]; discriminate D|].
              split; [intros images0 _ _ Hgot; discriminate (T4 Hgot)|].
              intros v st' H. injection H as <- <-.
              split; [reflexivity|]. split; [exact S2|]. split; [reflexivity|].
              left. split; [|reflexivity].
              destruct (compare_versions_values _ _ _ Cv) as [-> | ->];
                [now left | now right].
           ++ split; [intros images0 t _ Hi Ht Hne Hno;
                      destruct (T3 images0 t Hi Ht Hne Hno) as [D _]; discriminate D|].
              split; [intros images0 _ _ Hgot; discriminate (T4 Hgot)|].
              intros v st' H. injection H as <- <-.
              split; [reflexivity|]. split; [exact S2|]. split; [reflexivity|].
              right. split; reflexivity.
        -- subst run.
           split; [intros images0 t _ Hi Ht Hne Hno;
                   destruct (T3 images0 t Hi Ht Hne Hno) as [D _]; discriminate D|].
           split; [intros images0 _ _ Hgot; eexists; reflexivity | discriminate].
      * subst run.
        split; [intros images0 t _ Hi Ht Hne Hno;
                destruct (T3 images0 t Hi Ht Hne Hno) as [D _]; discriminate D|].
        split; [intros images0 _ _ Hgot; eexists; reflexivity | discriminate].
    + subst run.
      split; [intros images0 t _ Hi Ht Hne Hno;
              destruct (T3 images0 t Hi Ht Hne Hno) as [D _]; discriminate D|].
      split; [intros images0 _ _ Hgot; eexists; reflexivity | discriminate].
Qed.

(* ================================================================= *)
(** ** How a step of the engine ends before any change *)

Lemma opt_eqb_refl a : opt_eqb a a = true.
Proof. destruct a; [apply str_eqb_refl | reflexivity]. Qed.

Lemma opt_eqb_neq a b : a <> b -> opt_eqb a b = false.
Proof.
  destruct a as [x|], b as [y|]; cbn [opt_eqb]; intros H;
    [apply str_eqb_neq; congruence | reflexivity | reflexivity | congruence].
Qed.

Section Planning.
Context {W : Type} (sdk : SDK W).

Lemma staged_change_plan d table fuel e mv mw ms step st :
  step + 1 <= ms ->
  let (listed, w1) := sdk_get_element_images sdk (world st) in
  let (got, w2) := sdk_get_element sdk e w1 in
  let run := staged_change sdk d table (S fuel) e mv mw ms step st in
  let front := EGetElement e :: EGetImages :: log st in
  let cur := if cgx_status got then cgx_content got else None in
  (cgx_status listed = false -> run = (Raise AttributeError, State w2 front)) /\
  (forall images t,
      cgx_status listed = true -> cgx_content listed = Some images ->
      mv = Some t -> t <> [] ->
      cur = Some t \/
      cur = get_exact_major_minor_micro t (images_to_dict images []) ->
      run = (Ret (Some false),
             State w2 (match d with
                       | Upgrade => EPrint MsgAtMax :: front
                       | Downgrade =>
                           if step + 1 =? 1 then EPrint MsgAtMax :: front else front
                       end))) /\
  (forall images t,
      cgx_status listed = true -> cgx_content listed = Some images ->
      mv = Some t -> t <> [] ->
      cur <> Some t -> cur <> None ->
      (forall i, In i images -> str_in t (image_version i) = false) ->
      run = (Ret (Some false), State w2 (EPrint MsgExactNotFound :: front))).
Proof.
  intros Hs.
  destruct (sdk_get_element_images sdk (world st)) as [listed w1] eqn:E1.
  destruct (sdk_get_element sdk e w1) as [got w2] eqn:E2.
  cbv zeta.
  remember (staged_change sdk d table (S fuel) e mv mw ms step st) as run eqn:R.
  cbn [staged_change] in R. rewrite gtb_false in R by lia.
  unfold bind at 1 in R. unfold get_images_list at 1 in R.
  unfold bind at 1, call at 1 in R. cbn [world log] in R. rewrite E1 in R.
  destruct (cgx_status listed) eqn:S1.
  2:{ unfold ret at 1 in R. unfold bind at 1 in R.
      unfold get_element_sw_version at 1, bind at 1, call at 1 in R.
      cbn [world log] in R. rewrite E2 in R.
      assert (R' : run = (Raise AttributeError,
                          State w2 (EGetElement e :: EGetImages :: log st))).
      { rewrite R. destruct (cgx_status got); reflexivity. }
      clear R. subst run.
      split; [reflexivity|]. split; discriminate. }
  split; [discriminate|].
  destruct (cgx_content listed) as [images|] eqn:C1; [|split; discriminate].
  unfold ret at 1 in R. unfold bind at 1 in R.
  unfold get_element_sw_version at 1, bind at 1, call at 1 in R.
  cbn [world log] in R. rewrite E2 in R.
  set (cur := if cgx_status got then cgx_content got else None).
  assert (Hc : forall s : state W,
             (if cgx_status got then ret (cgx_content got) else ret None) s
             = (Ret cur, s)).
  { intros s. unfold cur. destruct (cgx_status got); reflexivity. }
  rewrite Hc in R. clear Hc. clearbody cur.
  unfold bind at 1, lift at 1 in R. cbn [require_dict] in R.
  split.
  - intros images0 t _ Hi -> Hne Hcur. injection Hi as <-.
    destruct t as [|ch t]; [congruence|]. cbn [truthy] in R.
    unfold bind at 1, ret at 1 in R.
    match type of R with
    | context [if ?c then _ else _] => assert (Hat : c = true)
    end.
    { destruct Hcur as [-> | ->]; rewrite opt_eqb_refl; [reflexivity | apply orb_true_r]. }
    rewrite Hat in R. rewrite R.
    destruct d; [reflexivity|]. destruct (step + 1 =? 1); reflexivity.
  - intros images0 t _ Hi -> Hne Hcur Hread Hno. injection Hi as <-.
    destruct t as [|ch t]; [congruence|]. cbn [truthy] in R.
    unfold bind at 1, ret at 1 in R.
    rewrite (no_key_contains _ _ Hno) in R.
    rewrite (opt_eqb_neq _ _ Hcur), (opt_eqb_neq _ _ Hread) in R.
    cbn [orb] in R.
    match type of R with
    | context [exact_version_loop ?a ?b ?c] =>
        assert (Hx : exact_version_loop a b c = None)
    end.
    { rewrite exact_version_loop_rev.
      match goal with
      | |- match ?g with _ => _ end = _ => replace g with (@None str)
      end; [reflexivity|].
      symmetry. apply get_exact_in_none. intros x Hx. apply in_rev in Hx.
      pose proof (no_key_contains _ _ Hno) as Hk.
      unfold get_exact_major_minor_micro in Hk.
      rewrite get_exact_in_none in Hk. now apply Hk. }
    rewrite Hx in R. cbn [truthy negb] in R. exact R.
Qed.

End Planning.

(** X14. A call of [staged_upgrade] or [staged_downgrade] within the
    budget lists the images, then reads the version of the device. With a
    failed image listing it raises the [AttributeError] of [None.keys()].
    With a given target, when the device reports the target itself or the
    first listed version that contains it, the call returns [False] after
    the "at max" line, which the downgrade prints at step 1 only; this is
    also what happens when the version cannot be read and no listed version
    contains the target, both sides of the comparison being [None]. When
    the device reports another version and no listed version contains the
    target, the call prints "Exact version not found" and returns [False].
    In all these cases no software state is read or written. *)
Theorem staged_stops_before_change {W : Type} (sdk : SDK W)
        (element_id : element_ref) (max_version : option str)
        (max_wait max_steps step : Z) (st : state W) :
  step + 1 <= max_steps ->
  let (listed, w1) := sdk_get_element_images sdk (world st) in
  let (got, w2) := sdk_get_element sdk element_id w1 in
  let up := staged_upgrade sdk element_id max_version max_wait max_steps step st in
  let down := staged_downgrade sdk element_id max_version max_wait max_steps step st in
  let front := EGetElement element_id :: EGetImages :: log st in
  let cur := if cgx_status got then cgx_content got else None in
  (cgx_status listed = false ->
   up = (Raise AttributeError, State w2 front) /\
   down = (Raise AttributeError, State w2 front)) /\
  (forall images t,
      cgx_status listed = true -> cgx_content listed = Some images ->
      max_version = Some t -> t <> [] ->
      cur = Some t \/
      cur = get_exact_major_minor_micro t (images_to_dict images []) ->
      up = (Ret (Some false), State w2 (EPrint MsgAtMax :: front)) /\
      down = (Ret (Some false),
              State w2 (if step + 1 =? 1 then EPrint MsgAtMax :: front else front))) /\
  (forall images t,
      cgx_status listed = true -> cgx_content listed = Some images ->
      max_version = Some t -> t <> [] ->
      cur <> Some t -> cur <> None ->
      (forall i, In i images -> str_in t (image_version i) = false) ->
      up = (Ret (Some false), State w2 (EPrint MsgExactNotFound :: front)) /\
      down = (Ret (Some false), State w2 (EPrint MsgExactNotFound :: front))).
Proof.
  intros Hs.
  assert (Hf : Z.to_nat (max_steps - step) = S (Z.to_nat (max_steps - step - 1)))
    by lia.
  pose proof (staged_change_plan sdk Upgrade upgrade_path_regex
                (Z.to_nat (max_steps - step - 1)) element_id max_version
                max_wait max_steps step st Hs) as U.
  pose proof (staged_change_plan sdk Downgrade downgrade_path_regex
                (Z.to_nat (max_steps - step - 1)) element_id max_version
                max_wait max_steps step st Hs) as D.
  unfold staged_upgrade, staged_downgrade. rewrite Hf.
  destruct (sdk_get_element_images sdk (world st)) as [listed w1].
  destruct (sdk_get_element sdk element_id w1) as [got w2].
  cbv zeta in U, D |- *.
  destruct U as (U1 & U2 & U3), D as (D1 & D2 & D3).
  split; [intros H; split; [now apply U1 | now apply D1]|].
  split.
  - intros images t H1 H2 H3 H4 H5.
    split; [now apply (U2 images t) | now apply (D2 images t)].
  - intros images t H1 H2 H3 H4 H5 H6 H7.
    split; [now apply (U3 images t) | now apply (D3 images t)].
Qed.

(** A device that already runs the build of the target. *)
Lemma staged_stops_before_change_witness :
  0 + 1 <= 5 /\
  fst (staged_upgrade sim_sdk (Some $"e1") (Some $"5.2.7") 240 5 0
                      (device "5.2.7-b22" catalog)) = Ret (Some false) /\
  log (snd (staged_upgrade sim_sdk (Some $"e1") (Some $"5.2.7") 240 5 0
                           (device "5.2.7-b22" catalog)))
  = [EPrint MsgAtMax; EGetElement (Some $"e1"); EGetImages] /\
  log (snd (staged_downgrade sim_sdk (Some $"e1") (Some $"5.2.7") 240 5 0
                             (device "5.2.7-b22" catalog)))
  = [EPrint MsgAtMax; EGetElement (Some $"e1"); EGetImages].
Proof.
  assert (L : 0 + 1 <= 5) by lia.
  split; [exact L|].
  pose proof (staged_stops_before_change sim_sdk (Some $"e1") (Some $"5.2.7") 240 5 0
                (device "5.2.7-b22" catalog) L) as H.
  cbv beta iota zeta delta [sim_sdk sdk_get_element_images sdk_get_element
                            sim_get_images device world sim_image_calls] in H.
  destruct H as (_ & H & _).
  destruct (H catalog $"5.2.7" eq_refl eq_refl eq_refl ltac:(discriminate)
              (or_intror eq_refl)) as [U D].
  split; [exact (f_equal fst U)|].
  split; [exact (f_equal (fun p => log (snd p)) U)
         | exact (f_equal (fun p => log (snd p)) D)].
Defined.

(* ================================================================= *)
(** ** The engine with an absent target *)

Lemma str_in_nil p : str_in p [] = true -> p = [].
Proof. destruct p; [reflexivity | discriminate]. Qed.

Lemma best_by_parses better l : forall best kbest k,
  best_by better best kbest l = Ret k ->
  k = best \/ exists t, major_minor_micro k = Ret t.
Proof.
  induction l as [|x l IH]; intros best kbest k; cbn [best_by].
  - intros H. inversion H. now left.
  - destruct (major_minor_micro x) as [kx|e|] eqn:Ex; cbn [rbind]; try discriminate.
    destruct (better kx kbest); intros H; apply IH in H as [->|H]; auto.
    right. now exists kx.
Qed.

Lemma py_best_parses better l k :
  py_best better l = Ret k -> exists t, major_minor_micro k = Ret t.
Proof.
  destruct l as [|x l]; cbn [py_best]; [discriminate|].
  destruct (major_minor_micro x) as [kx|e|] eqn:Ex; cbn [rbind]; try discriminate.
  intros H. apply best_by_parses in H as [->|H]; [now exists kx | exact H].
Qed.

(** The key picked for an absent target is not the empty string, and the
    loop of the engine finds a key for it. *)
Lemma py_best_found better keys k :
  py_best better keys = Ret k ->
  truthy (Some k) = true /\
  truthy (exact_version_loop k keys None) = true.
Proof.
  intros H.
  assert (Hk : k <> []).
  { destruct (py_best_parses _ _ _ H) as [t Ht]. intros ->. discriminate Ht. }
  split; [destruct k; [congruence | reflexivity]|].
  pose proof (py_best_in _ _ _ H) as Hin.
  rewrite exact_version_loop_rev.
  destruct (get_exact_in_found k (List.rev keys) k (proj1 (in_rev _ _) Hin)
              (str_in_refl k)) as (k2 & -> & Hk2).
  destruct k2 as [|c k2]; [|reflexivity].
  apply str_in_nil in Hk2. contradiction.
Qed.

Lemma bind_ret {W A B} (m : M W A) (f : A -> M W B) st a st1 :
  m st = (Ret a, st1) -> bind m f st = f a st1.
Proof. intros H. unfold bind. now rewrite H. Qed.

Lemma bind_lift_ret {W A B} (a : A) (f : A -> M W B) st :
  bind (lift (Ret a)) f st = f a st.
Proof. reflexivity. Qed.

Lemma bind_ret_ret {W A B} (a : A) (f : A -> M W B) st :
  bind (ret a) f st = f a st.
Proof. reflexivity. Qed.

Section AbsentTarget.
Context {W : Type} (sdk : SDK W).

(** With an absent target, a call of the engine is the call with the key
    that [max] (upgrade) or [min] (downgrade) picks among the keys of the
    image list given as the target. *)
Lemma staged_change_absent_is_pick d table fuel e mv mw ms step st images k :
  truthy mv = false ->
  cgx_status (fst (sdk_get_element_images sdk (world st))) = true ->
  cgx_content (fst (sdk_get_element_images sdk (world st))) = Some images ->
  match d with
  | Upgrade => py_max (dict_keys (images_to_dict images []))
  | Downgrade => py_min (dict_keys (images_to_dict images []))
  end = Ret k ->
  staged_change sdk d table fuel e mv mw ms step st
  = staged_change sdk d table fuel e (Some k) mw ms step st.
Proof.
  intros Hmv Hs Hc Hk.
  assert (Tk : truthy (Some k) = true).
  { destruct d; exact (proj1 (py_best_found _ _ _ Hk)). }
  destruct fuel as [|fuel]; cbn [staged_change]; [reflexivity|].
  destruct (step + 1 >? ms); [reflexivity|].
  assert (Hget : get_images_list sdk st
                 = (Ret (Some (images_to_dict images [])),
                    State (snd (sdk_get_element_images sdk (world st)))
                          (EGetImages :: log st))).
  { unfold get_images_list, bind, call.
    destruct (sdk_get_element_images sdk (world st)) as [listed w1].
    cbn [fst snd] in *. now rewrite Hs, Hc. }
  rewrite !(bind_ret _ _ _ _ _ Hget).
  destruct (get_element_sw_version_run sdk e
              (State (snd (sdk_get_element_images sdk (world st)))
                     (EGetImages :: log st))) as (cur & w2 & Hel).
  rewrite !(bind_ret _ _ _ _ _ Hel).
  cbn [require_dict]. rewrite !bind_lift_ret.
  rewrite Hmv, Tk, Hk. rewrite bind_lift_ret, bind_ret_ret.
  reflexivity.
Qed.

Ltac quiet_end :=
  eexists; eexists; split; [reflexivity|];
  left;
  first [ eexists [_]; split; [reflexivity|]
        | eexists [_; _]; split; [reflexivity|]
        | eexists [_; _; _]; split; [reflexivity|]
        | eexists [_; _; _; _]; split; [reflexivity|] ];
  split; reflexivity.

(** Within the budget and with an absent target, a step either ends
    before any software-state call without the line "Exact version not
    found", or goes on with [finish_hop]. *)
Lemma staged_change_absent_step d table fuel e mv mw ms step st :
  step + 1 <= ms -> truthy mv = false ->
  exists r st',
    staged_change sdk d table (S fuel) e mv mw ms step st = (r, st') /\
    ((exists pre,
         log st' = pre ++ log st /\
         count is_get_state pre = 0%nat /\ count is_not_found pre = 0%nat)
     \/
     (exists pre st1 next id mv',
         log st1 = pre ++ log st /\
         count is_get_state pre = 0%nat /\ count is_not_found pre = 0%nat /\
         (r, st') = finish_hop sdk e next id mw (step + 1)
                      (staged_change sdk d table fuel e (Some mv') mw ms (step + 1))
                      st1)).
Proof.
  intros Hs Hmv. cbn [staged_change]. rewrite gtb_false by lia.
  unfold bind at 1.
  destruct (get_images_list_run sdk st) as (r & w & -> & Hr).
  destruct r as [imgs|x|]; [|quiet_end|congruence].
  unfold bind at 1.
  destruct (get_element_sw_version_run sdk e (State w (EGetImages :: log st)))
    as (cur & w1 & ->). cbn [log].
  unfold bind at 1, lift at 1.
  destruct imgs as [image_dict|]; cbn [require_dict]; [|quiet_end].
  unfold bind at 1. rewrite Hmv. unfold lift at 1.
  assert (Hpick : exists better,
             match d with
             | Upgrade => py_max (dict_keys image_dict)
             | Downgrade => py_min (dict_keys image_dict)
             end = py_best better (dict_keys image_dict)).
  { destruct d; eexists; reflexivity. }
  destruct Hpick as [better ->].
  pose proof (py_best_no_oof better (dict_keys image_dict)) as Hoof.
  destruct (py_best better (dict_keys image_dict)) as [mv'|x|] eqn:Ep;
    [|quiet_end|congruence].
  destruct (opt_eqb cur (Some mv') || opt_eqb cur (get_exact_major_minor_micro mv' image_dict)).
  { destruct d; [quiet_end|].
    destruct (step + 1 =? 1); quiet_end. }
  rewrite (proj2 (py_best_found _ _ _ Ep)). cbn [negb].
  unfold bind at 1, lift at 1.
  pose proof (scan_path_table_no_oof table cur image_dict (None, None)) as Hscan.
  destruct (scan_path_table table cur image_dict (None, None)) as [[uv uid]|x|];
    [|quiet_end|congruence].
  destruct (truthy uv && truthy uid); [|quiet_end].
  unfold bind at 1, print at 1. cbn [world log].
  match goal with
  | |- exists r st', ?X = _ /\ _ => destruct X as [r st'] eqn:E
  end.
  exists r, st'. split; [reflexivity|].
  right.
  eexists [_; _; _], _, _, _, mv'.
  split; [|split; [|split; [|symmetry; exact E]]]; reflexivity.
Qed.

(** A step that goes on with [finish_hop] starts with a read of the
    software state. *)
Lemma finish_hop_reads_state d table fuel e mv next id mw ms step st1 r st' :
  (Z.to_nat (ms - step) <= fuel)%nat ->
  (r, st') = finish_hop sdk e next id mw step
               (staged_change sdk d table fuel e mv mw ms step) st1 ->
  exists more, log st' = (more ++ [EGetSoftwareState e]) ++ log st1.
Proof.
  intros Hf E.
  destruct (finish_hop_run sdk e next id mw step
              (staged_change sdk d table fuel e mv mw ms step) st1)
    as (r0 & st0 & b1 & st2 & new_x & Hrun & Hx & Hl2 & _ & _ & _ & _ & Hcase).
  rewrite Hrun in E. injection E as -> ->.
  assert (Hnx : exists x', new_x = x' ++ [EGetSoftwareState e]).
  { assert (X : exec_log sdk e b1 new_x) by now exists id, st1, st2.
    apply exec_log_shape in X as (id' & d' & X). cbv zeta in X.
    destruct X as [[_ ->]|[[_ ->]|[_ ->]]];
      [eexists [_; _] | eexists [_; _; _] | eexists [_]]; reflexivity. }
  destruct Hnx as [x' ->].
  destruct Hcase as [(_ & _ & ->) | (_ & b2 & st3 & new_w & _ & Hl3 & _ & _ & _ & _ & Hcase)].
  { exists x'. exact Hl2. }
  destruct Hcase as [(_ & _ & -> & _) | (_ & rr & st4 & Hrec & Hrr)].
  { exists (new_w ++ x'). now rewrite Hl3, Hl2, !app_assoc. }
  destruct (staged_change_engine_log sdk d table fuel e mv mw ms step st3 Hf)
    as (r4 & st4' & new4 & Hrun4 & Hl4 & _).
  rewrite Hrec in Hrun4. injection Hrun4 as <- <-.
  destruct rr as [v|x|].
  - destruct Hrr as (_ & post & Hlp & _).
    exists (post ++ new4 ++ new_w ++ x').
    now rewrite Hlp, Hl4, Hl3, Hl2, !app_assoc.
  - destruct Hrr as [_ ->].
    exists (new4 ++ new_w ++ x'). now rewrite Hl4, Hl3, Hl2, !app_assoc.
  - destruct Hrr as [_ ->].
    exists (new4 ++ new_w ++ x'). now rewrite Hl4, Hl3, Hl2, !app_assoc.
Qed.

Lemma staged_change_absent_quiet d table e mv mw ms step st :
  truthy mv = false ->
  exists r st' new,
    staged_change sdk d table (Z.to_nat (ms - step)) e mv mw ms step st = (r, st') /\
    log st' = new ++ log st /\
    exists pre rest,
      new = rest ++ pre /\
      count is_not_found pre = 0%nat /\ count is_get_state pre = 0%nat /\
      (rest = [] \/ exists rest', rest = rest' ++ [EGetSoftwareState e]).
Proof.
  intros Hmv.
  destruct (Z_lt_le_dec ms (step + 1)) as [Hlim|Hlim].
  { rewrite staged_change_limit by lia.
    eexists; eexists; exists [EPrint MsgMaxSteps].
    split; [reflexivity|]. split; [reflexivity|].
    exists [EPrint MsgMaxSteps], []. repeat split. now left. }
  assert (Hf : Z.to_nat (ms - step) = S (Z.to_nat (ms - (step + 1)))) by lia.
  rewrite Hf.
  destruct (staged_change_absent_step d table (Z.to_nat (ms - (step + 1)))
              e mv mw ms step st Hlim Hmv)
    as (r & st' & Hrun &
        [(pre & Hl & Hg & Hq) | (pre & st1 & next & id & mv' & Hl1 & Hg & Hq & E)]).
  - exists r, st', pre. split; [exact Hrun|]. split; [exact Hl|].
    exists pre, []. repeat split; try assumption. now left.
  - destruct (finish_hop_reads_state _ _ _ _ _ _ _ _ _ _ _ _ _ (Nat.le_refl _) E)
      as (more & Hl).
    exists r, st', ((more ++ [EGetSoftwareState e]) ++ pre). split; [exact Hrun|].
    split; [now rewrite Hl, Hl1, app_assoc|].
    exists pre, (more ++ [EGetSoftwareState e]). repeat split; try assumption.
    right. now exists more.
Qed.

End AbsentTarget.

(** X6. With an absent target ([None] or the empty string), what a call
    of [staged_upgrade] or [staged_downgrade] logs before its first read of
    the software state, that is before its first change request, or in the
    whole call when it makes none, does not hold the line "Exact version
    not found": the key that [max] or [min] picks is a key of the image
    list, and the loop over the keys finds it. *)
Theorem absent_target_resolves {W : Type} (sdk : SDK W)
        (element_id : element_ref) (max_version : option str)
        (max_wait max_steps step : Z) (st : state W) :
  truthy max_version = false ->
  (exists r st' new,
      staged_upgrade sdk element_id max_version max_wait max_steps step st = (r, st') /\
      log st' = new ++ log st /\
      exists pre rest,
        new = rest ++ pre /\
        count is_not_found pre = 0%nat /\ count is_get_state pre = 0%nat /\
        (rest = [] \/ exists rest', rest = rest' ++ [EGetSoftwareState element_id])) /\
  (exists r st' new,
      staged_downgrade sdk element_id max_version max_wait max_steps step st = (r, st') /\
      log st' = new ++ log st /\
      exists pre rest,
        new = rest ++ pre /\
        count is_not_found pre = 0%nat /\ count is_get_state pre = 0%nat /\
        (rest = [] \/ exists rest', rest = rest' ++ [EGetSoftwareState element_id])).
Proof.
  intros Hmv. split; apply staged_change_absent_quiet; exact Hmv.
Qed.

(** No target given, a device at 9.9.9 that no path entry matches: the
    key picked, 5.4.3, is found and the call ends on "Could not find next
    version". *)
Lemma absent_target_resolves_witness :
  truthy None = false /\
  fst (staged_upgrade sim_sdk (Some $"e1") None 240 5 0 (device "9.9.9" catalog))
  = Ret (Some false) /\
  exists new pre rest,
    log (snd (staged_upgrade sim_sdk (Some $"e1") None 240 5 0
                             (device "9.9.9" catalog))) = new ++ [] /\
    new = rest ++ pre /\ count is_not_found pre = 0%nat /\
    count is_get_state pre = 0%nat /\
    (rest = [] \/ exists rest', rest = rest' ++ [EGetSoftwareState (Some $"e1")]).
Proof.
  assert (T : truthy None = false) by reflexivity.
  split; [exact T|]. split; [vm_compute; reflexivity|].
  destruct (proj1 (absent_target_resolves sim_sdk (Some $"e1") None 240 5 0
                     (device "9.9.9" catalog) T))
    as (r & st' & new & Hrun & Hl & pre & rest & H).
  exists new, pre, rest. rewrite Hrun. cbn [snd]. split; [exact Hl | exact H].
Defined.

(* ================================================================= *)
(** ** Catalog resolution, in the function and in the engine *)

(** C6, as the code has it. [get_exact_major_minor_micro] returns the first
    key, in the order of the dict, that contains the version as a substring,
    and [None] when no key contains it; resolving 5.2.7 against the keys
    5.2.7-b22, 4.5.3 gives 5.2.7-b22. The loop of the engine over the keys
    ends on the last such key. [max] and [min] of the keys by version are
    the first key of highest (lowest) version and exist when the list is
    not empty and every key parses. With an absent target ([None] or the
    empty string) and an image list that could be read, a call of
    [staged_upgrade] is the call with [max] of the listed keys as its
    target, and a call of [staged_downgrade] the call with [min] of the
    listed keys as its target. *)
Theorem resolve_exact_first_key {W : Type} (sdk : SDK W)
        (version : str) (image_dict : dict image) (keys : list str)
        (element_id : element_ref) (max_version : option str)
        (max_wait max_steps step : Z) (st : state W) :
  (forall k,
      get_exact_major_minor_micro version image_dict = Some k <->
      exists pre post,
        dict_keys image_dict = pre ++ k :: post /\ str_in version k = true /\
        forall x, In x pre -> str_in version x = false) /\
  (get_exact_major_minor_micro version image_dict = None <->
   forall x, In x (dict_keys image_dict) -> str_in version x = false) /\
  (forall k, str_in version k = true <-> exists pre post, k = pre ++ version ++ post) /\
  exact_version_loop version keys None = get_exact_in version (List.rev keys) /\
  (forall k, py_max keys = Ret k -> first_with keys k version_lt version_le) /\
  (forall k, py_min keys = Ret k ->
             first_with keys k (fun tx top => version_lt top tx)
                        (fun tx top => version_le top tx)) /\
  (keys <> [] ->
   (forall x, In x keys -> exists tx, major_minor_micro x = Ret tx) ->
   exists kmax kmin, py_max keys = Ret kmax /\ py_min keys = Ret kmin) /\
  get_exact_in $"5.2.7" [$"5.2.7-b22"; $"4.5.3"] = Some $"5.2.7-b22" /\
  (truthy max_version = false ->
   forall images,
     cgx_status (fst (sdk_get_element_images sdk (world st))) = true ->
     cgx_content (fst (sdk_get_element_images sdk (world st))) = Some images ->
     (forall k,
         py_max (dict_keys (images_to_dict images [])) = Ret k ->
         staged_upgrade sdk element_id max_version max_wait max_steps step st
         = staged_upgrade sdk element_id (Some k) max_wait max_steps step st) /\
     (forall k,
         py_min (dict_keys (images_to_dict images [])) = Ret k ->
         staged_downgrade sdk element_id max_version max_wait max_steps step st
         = staged_downgrade sdk element_id (Some k) max_wait max_steps step st)).
Proof.
  destruct (catalog_resolution_facts version image_dict keys)
    as (H1 & H2 & H3 & H4 & H5 & H6 & H7 & H8).
  split; [exact H1|]. split; [exact H2|]. split; [exact H3|]. split; [exact H4|].
  split; [exact H5|]. split; [exact H6|]. split; [exact H7|]. split; [exact H8|].
  intros Hmv images Hs Hc. split; intros k Hk.
  - apply (staged_change_absent_is_pick sdk Upgrade _ _ _ _ _ _ _ _ images k Hmv Hs Hc Hk).
  - apply (staged_change_absent_is_pick sdk Downgrade _ _ _ _ _ _ _ _ images k Hmv Hs Hc Hk).
Qed.

(** The image list 5.2.7-b22, 4.5.3; and the simulated device at 4.5.2
    with no target given: the upgrade is the upgrade to 5.4.3, the
    downgrade the downgrade to 4.5.3. *)
Lemma resolve_exact_first_key_witness :
  let image_dict := images_to_dict [img "5.2.7-b22"; img "4.5.3"] [] in
  let keys := [$"5.2.7-b22"; $"4.5.3"] in
  let st := device "4.5.2" catalog in
  get_exact_major_minor_micro $"5.2.7" image_dict = Some $"5.2.7-b22" /\
  (exists pre post, $"5.2.7-b22" = pre ++ $"5.2.7" ++ post) /\
  py_max keys = Ret $"5.2.7-b22" /\
  first_with keys $"5.2.7-b22" version_lt version_le /\
  (exists kmax kmin, py_max keys = Ret kmax /\ py_min keys = Ret kmin) /\
  truthy None = false /\
  py_max (dict_keys (images_to_dict catalog [])) = Ret $"5.4.3" /\
  py_min (dict_keys (images_to_dict catalog [])) = Ret $"4.5.3" /\
  staged_upgrade sim_sdk (Some $"e1") None 240 5 0 st
  = staged_upgrade sim_sdk (Some $"e1") (Some $"5.4.3") 240 5 0 st /\
  staged_downgrade sim_sdk (Some $"e1") None 240 5 0 st
  = staged_downgrade sim_sdk (Some $"e1") (Some $"4.5.3") 240 5 0 st.
Proof.
  intros image_dict keys st.
  destruct (resolve_exact_first_key sim_sdk $"5.2.7" image_dict keys
              (Some $"e1") None 240 5 0 st)
    as (H1 & _ & H3 & _ & H5 & _ & H7 & _ & H9).
  assert (E : py_max keys = Ret $"5.2.7-b22") by reflexivity.
  assert (T : truthy None = false) by reflexivity.
  assert (Emax : py_max (dict_keys (images_to_dict catalog [])) = Ret $"5.4.3")
    by reflexivity.
  assert (Emin : py_min (dict_keys (images_to_dict catalog [])) = Ret $"4.5.3")
    by reflexivity.
  split.
  { apply (H1 $"5.2.7-b22"). exists [], [$"4.5.3"].
    split; [reflexivity|]. split; [reflexivity|]. intros x []. }
  split; [apply (H3 $"5.2.7-b22"); reflexivity|].
  split; [exact E|]. split; [exact (H5 _ E)|].
  split.
  { apply H7; [discriminate|].
    intros x [<-|[<-|[]]]; eexists; reflexivity. }
  split; [exact T|]. split; [exact Emax|]. split; [exact Emin|].
  destruct (H9 T catalog eq_refl eq_refl) as [Hup Hdown].
  split; [exact (Hup _ Emax) | exact (Hdown _ Emin)].
Defined.

(* ================================================================= *)
(** ** The value that reaches the caller *)

(** C5, as the code has it. A run of [staged_upgrade] or [staged_downgrade]
    ends with [False], with [None] or with an exception, and so does [go]:
    no status, step count or version is returned, they are only printed.
    The engine returns [None] exactly when a wait completed during the run
    and [False] exactly when none did, so that the limit, the already-there
    and the failure of a first step all give the same [False]. And [go]
    drops the value of the engine: when the element is found, the direction
    is determined and it is the one asked for (or none was asked for), [go]
    ends in the state in which the engine ends and returns [None] whatever
    value the engine returns, and raises what the engine raises. *)
Theorem staged_value_is_false_or_none {W : Type} (sdk : SDK W)
        (element_id : element_ref) (max_version : option str)
        (wait budget step : Z) (CLIARGS : cliargs) (st : state W) :
  (forall run,
      run = staged_upgrade sdk element_id max_version wait budget step st \/
      run = staged_downgrade sdk element_id max_version wait budget step st ->
      (fst run = Ret (Some false) \/ fst run = Ret None \/ exists x, fst run = Raise x) /\
      exists new,
        log (snd run) = new ++ log st /\
        (fst run = Ret None -> (0 < count is_completed new)%nat) /\
        (fst run = Ret (Some false) -> count is_completed new = 0%nat)) /\
  (fst (go sdk CLIARGS st) = Ret (Some false) \/ fst (go sdk CLIARGS st) = Ret None \/
   exists x, fst (go sdk CLIARGS st) = Raise x) /\
  (forall ms mw eid a st1 st2,
      py_int (max_steps CLIARGS) = Ret ms ->
      py_int (max_wait CLIARGS) = Ret mw ->
      find_ion_by_sn sdk (ion_serial CLIARGS) st = (Ret eid, st1) ->
      truthy eid = true ->
      is_upgrade_or_downgrade sdk eid (version_target CLIARGS) st1
      = (Ret (Some a), st2) ->
      action CLIARGS = $"auto" \/ action CLIARGS = a ->
      let st3 :=
        if str_eqb (action CLIARGS) $"auto"
        then State (world st2) (EPrint (MsgAutoAction a) :: log st2)
        else st2 in
      let engine :=
        if str_eqb a $"upgrade"
        then staged_upgrade sdk eid (version_target CLIARGS) mw ms 0 st3
        else staged_downgrade sdk eid (version_target CLIARGS) mw ms 0 st3 in
      snd (go sdk CLIARGS st) = snd engine /\
      fst (go sdk CLIARGS st)
      = match fst engine with
        | Ret _ => Ret None
        | Raise x => Raise x
        | OutOfFuel => OutOfFuel
        end).
Proof.
  assert (V : forall r, false_or_none r ->
                        r = Ret (Some false) \/ r = Ret None \/ exists x, r = Raise x).
  { intros [[[|]|]|x|] [H1 H2]; try congruence; eauto. }
  split; [|split; [apply V, go_false_or_none|]].
  - intros run Hrun.
    assert (G : forall d table,
               run = staged_change sdk d table (Z.to_nat (budget - step))
                       element_id max_version wait budget step st ->
               (fst run = Ret (Some false) \/ fst run = Ret None \/
                exists x, fst run = Raise x) /\
               exists new,
                 log (snd run) = new ++ log st /\
                 (fst run = Ret None -> (0 < count is_completed new)%nat) /\
                 (fst run = Ret (Some false) -> count is_completed new = 0%nat)).
    { intros d table ->. split; [apply V, staged_change_false_or_none|].
      destruct (staged_change_run sdk d table (Z.to_nat (budget - step))
                  element_id max_version wait budget step st (Nat.le_refl _))
        as (r & st' & new & -> & Hl & _ & _ & _ & _ & _ & Hn & Hf & _).
      exists new. cbn [fst snd]. repeat split; assumption. }
    destruct Hrun as [Hrun|Hrun]; eapply G; exact Hrun.
  - intros ms mw eid a st1 st2 Hms Hmw Hfind Heid Hact Hcli.
    assert (Ha : a = $"upgrade" \/ a = $"downgrade").
    { destruct (is_upgrade_or_downgrade_log sdk eid (version_target CLIARGS) st1)
        as (r & st' & new & Hrun & _ & _ & _ & _ & Hs & _).
      rewrite Hact in Hrun. injection Hrun as <- <-.
      exact (proj2 (Hs a eq_refl)). }
    assert (Ta : truthy (Some a) = true) by (destruct Ha as [->| ->]; reflexivity).
    cbv zeta. unfold go. cbv zeta.
    rewrite Hms, bind_lift_ret, Hmw, bind_lift_ret.
    rewrite (bind_ret _ _ _ _ _ Hfind), (bind_ret _ _ _ _ _ Hact).
    rewrite Ta, Heid. cbn [negb].
    assert (Hno : negb (str_eqb (action CLIARGS) $"auto")
                  && negb (str_eqb (action CLIARGS) a) = false).
    { destruct Hcli as [-> | ->]; rewrite str_eqb_refl; cbn [negb];
        [reflexivity | apply andb_false_r]. }
    rewrite Hno.
    assert (Hauto : (if str_eqb (action CLIARGS) $"auto"
                     then print (MsgAutoAction a) else ret tt) st2
                    = (Ret tt,
                       if str_eqb (action CLIARGS) $"auto"
                       then State (world st2) (EPrint (MsgAutoAction a) :: log st2)
                       else st2)).
    { destruct (str_eqb (action CLIARGS) $"auto"); reflexivity. }
    rewrite (bind_ret _ _ _ _ _ Hauto).
    destruct Ha as [-> | ->].
    + change (str_eqb $"upgrade" $"upgrade") with true. cbv iota.
      unfold bind.
      destruct (staged_upgrade sdk eid (version_target CLIARGS) mw ms 0 _)
        as [[v|x|] st4]; split; reflexivity.
    + change (str_eqb $"downgrade" $"upgrade") with false.
      change (str_eqb $"downgrade" $"downgrade") with true. cbv iota.
      unfold bind.
      destruct (staged_downgrade sdk eid (version_target CLIARGS) mw ms 0 _)
        as [[v|x|] st4]; split; reflexivity.
Qed.

(** Two hops done, then the limit: the value of the engine is [None]. And
    a budget of no step at all: the engine prints the limit line and
    returns [False], [go] returns [None]. *)
Lemma staged_value_is_false_or_none_witness :
  let st := device "4.5.2" catalog in
  let run := staged_upgrade sim_sdk (Some $"e1") (Some $"5.2.7") 240 2 0 st in
  let CLIARGS := CliArgs $"serial-1" $"auto" $"0" $"240" (Some $"5.2.7") in
  let st1 := snd (find_ion_by_sn sim_sdk $"serial-1" st) in
  let st2 := snd (is_upgrade_or_downgrade sim_sdk (Some $"e1") (Some $"5.2.7") st1) in
  let st3 := State (world st2) (EPrint (MsgAutoAction $"upgrade") :: log st2) in
  (fst run = Ret None /\
   exists new, log (snd run) = new ++ [] /\ (0 < count is_completed new)%nat) /\
  fst (staged_upgrade sim_sdk (Some $"e1") (Some $"5.2.7") 240 0 0 st3)
  = Ret (Some false) /\
  fst (go sim_sdk CLIARGS st) = Ret None /\
  snd (go sim_sdk CLIARGS st)
  = snd (staged_upgrade sim_sdk (Some $"e1") (Some $"5.2.7") 240 0 0 st3).
Proof.
  intros st run CLIARGS st1 st2 st3.
  destruct (staged_value_is_false_or_none sim_sdk (Some $"e1") (Some $"5.2.7")
              240 2 0 CLIARGS st)
    as (Hengine & _ & Hgo).
  split.
  { destruct (Hengine run (or_introl eq_refl)) as (_ & new & Hl & Hn & _).
    assert (E : fst run = Ret None) by (vm_compute; reflexivity).
    split; [exact E|]. exists new. split; [exact Hl | exact (Hn E)]. }
  assert (E0 : fst (staged_upgrade sim_sdk (Some $"e1") (Some $"5.2.7") 240 0 0 st3)
               = Ret (Some false)) by reflexivity.
  split; [exact E0|].
  assert (F : find_ion_by_sn sim_sdk (ion_serial CLIARGS) st = (Ret (Some $"e1"), st1))
    by (vm_compute; reflexivity).
  assert (D : is_upgrade_or_downgrade sim_sdk (Some $"e1") (version_target CLIARGS) st1
              = (Ret (Some $"upgrade"), st2)) by (vm_compute; reflexivity).
  destruct (Hgo 0 240 (Some $"e1") $"upgrade" st1 st2
                eq_refl eq_refl F eq_refl D (or_introl eq_refl))
    as [Hsnd Hfst].
  split; [|exact Hsnd].
  exact (eq_trans Hfst
           (f_equal (fun r : result (option bool) =>
                       match r with
                       | Ret _ => Ret None
                       | Raise x => Raise x
                       | OutOfFuel => OutOfFuel
                       end) E0)).
Defined.
